(** * ProofOfWork: the claim lifecycle and trust engine

    A shallow embedding of the two implementations of the protocol found in
    the repository:

    - [Backend]: the Express handlers of [backend/server.js] over the SQLite
      tables.  A table is the list of its rows in insertion order, a query is
      a [filter]/[map]/sort over that list, and a handler is a function from
      the database to the new database and the HTTP response.
    - [Contract]: [submitClaim], [verifyClaim] and [_sealClaim] of
      [contracts/ProofOfWork.sol],
      with Solidity mappings as total functions and [require] as an early
      [Revert].
    - [Chain]: the rest of the contract (registration, certificates,
      slashing, the credit view) and the states its transactions produce.
    - [Routes]: the other routes of the backend (claim details, the pages of
      the workers, supply-chain certificates, statistics).

    Numbers.  A JavaScript number or a SQLite REAL is the rational value
    ([Q]) of a binary64 double.  The sums, the mean and the product of
    [calcAnomalyScore] are computed as the code computes them, in binary64
    (the operations of [SpecFloat] at precision 53): there the rounding
    decides which flags are filed.  The other arithmetic of the handlers
    (reputation in steps of 0.5, the shares and the means of the reports) is
    read over the rationals.  INTEGER columns and counts are [Z].

    Dates.  The date of a claim is the text that the request carries: the
    handlers do not check its form, compare it as text, and hand it to
    SQLite's [date(?, '-n days')], whose answer is an input of the model
    ([sql_date]).  [Calendar] reads the texts of the form YYYY-MM-DD.

    Values drawn from the outside world (random identifiers and hashes, the
    clock) are inputs of the handlers, gathered in [env].  An identifier drawn
    by [genId] is taken to be a new one, so that no INSERT is refused by a
    PRIMARY KEY; where a statement depends on it, it says so ([fresh]).  The
    token check of [verifyJWT] is reduced to its outcome. *)

From Stdlib Require Import List String Ascii ZArith QArith Qminmax Qround Bool Lia Lqa.
From Stdlib Require Import SpecFloat Sorted Permutation.
Import ListNotations.

(** * The calendar

    The dates that the texts of the claims name, in the order of the
    calendar, and the day before a date. *)

Module Calendar.

Local Open Scope Z_scope.

Record date := { year : Z; month : Z; day : Z }.

(** The value of a decimal digit. *)
Definition digit (c : ascii) : option Z :=
  let n := Z.of_N (N_of_ascii c) in
  if (48 <=? n) && (n <=? 57) then Some (n - 48) else None.

Definition leap (y : Z) : bool :=
  ((y mod 4 =? 0) && negb (y mod 100 =? 0)) || (y mod 400 =? 0).

Definition days_in_month (y m : Z) : Z :=
  if m =? 2 then (if leap y then 29 else 28)
  else if (m =? 4) || (m =? 6) || (m =? 9) || (m =? 11) then 30
  else 31.

Definition valid (t : date) : bool :=
  (1 <=? month t) && (month t <=? 12)
  && (1 <=? day t) && (day t <=? days_in_month (year t) (month t)).

Definition is_dash (c : ascii) : bool := Ascii.eqb c "-"%char.

(** The date that a text of the form YYYY-MM-DD names. *)
Definition iso (s : string) : option date :=
  match s with
  | String y1 (String y2 (String y3 (String y4 (String s1 (String m1 (String m2
      (String s2 (String d1 (String d2 EmptyString))))))))) =>
    match digit y1, digit y2, digit y3, digit y4,
          digit m1, digit m2, digit d1, digit d2 with
    | Some a, Some b, Some c, Some d, Some e, Some f, Some g, Some h =>
      let t := {| year := 1000 * a + 100 * b + 10 * c + d;
                  month := 10 * e + f; day := 10 * g + h |} in
      if is_dash s1 && is_dash s2 && valid t then Some t else None
    | _, _, _, _, _, _, _, _ => None
    end
  | _ => None
  end.

(** A number that orders the dates as the calendar does. *)
Definition stamp (t : date) : Z := 10000 * year t + 100 * month t + day t.

Definition prev_day (t : date) : date :=
  if 1 <? day t then {| year := year t; month := month t; day := day t - 1 |}
  else if 1 <? month t
  then {| year := year t; month := month t - 1;
          day := days_in_month (year t) (month t - 1) |}
  else {| year := year t - 1; month := 12; day := 31 |}.

(** The date [n] days before [t]. *)
Definition minus_days (n : nat) (t : date) : date := Nat.iter n prev_day t.

Definition digit_char (n : Z) : ascii := ascii_of_N (Z.to_N (48 + n mod 10)).

Definition two_digits (n : Z) (rest : string) : string :=
  String (digit_char (n / 10)) (String (digit_char n) rest).

(** The text YYYY-MM-DD of a date. *)
Definition format (t : date) : string :=
  two_digits (year t / 100) (two_digits (year t)
    (String "-" (two_digits (month t) (String "-" (two_digits (day t) ""))))).

(** What SQLite's [date(s, '-n days')] answers on a text YYYY-MM-DD, and on
    a text that it does not read as a time: NULL.  (It reads other forms
    too, with a time of day or as a Julian day; this function is the
    [sql_date] of the scenarios, which use none of them.) *)
Definition sqlite_date (s : string) (n : Z) : option string :=
  match iso s with
  | Some t =>
      let r := minus_days (Z.to_nat n) t in
      if 0 <=? year r then Some (format r) else None
  | None => None
  end.

(** The date that a text names when its year, month and day are written
    as numbers between dashes, with or without leading zeros. *)
Fixpoint numeral (s : string) (acc : Z) : option Z :=
  match s with
  | EmptyString => Some acc
  | String c r =>
      match digit c with
      | Some n => numeral r (10 * acc + n)
      | None => None
      end
  end.

Definition number (s : string) : option Z :=
  match s with
  | EmptyString => None
  | _ => numeral s 0
  end.

Fixpoint split_dash (s : string) : list string :=
  match s with
  | EmptyString => [EmptyString]
  | String c r =>
      if is_dash c then EmptyString :: split_dash r
      else match split_dash r with
           | x :: l => String c x :: l
           | [] => [String c EmptyString]
           end
  end.

Definition named (s : string) : option date :=
  match split_dash s with
  | [y; m; d] =>
      match number y, number m, number d with
      | Some y, Some m, Some d =>
          let t := {| year := y; month := m; day := d |} in
          if valid t then Some t else None
      | _, _, _ => None
      end
  | _ => None
  end.

End Calendar.

Module Backend.

Local Open Scope string_scope.
Local Open Scope Q_scope.

(** ** Tables (the columns the handlers read or write) *)

Record worker := {
  w_id : string;
  w_name : string;
  w_location : string;
  w_sector : string;
  w_wallet_address : string;
  w_public_key : string;
  reputation_score : Q;          (* REAL DEFAULT 50.0 *)
  verification_depth : Z;        (* INTEGER DEFAULT 0 *)
  total_days_worked : Z          (* INTEGER DEFAULT 0 *)
}.

Record work_claim := {
  wc_id : string;
  wc_worker_id : string;
  wc_date : string;              (* TEXT NOT NULL, as the request gives it *)
  wc_hours : Q;
  wc_task : string;
  wc_location_lat : option Q;
  wc_location_lng : option Q;
  wc_status : string;            (* TEXT DEFAULT 'pending' *)
  wc_ipfs_hash : option string;
  wc_tx_hash : option string;
  wc_block_number : option Z;
  wc_anomaly_score : Q;
  wc_created_at : string         (* datetime('now'): 'YYYY-MM-DD HH:MM:SS' *)
}.

Record verification := {
  v_id : string;
  v_claim_id : string;
  v_verifier_id : string;
  v_signature : string;
  v_gps_distance_m : option Q;
  v_is_valid : bool              (* INTEGER DEFAULT 1 *)
}.

(** The description column holds display text only and is left out. *)
Record anomaly_flag := {
  af_id : string;
  af_flagged_entity : string;
  af_entity_type : string;
  af_anomaly_type : string;
  af_risk_score : Q;
  af_resolved : bool             (* INTEGER DEFAULT 0 *)
}.

Record credit_report := {
  cr_id : string;
  cr_worker_id : string;
  cr_score : Z;
  cr_tier : string;
  cr_max_loan_usd : Z;
  cr_months_on_chain : Z;
  cr_avg_peers : Q;
  cr_avg_weekly_hours : Q
}.

Record db := {
  workers : list worker;
  work_claims : list work_claim;
  verifications : list verification;
  anomaly_flags : list anomaly_flag;
  credit_reports : list credit_report
}.

Definition empty_db : db :=
  {| workers := []; work_claims := []; verifications := [];
     anomaly_flags := []; credit_reports := [] |}.

(** ** The outside world of one request *)

Record env := {
  gen_id : string;               (* first genId() of the handler *)
  gen_flag_id : string;          (* genId() of the auto-flag *)
  gen_tx_hash : string;          (* genTxHash() *)
  gen_ipfs_hash : string;        (* genIpfsHash() *)
  gen_block_number : Z;          (* Math.floor(48000 + Math.random() * 1000) *)
  gen_signature : string;        (* sha256 of {claim_id, verifierId, Date.now()} *)
  gen_wallet_address : string;   (* ethers.Wallet.createRandom() *)
  gen_public_key : string;
  now : string;                  (* datetime('now') *)
  today : string;                (* new Date().toISOString().slice(0, 10) *)
  sql_date : string -> Z -> option string
                                 (* SQLite's date(text, '-n days'); None is NULL *)
}.

(** ** Responses *)

Inductive error :=
| NoToken
| InvalidToken
| MissingFields
| HoursRejected
| DuplicateClaim
| ClaimNotFound
| SelfVerification
| AlreadySealed
| DuplicateVerification
| GpsTooFar
| WorkerNotFound
| NoVerifiedClaims.

Definition http_status (e : error) : Z :=
  match e with
  | NoToken | InvalidToken => 401
  | MissingFields | HoursRejected => 400
  | DuplicateClaim => 409
  | ClaimNotFound => 404
  | SelfVerification | AlreadySealed => 400
  | DuplicateVerification => 409
  | GpsTooFar => 400
  | WorkerNotFound => 404
  | NoVerifiedClaims => 400
  end.

Definition error_message (e : error) : string :=
  match e with
  | NoToken => "No token"
  | InvalidToken => "Invalid token"
  | MissingFields => "Missing fields"
  | HoursRejected => "Hours > 16 automatically rejected"
  | DuplicateClaim => "Claim already submitted for this date"
  | ClaimNotFound => "Claim not found"
  | SelfVerification => "Cannot verify own claim"
  | AlreadySealed => "Claim already fully verified"
  | DuplicateVerification => "Already verified this claim"
  | GpsTooFar => "GPS distance too large — peer must be physically present"
  | WorkerNotFound => "Worker not found"
  | NoVerifiedClaims => "No verified claims on chain yet"
  end.

(** A flag of the scan report (label and detail are display text). *)
Record flag := {
  f_type : string;
  f_risk : string;
  f_score : Q;
  f_entity : string
}.

Record summary := {
  s_total : Z;
  s_high : Z;
  s_medium : Z;
  s_low : Z
}.

Inductive response :=
| Failure (e : error)
| WorkerRegistered (id : string)
| ClaimAccepted (id : string) (date : string) (hours : Q) (task : string)
                (status : string) (anomaly_score : Q)
| ClaimSealed (verification_id : string) (tx_hash ipfs_hash : string)
| VerificationCounted (verification_id : string) (verifications_so_far : Z)
| CreditReport (report_id : string) (score : Z) (tier : string)
               (max_loan_usd months_on_chain : Z)
| ScanReport (flags : list flag) (s : summary).

Definition is_failure (r : response) : bool :=
  match r with Failure _ => true | _ => false end.

(** ** JavaScript truthiness and comparison *)

(** [x > y] on numbers. *)
Definition Qgt_bool (x y : Q) : bool := negb (Qle_bool x y).

(** [!x] for an optional number: undefined and 0 are falsy. *)
Definition falsy_num (x : option Q) : bool :=
  match x with None => true | Some q => Qeq_bool q 0 end.

(** [!x] for an optional string: undefined and '' are falsy. *)
Definition falsy_str (x : option string) : bool :=
  match x with None => true | Some s => String.eqb s "" end.

(** [x || null] for an optional number. *)
Definition or_null (x : option Q) : option Q :=
  if falsy_num x then None else x.

(** [Math.round]: the nearest integer, halves upwards. *)
Definition js_round (x : Q) : Z := Qfloor (x + (1 # 2)).

(** ** Binary64

    The doubles of JavaScript and of SQLite, with the operations of IEEE 754
    rounded to the nearest, ties to even. *)

Definition double := spec_float.

Definition fadd : double -> double -> double := SFadd 53 1024.
Definition fmul : double -> double -> double := SFmul 53 1024.
Definition fdiv : double -> double -> double := SFdiv 53 1024.

(** [x < y] on doubles. *)
Definition flt : double -> double -> bool := SFltb.

(** The double of an integer (the nearest one beyond 2^53). *)
Definition of_Z (n : Z) : double := binary_normalize 53 1024 n 0 false.

(** [Some k] when [p] is [2^k]. *)
Fixpoint log2_exact (p : positive) : option Z :=
  match p with
  | xH => Some 0%Z
  | xO q => option_map Z.succ (log2_exact q)
  | xI _ => None
  end.

(** The double of a number: the double itself when the rational is the
    value of one, and the double nearest to a quotient of two integers that
    are doubles themselves, as the decimal literals of the source and of
    the requests below are (0.4 is 4/10). *)
Definition D (q : Q) : double :=
  match log2_exact (Qden q) with
  | Some k => binary_normalize 53 1024 (Qnum q) (- k) false
  | None => fdiv (of_Z (Qnum q)) (of_Z (Zpos (Qden q)))
  end.

(** The value of a finite double. *)
Definition value (x : double) : Q :=
  match x with
  | S754_finite s m e =>
      let n := if s then Zneg m else Zpos m in
      match e with
      | Zneg k => n # (2 ^ k)
      | _ => inject_Z (n * 2 ^ e)
      end
  | _ => 0
  end.

(** The value of a numeric literal of the source. *)
Definition js (q : Q) : Q := value (D q).

(** ** Queries *)

Definition count {A} (p : A -> bool) (l : list A) : Z :=
  Z.of_nat (List.length (filter p l)).

(** [ORDER BY k DESC]: a stable insertion sort; [lt x y] reads "the key of
    [x] is below the key of [y]". *)
Fixpoint insert_desc {A} (lt : A -> A -> bool) (c : A) (l : list A) : list A :=
  match l with
  | [] => [c]
  | x :: r => if lt x c then c :: l else x :: insert_desc lt c r
  end.

Definition order_desc {A} (lt : A -> A -> bool) (l : list A) : list A :=
  fold_right (insert_desc lt) [] l.

(** The dates are TEXT: SQLite orders them byte by byte. *)
Definition order_by_date_desc : list work_claim -> list work_claim :=
  order_desc (fun x y => String.ltb (wc_date x) (wc_date y)).

Definition order_by_risk_desc : list anomaly_flag -> list anomaly_flag :=
  order_desc (fun x y => Qgt_bool (af_risk_score y) (af_risk_score x)).

(** [date >= since], a comparison of texts; with NULL for [since] it holds
    of no row. *)
Definition dated_since (since : option string) (c : work_claim) : bool :=
  match since with
  | Some s => String.leb s (wc_date c)
  | None => false
  end.

(** [SELECT hours, date FROM work_claims WHERE worker_id = ? AND
    date >= date(?, '-7 days') ORDER BY date DESC LIMIT 10] *)
Definition recent_claims (e : env) (d : db) (workerId date : string)
    : list work_claim :=
  firstn 10 (order_by_date_desc
    (filter (fun c => String.eqb (wc_worker_id c) workerId
                      && dated_since (sql_date e date 7) c) (work_claims d))).

(** [SELECT COUNT( * ) FROM work_claims WHERE worker_id = ? AND hours = ? AND
    date >= date(?, '-14 days')] *)
Definition same_hours_count (e : env) (d : db) (workerId : string) (hours : Q)
    (date : string) : Z :=
  count (fun c => String.eqb (wc_worker_id c) workerId
                  && Qeq_bool (wc_hours c) hours
                  && dated_since (sql_date e date 14) c) (work_claims d).

(** [recent.reduce((a,b) => a + b.hours, 0)], in binary64. *)
Definition sum_recent (l : list work_claim) : double :=
  fold_left (fun a b => fadd a (D (wc_hours b))) l (of_Z 0).

(** [verifiedClaims.reduce((a, b) => a + b.hours, 0)] of the credit report,
    over the rationals. *)
Definition sum_hours (l : list work_claim) : Q :=
  fold_left (fun a b => a + wc_hours b) l 0.

Definition length_Q {A} (l : list A) : Q := inject_Z (Z.of_nat (List.length l)).

(** ** calcAnomalyScore

    The score, the sum of the recent hours, their mean and its product with
    1.8 are doubles.  [hours] and the hours of the rows are values of
    doubles, which [D] gives back (a number written as a decimal is rounded
    as JSON.parse rounds it); [hours > 14], [hours > 16] and the [hours = ?]
    of the second query compare these values. *)

Definition calcAnomalyScore (e : env) (d : db) (workerId : string) (hours : Q)
    (date : string) : Q :=
  let score := of_Z 0 in
  let score := if Qgt_bool hours 14 then fadd score (D 0.4) else score in
  let score := if Qgt_bool hours 16 then fadd score (D 0.35) else score in
  let recent := recent_claims e d workerId date in
  let avgHours := match recent with
                  | [] => D hours
                  | _ => fdiv (sum_recent recent) (of_Z (Z.of_nat (List.length recent)))
                  end in
  let score := if flt (fmul avgHours (D 1.8)) (D hours)
                  && (3 <=? List.length recent)%nat
               then fadd score (D 0.25) else score in
  let sameHours := same_hours_count e d workerId hours date in
  let score := if (5 <=? sameHours)%Z then fadd score (D 0.2) else score in
  value (if flt (D 1) score then D 1 else score).

(** ** calcCreditScore *)

Definition calcCreditScore (months : Z) (peers hrs : Q) : Z :=
  Z.min 850 (js_round (inject_Z months * 4.5 + Qmin peers 10 * 15
                       + Qmin hrs 40 * 2.5 + 300)).

(** ** verifyJWT *)

(** What the Authorization header amounts to: [Bearer w] is a token that
    [jwt.verify] accepts, with [workerId = w] in its payload. *)
Inductive authorization :=
| NoHeader
| BadToken
| Bearer (workerId : string).

Definition verifyJWT (auth : authorization)
    (next : string -> db -> db * response) (d : db) : db * response :=
  match auth with
  | NoHeader => (d, Failure NoToken)
  | BadToken => (d, Failure InvalidToken)
  | Bearer workerId => next workerId d
  end.

(** ** Row updates *)

Definition set_verification_depth (w : worker) (n : Z) : worker :=
  {| w_id := w_id w; w_name := w_name w; w_location := w_location w;
     w_sector := w_sector w; w_wallet_address := w_wallet_address w;
     w_public_key := w_public_key w; reputation_score := reputation_score w;
     verification_depth := n; total_days_worked := total_days_worked w |}.

Definition set_days_and_reputation (w : worker) (days : Z) (rep : Q) : worker :=
  {| w_id := w_id w; w_name := w_name w; w_location := w_location w;
     w_sector := w_sector w; w_wallet_address := w_wallet_address w;
     w_public_key := w_public_key w; reputation_score := rep;
     verification_depth := verification_depth w; total_days_worked := days |}.

Definition set_settlement (c : work_claim) (status tx ipfs : string) (block : Z)
    : work_claim :=
  {| wc_id := wc_id c; wc_worker_id := wc_worker_id c; wc_date := wc_date c;
     wc_hours := wc_hours c; wc_task := wc_task c;
     wc_location_lat := wc_location_lat c; wc_location_lng := wc_location_lng c;
     wc_status := status; wc_ipfs_hash := Some ipfs; wc_tx_hash := Some tx;
     wc_block_number := Some block; wc_anomaly_score := wc_anomaly_score c;
     wc_created_at := wc_created_at c |}.

(** [UPDATE t SET ... WHERE p]: every row that satisfies [p] is rewritten. *)
Definition update_where {A} (p : A -> bool) (f : A -> A) (l : list A) : list A :=
  map (fun x => if p x then f x else x) l.

Definition with_workers (d : db) (l : list worker) : db :=
  {| workers := l; work_claims := work_claims d; verifications := verifications d;
     anomaly_flags := anomaly_flags d; credit_reports := credit_reports d |}.

Definition with_work_claims (d : db) (l : list work_claim) : db :=
  {| workers := workers d; work_claims := l; verifications := verifications d;
     anomaly_flags := anomaly_flags d; credit_reports := credit_reports d |}.

Definition with_verifications (d : db) (l : list verification) : db :=
  {| workers := workers d; work_claims := work_claims d; verifications := l;
     anomaly_flags := anomaly_flags d; credit_reports := credit_reports d |}.

Definition with_anomaly_flags (d : db) (l : list anomaly_flag) : db :=
  {| workers := workers d; work_claims := work_claims d;
     verifications := verifications d; anomaly_flags := l;
     credit_reports := credit_reports d |}.

Definition with_credit_reports (d : db) (l : list credit_report) : db :=
  {| workers := workers d; work_claims := work_claims d;
     verifications := verifications d; anomaly_flags := anomaly_flags d;
     credit_reports := l |}.

(** ** POST /api/workers/register *)

Definition post_api_workers_register (e : env) (name location sector : option string)
    (d : db) : db * response :=
  match name, location, sector with
  | Some name, Some location, Some sector =>
    if String.eqb name "" || String.eqb location "" || String.eqb sector ""
    then (d, Failure MissingFields)
    else
      let id := gen_id e in
      (with_workers d (workers d ++
         [{| w_id := id; w_name := name; w_location := location;
             w_sector := sector; w_wallet_address := gen_wallet_address e;
             w_public_key := gen_public_key e; reputation_score := 50;
             verification_depth := 0; total_days_worked := 0 |}]),
       WorkerRegistered id)
  | _, _, _ => (d, Failure MissingFields)
  end.

(** ** POST /api/claims *)

Record claim_request := {
  r_hours : option Q;
  r_task : option string;
  r_location_lat : option Q;
  r_location_lng : option Q;
  r_date : option string
}.

(** [SELECT id FROM work_claims WHERE worker_id = ? AND date = ?] *)
Definition claim_on_date (workerId date : string) (c : work_claim) : bool :=
  String.eqb (wc_worker_id c) workerId && String.eqb (wc_date c) date.

Definition submit_claim (e : env) (req : claim_request) (workerId : string)
    (d : db) : db * response :=
  match r_hours req, r_task req with
  | Some hours, Some task =>
    if falsy_num (Some hours) || falsy_str (Some task)
    then (d, Failure MissingFields)
    else if Qgt_bool hours 16 then (d, Failure HoursRejected)
    else
      let claimDate := match r_date req with
                       | Some x => if String.eqb x "" then today e else x
                       | None => today e
                       end in
      match find (claim_on_date workerId claimDate) (work_claims d) with
      | Some _ => (d, Failure DuplicateClaim)
      | None =>
        let anomalyScore := calcAnomalyScore e d workerId hours claimDate in
        let id := gen_id e in
        let d1 := with_work_claims d (work_claims d ++
          [{| wc_id := id; wc_worker_id := workerId; wc_date := claimDate;
              wc_hours := hours; wc_task := task;
              wc_location_lat := or_null (r_location_lat req);
              wc_location_lng := or_null (r_location_lng req);
              wc_status := "pending"; wc_ipfs_hash := None; wc_tx_hash := None;
              wc_block_number := None; wc_anomaly_score := anomalyScore;
              wc_created_at := now e |}]) in
        let d2 := if Qgt_bool anomalyScore (js 0.65)
                  then with_anomaly_flags d1 (anomaly_flags d1 ++
                    [{| af_id := gen_flag_id e; af_flagged_entity := id;
                        af_entity_type := "claim";
                        af_anomaly_type := "suspicious_hours";
                        af_risk_score := anomalyScore; af_resolved := false |}])
                  else d1 in
        (d2, ClaimAccepted id claimDate hours task "pending" anomalyScore)
      end
  | _, _ => (d, Failure MissingFields)
  end.

Definition post_api_claims (e : env) (auth : authorization) (req : claim_request)
    : db -> db * response :=
  verifyJWT auth (submit_claim e req).

(** ** POST /api/verify *)

Record verify_request := {
  r_claim_id : string;
  r_gps_distance_m : option Q
}.

Definition find_claim (d : db) (claim_id : string) : option work_claim :=
  find (fun c => String.eqb (wc_id c) claim_id) (work_claims d).

Definition find_worker (d : db) (id : string) : option worker :=
  find (fun w => String.eqb (w_id w) id) (workers d).

(** [SELECT COUNT( * ) FROM verifications WHERE claim_id = ? AND is_valid = 1] *)
Definition valid_verifications (d : db) (claim_id : string) : Z :=
  count (fun v => String.eqb (v_claim_id v) claim_id && v_is_valid v)
        (verifications d).

(** [gps_distance_m && gps_distance_m > 500] *)
Definition gps_too_far (gps : option Q) : bool :=
  match gps with
  | Some g => negb (Qeq_bool g 0) && Qgt_bool g 500
  | None => false
  end.

Definition verify_claim (e : env) (req : verify_request) (verifierId : string)
    (d : db) : db * response :=
  let claim_id := r_claim_id req in
  match find_claim d claim_id with
  | None => (d, Failure ClaimNotFound)
  | Some claim =>
    if String.eqb (wc_worker_id claim) verifierId then (d, Failure SelfVerification)
    else if String.eqb (wc_status claim) "verified" then (d, Failure AlreadySealed)
    else
      match find (fun v => String.eqb (v_claim_id v) claim_id
                           && String.eqb (v_verifier_id v) verifierId)
                 (verifications d) with
      | Some _ => (d, Failure DuplicateVerification)
      | None =>
        if gps_too_far (r_gps_distance_m req) then (d, Failure GpsTooFar)
        else
          let id := gen_id e in
          let d1 := with_verifications d (verifications d ++
            [{| v_id := id; v_claim_id := claim_id; v_verifier_id := verifierId;
                v_signature := gen_signature e;
                v_gps_distance_m := or_null (r_gps_distance_m req);
                v_is_valid := true |}]) in
          let d2 := with_workers d1
            (update_where (fun w => String.eqb (w_id w) verifierId)
               (fun w => set_verification_depth w (verification_depth w + 1)%Z)
               (workers d1)) in
          let verifCount := valid_verifications d2 claim_id in
          if (3 <=? verifCount)%Z then
            let txHash := gen_tx_hash e in
            let ipfsHash := gen_ipfs_hash e in
            let d3 := with_work_claims d2
              (update_where (fun c => String.eqb (wc_id c) claim_id)
                 (fun c => set_settlement c "verified" txHash ipfsHash
                                          (gen_block_number e))
                 (work_claims d2)) in
            let d4 := with_workers d3
              (update_where (fun w => String.eqb (w_id w) (wc_worker_id claim))
                 (fun w => set_days_and_reputation w (total_days_worked w + 1)%Z
                             (Qmin 100 (reputation_score w + 0.5)))
                 (workers d3)) in
            (d4, ClaimSealed id txHash ipfsHash)
          else (d2, VerificationCounted id verifCount)
      end
  end.

Definition post_api_verify (e : env) (auth : authorization) (req : verify_request)
    : db -> db * response :=
  verifyJWT auth (verify_claim e req).

(** ** POST /api/finance/credit *)

Definition credit_report_for (e : env) (workerId : string) (d : db) : db * response :=
  match find_worker d workerId with
  | None => (d, Failure WorkerNotFound)
  | Some worker =>
    let verifiedClaims :=
      filter (fun c => String.eqb (wc_worker_id c) workerId
                       && String.eqb (wc_status c) "verified") (work_claims d) in
    match verifiedClaims with
    | [] => (d, Failure NoVerifiedClaims)
    | _ =>
      let months := Z.max 1 (js_round (inject_Z (total_days_worked worker) / 22)) in
      let avgHrs := sum_hours verifiedClaims / length_Q verifiedClaims in
      let weeklyHrs := avgHrs * 5 in
      let peerCounts :=
        map (fun c => count (fun v => String.eqb (v_claim_id v) (wc_id c))
                            (verifications d)) verifiedClaims in
      let avgPeers := inject_Z (fold_left Z.add peerCounts 0%Z) / length_Q peerCounts in
      let score := calcCreditScore months avgPeers weeklyHrs in
      let tier := if (720 <? score)%Z then "PRIME"
                  else if (580 <? score)%Z then "STANDARD" else "EMERGING" in
      let maxLoan := js_round (inject_Z score * inject_Z months * 2.8) in
      let reportId := gen_id e in
      (with_credit_reports d (credit_reports d ++
         [{| cr_id := reportId; cr_worker_id := workerId; cr_score := score;
             cr_tier := tier; cr_max_loan_usd := maxLoan;
             cr_months_on_chain := months; cr_avg_peers := avgPeers;
             cr_avg_weekly_hours := weeklyHrs |}]),
       CreditReport reportId score tier maxLoan months)
    end
  end.

Definition post_api_finance_credit (e : env) (auth : authorization)
    : db -> db * response :=
  verifyJWT auth (credit_report_for e).

(** ** POST /api/ai/scan *)

Definition pair_dec (x y : string * string) : {x = y} + {x <> y}.
Proof. decide equality; apply string_dec. Defined.

(** [strftime('%Y-%m-%dT%H:%M', created_at)] *)
Definition minute_of (created_at : string) : string :=
  substring 0 10 created_at ++ "T" ++ substring 11 5 created_at.

(** 1. [work_claims JOIN workers ON worker_id = id WHERE hours > 16], with
    [AND location LIKE '%region%'] when a region is given; [like loc region]
    stands for SQLite's verdict on that pattern.  The handler writes the
    region into the text of the statement: this is the query for a region
    that stays between the quotes ([plain_region]); a region with a quote
    in it makes another statement. *)
Definition impossible_hours (like : string -> string -> bool)
    (region : option string) (d : db) : list flag :=
  flat_map (fun wc =>
    map (fun _ => {| f_type := "impossible_hours"; f_risk := "high";
                     f_score := 0.92; f_entity := wc_id wc |})
        (filter (fun w => String.eqb (wc_worker_id wc) (w_id w)
                          && Qgt_bool (wc_hours wc) 16
                          && (if falsy_str region then true
                              else match region with
                                   | Some r => like (w_location w) r
                                   | None => true
                                   end))
                (workers d)))
    (work_claims d).

(** 2. [SELECT DISTINCT v.claim_id, wc.worker_id FROM verifications v JOIN
    work_claims wc ON v.claim_id = wc.id WHERE v.verifier_id = ?] *)
Definition verified_by (d : db) (verifier_id : string) : list (string * string) :=
  nodup pair_dec
    (flat_map (fun v =>
       map (fun wc => (v_claim_id v, wc_worker_id wc))
           (filter (fun wc => String.eqb (v_claim_id v) (wc_id wc)) (work_claims d)))
       (filter (fun v => String.eqb (v_verifier_id v) verifier_id)
               (verifications d))).

Definition cliques (d : db) : list flag :=
  flat_map (fun verifier_id =>
    let verifiedBy := verified_by d verifier_id in
    let uniqueWorkers := nodup string_dec (map snd verifiedBy) in
    if (List.length uniqueWorkers =? 1)%nat && (5 <=? List.length verifiedBy)%nat
    then [{| f_type := "clique"; f_risk := "high"; f_score := 0.87;
             f_entity := verifier_id |}]
    else [])
    (nodup string_dec (map v_verifier_id (verifications d))).

(** 3. [GROUP BY minute HAVING cnt >= 4] *)
Definition timestamp_clusters (d : db) : list flag :=
  let minutes := map (fun c => minute_of (wc_created_at c)) (work_claims d) in
  flat_map (fun minute =>
    if (4 <=? count (String.eqb minute) minutes)%Z
    then [{| f_type := "timestamp_cluster"; f_risk := "medium"; f_score := 0.71;
             f_entity := minute |}]
    else [])
    (nodup string_dec minutes).

(** 4. [SELECT * FROM anomaly_flags WHERE resolved = 0 ORDER BY risk_score
    DESC LIMIT 10] *)
Definition db_flags (d : db) : list flag :=
  map (fun f => {| f_type := af_anomaly_type f;
                   f_risk := if Qgt_bool (af_risk_score f) 0.7 then "high"
                             else "medium";
                   f_score := af_risk_score f;
                   f_entity := af_flagged_entity f |})
      (firstn 10 (order_by_risk_desc
                    (filter (fun f => negb (af_resolved f)) (anomaly_flags d)))).

Definition scan_flags (like : string -> string -> bool) (region : option string)
    (d : db) : list flag :=
  impossible_hours like region d ++ cliques d ++ timestamp_clusters d ++ db_flags d.

Definition summarize (flags : list flag) : summary :=
  let high := count (fun f => String.eqb (f_risk f) "high") flags in
  let medium := count (fun f => String.eqb (f_risk f) "medium") flags in
  let total := Z.of_nat (List.length flags) in
  {| s_total := total; s_high := high; s_medium := medium;
     s_low := (total - high - medium)%Z |}.

Definition post_api_ai_scan (like : string -> string -> bool)
    (region : option string) (d : db) : db * response :=
  let flags := scan_flags like region d in
  (d, ScanReport flags (summarize flags)).

(** ** The routes, and the ledgers they can produce *)

Inductive request :=
| PostWorkersRegister (name location sector : option string)
| PostClaims (auth : authorization) (req : claim_request)
| PostVerify (auth : authorization) (req : verify_request)
| PostFinanceCredit (auth : authorization)
| PostAiScan (like : string -> string -> bool) (region : option string).

Definition handle (e : env) (r : request) (d : db) : db * response :=
  match r with
  | PostWorkersRegister name location sector =>
      post_api_workers_register e name location sector d
  | PostClaims auth req => post_api_claims e auth req d
  | PostVerify auth req => post_api_verify e auth req d
  | PostFinanceCredit auth => post_api_finance_credit e auth d
  | PostAiScan like region => post_api_ai_scan like region d
  end.

(** [genId] draws 128 random bits and every table has [id] as its PRIMARY
    KEY: the identifier of a new row is one that no row of the ledger has. *)
Definition used_ids (d : db) : list string :=
  map w_id (workers d) ++ map wc_id (work_claims d) ++ map v_id (verifications d)
  ++ map af_id (anomaly_flags d) ++ map cr_id (credit_reports d).

Definition fresh (e : env) (d : db) : Prop := ~ In (gen_id e) (used_ids d).

Inductive reachable_from (d0 : db) : db -> Prop :=
| reach_start : reachable_from d0 d0
| reach_step e r d :
    reachable_from d0 d -> fresh e d -> reachable_from d0 (fst (handle e r d)).

Definition reachable : db -> Prop := reachable_from empty_db.

(** The verifications recorded for a claim. *)
Definition attestations (d : db) (claim_id : string) : list verification :=
  filter (fun v => String.eqb (v_claim_id v) claim_id) (verifications d).

(** ** The per-submission score in words

    [claimed_score] is the score as the specification words it: the windows
    are those of the calendar, over the dates that the texts name, and the
    sum, the mean and the product are those of the rationals.
    [amended_score] is the same score with the arithmetic of binary64.
    Neither uses a query of [calcAnomalyScore]. *)

(** The date of [c] lies in the [n] days that end at [date]. *)
Definition in_trailing (n : nat) (date : string) (c : work_claim) : bool :=
  match Calendar.named date, Calendar.named (wc_date c) with
  | Some t, Some u =>
      (Calendar.stamp (Calendar.minus_days n t) <=? Calendar.stamp u)%Z
      && (Calendar.stamp u <=? Calendar.stamp t)%Z
  | _, _ => false
  end.

(** The claims of a worker in the trailing [n] days of [date]. *)
Definition history (d : db) (workerId : string) (n : nat) (date : string)
    : list work_claim :=
  filter (fun c => String.eqb (wc_worker_id c) workerId && in_trailing n date c)
         (work_claims d).

(** [x] is dated after [y]. *)
Definition later (x y : work_claim) : bool :=
  match Calendar.named (wc_date x), Calendar.named (wc_date y) with
  | Some a, Some b => (Calendar.stamp b <? Calendar.stamp a)%Z
  | _, _ => false
  end.

Fixpoint newest (c : work_claim) (l : list work_claim) : work_claim :=
  match l with
  | [] => c
  | x :: r => newest (if later x c then x else c) r
  end.

(** The [k] latest claims of [l], the latest first: the newest one, then
    the latest of those dated before it. *)
Fixpoint latest (k : nat) (l : list work_claim) : list work_claim :=
  match k, l with
  | S k', x :: r => let m := newest x r in m :: latest k' (filter (later m) l)
  | _, _ => []
  end.

(** The mean of the hours, over the rationals. *)
Fixpoint total (l : list work_claim) : Q :=
  match l with
  | [] => 0
  | c :: r => wc_hours c + total r
  end.

Definition mean (l : list work_claim) : Q :=
  total l / inject_Z (Z.of_nat (List.length l)).

Definition term (holds : bool) (x : Q) : Q := if holds then x else 0.

Definition claimed_score (d : db) (workerId : string) (hours : Q) (date : string)
    : Q :=
  let recent := latest 10 (history d workerId 7 date) in
  let same := filter (fun c => Qeq_bool (wc_hours c) hours)
                     (history d workerId 14 date) in
  Qmin 1 (term (Qgt_bool hours 14) 0.40
          + term (Qgt_bool hours 16) 0.35
          + term ((3 <=? List.length recent)%nat
                  && Qgt_bool hours (1.8 * mean recent)) 0.25
          + term (5 <=? List.length same)%nat 0.20).

(** The mean of the hours in binary64: the hours are added one after the
    other, the latest first, and the sum is divided by their number. *)
Fixpoint total64 (sum : double) (l : list work_claim) : double :=
  match l with
  | [] => sum
  | c :: r => total64 (fadd sum (D (wc_hours c))) r
  end.

Definition mean64 (l : list work_claim) : double :=
  fdiv (total64 (of_Z 0) l) (of_Z (Z.of_nat (List.length l))).

Definition plus64 (holds : bool) (x : Q) (sum : double) : double :=
  if holds then fadd sum (D x) else sum.

Definition amended_score (d : db) (workerId : string) (hours : Q) (date : string)
    : Q :=
  let recent := latest 10 (history d workerId 7 date) in
  let same := filter (fun c => Qeq_bool (wc_hours c) hours)
                     (history d workerId 14 date) in
  let sum :=
    plus64 (5 <=? List.length same)%nat 0.20
      (plus64 ((3 <=? List.length recent)%nat
               && flt (fmul (mean64 recent) (D 1.8)) (D hours)) 0.25
         (plus64 (Qgt_bool hours 16) 0.35
            (plus64 (Qgt_bool hours 14) 0.40 (of_Z 0)))) in
  value (if flt (D 1) sum then D 1 else sum).

(** The place of a claim in the calendar, when its date has the form
    YYYY-MM-DD. *)
Definition day_of (c : work_claim) : Z :=
  match Calendar.iso (wc_date c) with
  | Some u => Calendar.stamp u
  | None => 0%Z
  end.

Definition dated (c : work_claim) : Prop := Calendar.iso (wc_date c) <> None.

(** The latest first, no two of the same day. *)
Definition descending : list work_claim -> Prop :=
  StronglySorted (fun a b => (day_of b < day_of a)%Z).

(** What the duplicate check of a submission compares. *)
Definition claim_key (c : work_claim) : string * string :=
  (wc_worker_id c, wc_date c).



(** SQLite reads [date] as a date and answers [date(date, '-n days')] with
    a text YYYY-MM-DD of the date [n] days before. *)
Definition sqlite_reads (e : env) (date : string) (n : nat) : bool :=
  match Calendar.iso date, sql_date e date (Z.of_nat n) with
  | Some t, Some since =>
      match Calendar.iso since with
      | Some u => (Calendar.stamp u =? Calendar.stamp (Calendar.minus_days n t))%Z
      | None => false
      end
  | _, _ => false
  end.

(** The claims of the worker are dated by texts YYYY-MM-DD, none of them
    after [date]. *)
Definition dated_up_to (d : db) (workerId date : string) : bool :=
  forallb (fun c => negb (String.eqb (wc_worker_id c) workerId)
                    || match Calendar.iso (wc_date c), Calendar.iso date with
                       | Some u, Some t => (Calendar.stamp u <=? Calendar.stamp t)%Z
                       | _, _ => false
                       end) (work_claims d).

(** The highest score of a submission that goes through: the double of
    0.4 + 0.25 + 0.2, which prints as 0.8500000000000001. *)
Definition top_score : Q :=
  value (fadd (fadd (fadd (of_Z 0) (D 0.4)) (D 0.25)) (D 0.2)).

(** The tests of [calcAnomalyScore] on the recent claims and on the
    repeated hours. *)
Definition deviates (e : env) (d : db) (workerId : string) (hours : Q)
    (date : string) : bool :=
  let recent := recent_claims e d workerId date in
  (3 <=? List.length recent)%nat
  && flt (fmul (fdiv (sum_recent recent) (of_Z (Z.of_nat (List.length recent))))
               (D 1.8)) (D hours).

Definition repeats (e : env) (d : db) (workerId : string) (hours : Q)
    (date : string) : bool :=
  (5 <=? same_hours_count e d workerId hours date)%Z.

(** ** Vocabulary of the statements *)

(** The date a submission is filed under: [date || today]. *)
Definition claim_date (e : env) (req : claim_request) : string :=
  match r_date req with
  | Some x => if String.eqb x "" then today e else x
  | None => today e
  end.

(** The claims of a worker whose text names the date [t]. *)
Definition claims_of_day (d : db) (workerId : string) (t : Calendar.date)
    : list work_claim :=
  filter (fun c => String.eqb (wc_worker_id c) workerId
                   && match Calendar.named (wc_date c) with
                      | Some u => (Calendar.stamp u =? Calendar.stamp t)%Z
                      | None => false
                      end) (work_claims d).

(** The body of a submission passes the two field checks of the handler. *)
Definition passes_field_checks (req : claim_request) : bool :=
  negb (falsy_num (r_hours req)) && negb (falsy_str (r_task req))
  && match r_hours req with Some h => negb (Qgt_bool h 16) | None => false end.

(** The claims a worker has on a date. *)
Definition claims_on (d : db) (workerId date : string) : list work_claim :=
  filter (claim_on_date workerId date) (work_claims d).

(** No settlement record is stamped on the claim. *)
Definition unsettled (c : work_claim) : Prop :=
  wc_tx_hash c = None /\ wc_ipfs_hash c = None /\ wc_block_number c = None.

(** What every ledger produced by the routes satisfies. *)
Record ledger_invariant (d : db) : Prop := {
  inv_valid : forall v, In v (verifications d) -> v_is_valid v = true;
  inv_refers : forall v, In v (verifications d) ->
                 In (v_claim_id v) (map wc_id (work_claims d));
  inv_sealed : forall c, In c (work_claims d) -> wc_status c = "verified" ->
                 List.length (attestations d (wc_id c)) = 3%nat;
  inv_open : forall c, In c (work_claims d) -> wc_status c <> "verified" ->
               wc_status c = "pending" /\ unsettled c
               /\ (List.length (attestations d (wc_id c)) < 3)%nat
}.

(** The three ways a request changes the claims and the verifications:
    not at all; one submitted claim; one recorded verification, with the claim
    sealed when that verification is the third. *)
Definition same_records (d d' : db) : Prop :=
  work_claims d' = work_claims d /\ verifications d' = verifications d.

Definition one_claim_more (e : env) (d d' : db) : Prop :=
  exists c,
    work_claims d' = (work_claims d ++ [c])%list
    /\ verifications d' = verifications d
    /\ wc_id c = gen_id e /\ wc_status c = "pending" /\ unsettled c
    /\ find (claim_on_date (wc_worker_id c) (wc_date c)) (work_claims d) = None.

Definition seal_row (e : env) (c : work_claim) : work_claim :=
  set_settlement c "verified" (gen_tx_hash e) (gen_ipfs_hash e) (gen_block_number e).

Definition one_verification_more (e : env) (d d' : db) : Prop :=
  exists claim v,
    find_claim d (v_claim_id v) = Some claim
    /\ wc_status claim <> "verified"
    /\ v_is_valid v = true
    /\ verifications d' = (verifications d ++ [v])%list
    /\ ((valid_verifications d' (v_claim_id v) < 3)%Z
        /\ work_claims d' = work_claims d
        \/ (3 <= valid_verifications d' (v_claim_id v))%Z
           /\ work_claims d' =
              update_where (fun c => String.eqb (wc_id c) (v_claim_id v))
                           (seal_row e) (work_claims d)).

(** How a request leaves the reputation of a worker [w'] of the new ledger:
    the initial 50 of a new worker, the reputation the worker had, or that
    reputation raised by the seal of a claim. *)
Definition reputation_kept_or_raised (d : db) (w' : worker) : Prop :=
  reputation_score w' = 50
  \/ exists w, In w (workers d)
       /\ (reputation_score w' = reputation_score w
           \/ reputation_score w' = Qmin 100 (reputation_score w + 0.5)).

(** The score of a flag is above the 0.7 that makes a stored flag 'high'. *)
Definition above_threshold (f : flag) : bool := Qgt_bool (f_score f) 0.7.

Definition labelled (risk : string) (f : flag) : bool := String.eqb (f_risk f) risk.

(** The label of a flag is the one its score commands. *)
Definition label_follows_score (f : flag) : Prop :=
  labelled "high" f = above_threshold f
  /\ labelled "medium" f = negb (above_threshold f).

End Backend.

(** * The contract: [contracts/ProofOfWork.sol]

    Addresses, [bytes32] values and [uint256] values are integers; a
    [mapping] is a total function (every key holds the zero value until it is
    written).  Arithmetic is Solidity 0.8 checked arithmetic: an overflow
    aborts the call.  A call that aborts leaves the storage as it was, which
    is what [Revert] and [Panic] carry no state for.  Events are not modelled. *)

Module Contract.

Local Open Scope string_scope.
Local Open Scope Z_scope.

Definition address := Z.
Definition bytes32 := Z.

Inductive ClaimStatus := Pending | PartiallyVerified | Verified | Rejected.

Record Worker := {
  wallet : address;
  name : string;
  location : string;
  sector : string;
  reputationScore : Z;           (* scaled by 100 *)
  verifiedDays : Z;
  registeredAt : Z;
  isActive : bool
}.

Record WorkClaim := {
  id : bytes32;
  worker : address;
  date : Z;
  hours : Z;                     (* hours x 10 *)
  taskHash : string;
  verifiers : list address;
  status : ClaimStatus;
  ipfsRecord : bytes32;
  sealedAt : Z
}.

Definition REQUIRED_VERIFIERS : Z := 3.
Definition MAX_DAILY_HOURS : Z := 160.
Definition REP_GAIN_VERIFY : Z := 50.
Definition REP_LOSS_FALSE : Z := 500.
Definition BASE_REP : Z := 5000.

Definition MAX_UINT256 : Z := 2 ^ 256 - 1.

Record storage := {
  workers : address -> Worker;
  claims : bytes32 -> WorkClaim;
  workerClaims : address -> list bytes32;
  registeredWorkers : address -> bool;
  hasVerified : bytes32 -> address -> bool;
  totalVerifiedClaims : Z
}.

Inductive result (A : Type) :=
| Ok (a : A)
| Revert (reason : string)
| Panic.
Arguments Ok {A} a.
Arguments Revert {A} reason.
Arguments Panic {A}.

Definition upd {V} (m : Z -> V) (k : Z) (v : V) : Z -> V :=
  fun x => if x =? k then v else m x.

Definition status_eqb (a b : ClaimStatus) : bool :=
  match a, b with
  | Pending, Pending | PartiallyVerified, PartiallyVerified
  | Verified, Verified | Rejected, Rejected => true
  | _, _ => false
  end.

(** Checked [a + b] on [uint256]. *)
Definition checked_add (a b : Z) : option Z :=
  if a + b <=? MAX_UINT256 then Some (a + b) else None.

Definition set_reputation (w : Worker) (r : Z) : Worker :=
  {| wallet := wallet w; name := name w; location := location w;
     sector := sector w; reputationScore := r; verifiedDays := verifiedDays w;
     registeredAt := registeredAt w; isActive := isActive w |}.

Definition set_verifiedDays (w : Worker) (n : Z) : Worker :=
  {| wallet := wallet w; name := name w; location := location w;
     sector := sector w; reputationScore := reputationScore w; verifiedDays := n;
     registeredAt := registeredAt w; isActive := isActive w |}.

Definition set_verifiers (c : WorkClaim) (l : list address) : WorkClaim :=
  {| id := id c; worker := worker c; date := date c; hours := hours c;
     taskHash := taskHash c; verifiers := l; status := status c;
     ipfsRecord := ipfsRecord c; sealedAt := sealedAt c |}.

Definition set_status (c : WorkClaim) (s : ClaimStatus) : WorkClaim :=
  {| id := id c; worker := worker c; date := date c; hours := hours c;
     taskHash := taskHash c; verifiers := verifiers c; status := s;
     ipfsRecord := ipfsRecord c; sealedAt := sealedAt c |}.

Definition set_seal (c : WorkClaim) (record : bytes32) (at_ : Z) : WorkClaim :=
  {| id := id c; worker := worker c; date := date c; hours := hours c;
     taskHash := taskHash c; verifiers := verifiers c; status := Verified;
     ipfsRecord := record; sealedAt := at_ |}.

Definition with_workers (s : storage) (m : address -> Worker) : storage :=
  {| workers := m; claims := claims s; workerClaims := workerClaims s;
     registeredWorkers := registeredWorkers s; hasVerified := hasVerified s;
     totalVerifiedClaims := totalVerifiedClaims s |}.

Definition with_claims (s : storage) (m : bytes32 -> WorkClaim) : storage :=
  {| workers := workers s; claims := m; workerClaims := workerClaims s;
     registeredWorkers := registeredWorkers s; hasVerified := hasVerified s;
     totalVerifiedClaims := totalVerifiedClaims s |}.

Definition with_hasVerified (s : storage) (m : bytes32 -> address -> bool) : storage :=
  {| workers := workers s; claims := claims s; workerClaims := workerClaims s;
     registeredWorkers := registeredWorkers s; hasVerified := m;
     totalVerifiedClaims := totalVerifiedClaims s |}.

Definition with_workerClaims (s : storage) (m : address -> list bytes32) : storage :=
  {| workers := workers s; claims := claims s; workerClaims := m;
     registeredWorkers := registeredWorkers s; hasVerified := hasVerified s;
     totalVerifiedClaims := totalVerifiedClaims s |}.

Definition with_totalVerifiedClaims (s : storage) (n : Z) : storage :=
  {| workers := workers s; claims := claims s; workerClaims := workerClaims s;
     registeredWorkers := registeredWorkers s; hasVerified := hasVerified s;
     totalVerifiedClaims := n |}.

Section WithHash.

(** [keccak256(abi.encodePacked(...))] of the listed values. *)
Variable keccak256 : list Z -> bytes32.

Definition submitClaim (msg_sender : address) (block_timestamp : Z)
    (date_ hoursX10 : Z) (taskHash_ : string) (s : storage)
    : result (storage * bytes32) :=
  if negb (registeredWorkers s msg_sender) then Revert "Worker not registered" else
  if negb ((0 <? hoursX10) && (hoursX10 <=? MAX_DAILY_HOURS))
  then Revert "Invalid hours" else
  if negb (0 <? Z.of_nat (String.length taskHash_)) then Revert "Task hash required" else
  let claimId := keccak256 [msg_sender; date_; block_timestamp] in
  let claim := claims s claimId in
  let claim :=
    {| id := claimId; worker := msg_sender; date := date_; hours := hoursX10;
       taskHash := taskHash_; verifiers := verifiers claim; status := Pending;
       ipfsRecord := ipfsRecord claim; sealedAt := sealedAt claim |} in
  let s := with_claims s (upd (claims s) claimId claim) in
  let s := with_workerClaims s
             (upd (workerClaims s) msg_sender (workerClaims s msg_sender ++ [claimId])%list) in
  Ok (s, claimId).

Definition _sealClaim (block_timestamp block_number : Z) (claimId : bytes32)
    (s : storage) : result storage :=
  let claim := claims s claimId in
  let claim := set_seal claim (keccak256 [claimId; block_timestamp; block_number])
                        block_timestamp in
  let s := with_claims s (upd (claims s) claimId claim) in
  let w := workers s (worker claim) in
  match checked_add (verifiedDays w) 1 with
  | None => Panic
  | Some days =>
    let s := with_workers s (upd (workers s) (worker claim) (set_verifiedDays w days)) in
    match checked_add (totalVerifiedClaims s) 1 with
    | None => Panic
    | Some total => Ok (with_totalVerifiedClaims s total)
    end
  end.

Definition verifyClaim (msg_sender : address) (block_timestamp block_number : Z)
    (claimId : bytes32) (s : storage) : result storage :=
  if negb (registeredWorkers s msg_sender) then Revert "Worker not registered" else
  let claim := claims s claimId in
  if worker claim =? 0 then Revert "Claim not found" else
  if worker claim =? msg_sender then Revert "Cannot verify own claim" else
  if hasVerified s claimId msg_sender then Revert "Already verified" else
  if status_eqb (status claim) Verified then Revert "Already sealed" else
  if status_eqb (status claim) Rejected then Revert "Claim rejected" else
  if reputationScore (workers s msg_sender) <? 1000
  then Revert "Reputation too low to verify" else
  let s := with_hasVerified s
             (upd (hasVerified s) claimId (upd (hasVerified s claimId) msg_sender true)) in
  let claim := set_verifiers claim (verifiers claim ++ [msg_sender]) in
  let s := with_claims s (upd (claims s) claimId claim) in
  match checked_add (reputationScore (workers s msg_sender)) REP_GAIN_VERIFY with
  | None => Panic
  | Some rep =>
    let s := with_workers s
               (upd (workers s) msg_sender (set_reputation (workers s msg_sender) rep)) in
    let count := Z.of_nat (List.length (verifiers claim)) in
    if REQUIRED_VERIFIERS <=? count
    then _sealClaim block_timestamp block_number claimId s
    else Ok (with_claims s (upd (claims s) claimId (set_status claim PartiallyVerified)))
  end.

End WithHash.

End Contract.

(** * The rest of the contract: registration, certificates, slashing

    The state of the deployed contract is the storage of [Contract] with the
    certificates, the owner and the two counters that it leaves out.  A
    transaction runs one external function for a sender at a block; when the
    function aborts, the state is the one before the transaction. *)

Module Chain.

Import Contract.
Local Open Scope string_scope.
Local Open Scope Z_scope.

Record SupplyChainCert := {
  cert_id : bytes32;
  brand : string;
  productHash : string;
  verifiedWorkers : list address;
  issuedAt : Z;
  isValid : bool
}.

Record state := {
  store : storage;
  certs : bytes32 -> SupplyChainCert;
  owner : address;
  totalWorkers : Z;
  totalCerts : Z
}.

(** The zero values that the mappings hold before they are written. *)
Definition no_worker : Worker :=
  {| wallet := 0; name := ""; location := ""; sector := ""; reputationScore := 0;
     verifiedDays := 0; registeredAt := 0; isActive := false |}.

Definition no_claim : WorkClaim :=
  {| id := 0; worker := 0; date := 0; hours := 0; taskHash := ""; verifiers := [];
     status := Pending; ipfsRecord := 0; sealedAt := 0 |}.

Definition no_cert : SupplyChainCert :=
  {| cert_id := 0; brand := ""; productHash := ""; verifiedWorkers := [];
     issuedAt := 0; isValid := false |}.

(** [constructor()]: the deployer becomes the owner. *)
Definition deploy (msg_sender : address) : state :=
  {| store := {| workers := fun _ => no_worker; claims := fun _ => no_claim;
                 workerClaims := fun _ => []; registeredWorkers := fun _ => false;
                 hasVerified := fun _ _ => false; totalVerifiedClaims := 0 |};
     certs := fun _ => no_cert; owner := msg_sender;
     totalWorkers := 0; totalCerts := 0 |}.

Definition with_store (c : state) (s : storage) : state :=
  {| store := s; certs := certs c; owner := owner c;
     totalWorkers := totalWorkers c; totalCerts := totalCerts c |}.

Definition with_totalWorkers (c : state) (n : Z) : state :=
  {| store := store c; certs := certs c; owner := owner c;
     totalWorkers := n; totalCerts := totalCerts c |}.

Definition with_cert (c : state) (certId : bytes32) (x : SupplyChainCert) (n : Z)
    : state :=
  {| store := store c; certs := upd (certs c) certId x; owner := owner c;
     totalWorkers := totalWorkers c; totalCerts := n |}.

Definition with_registeredWorkers (s : storage) (m : address -> bool) : storage :=
  {| workers := workers s; claims := claims s; workerClaims := workerClaims s;
     registeredWorkers := m; hasVerified := hasVerified s;
     totalVerifiedClaims := totalVerifiedClaims s |}.

(** Checked [a * b] on [uint256]. *)
Definition checked_mul (a b : Z) : option Z :=
  if a * b <=? MAX_UINT256 then Some (a * b) else None.

Definition registerWorker (msg_sender : address) (block_timestamp : Z)
    (name_ location_ sector_ : string) (c : state) : result state :=
  let s := store c in
  if registeredWorkers s msg_sender then Revert "Already registered" else
  if negb (0 <? Z.of_nat (String.length name_)) then Revert "Name required" else
  let s := with_workers s
             (upd (workers s) msg_sender
                {| wallet := msg_sender; name := name_; location := location_;
                   sector := sector_; reputationScore := BASE_REP; verifiedDays := 0;
                   registeredAt := block_timestamp; isActive := true |}) in
  let s := with_registeredWorkers s (upd (registeredWorkers s) msg_sender true) in
  match checked_add (totalWorkers c) 1 with
  | None => Panic
  | Some n => Ok (with_totalWorkers (with_store c s) n)
  end.

(** [onlyOwner]; the penalty is [oldRep > REP_LOSS_FALSE ? oldRep -
    REP_LOSS_FALSE : 0]. *)
Definition slashVerifier (msg_sender : address) (verifier : address)
    (claimId : bytes32) (c : state) : result state :=
  let s := store c in
  if negb (msg_sender =? owner c) then Revert "Not owner" else
  if negb (hasVerified s claimId verifier) then Revert "Did not verify this claim" else
  let oldRep := reputationScore (workers s verifier) in
  let newRep := if REP_LOSS_FALSE <? oldRep then oldRep - REP_LOSS_FALSE else 0 in
  Ok (with_store c
        (with_workers s (upd (workers s) verifier
                             (set_reputation (workers s verifier) newRep)))).

(** The wallets of a request that count: registered, with a verified day. *)
Definition eligible (s : storage) (workerWallets : list address) : list address :=
  filter (fun w => registeredWorkers s w && (0 <? verifiedDays (workers s w)))
         workerWallets.

(** [getCreditProxy], a view: verified days, reputation, and the months
    (of 30 days) since registration. *)
Definition getCreditProxy (block_timestamp : Z) (wallet_ : address) (c : state)
    : result (Z * Z * Z) :=
  let w := workers (store c) wallet_ in
  if 0 <? registeredAt w then
    if block_timestamp <? registeredAt w then Panic
    else Ok (verifiedDays w, reputationScore w,
             (block_timestamp - registeredAt w) / (30 * 86400))
  else Ok (verifiedDays w, reputationScore w, 0).

Definition lift (r : result storage) (c : state) : result state :=
  match r with
  | Ok s => Ok (with_store c s)
  | Revert reason => Revert reason
  | Panic => Panic
  end.

Inductive call :=
| RegisterWorker (name_ location_ sector_ : string)
| SubmitClaim (date_ hoursX10 : Z) (taskHash_ : string)
| VerifyClaim (claimId : bytes32)
| IssueCert (brand_ productHash_ : string) (workerWallets : list address)
| SlashVerifier (verifier : address) (claimId : bytes32).

Record transaction := {
  tx_sender : address;           (* msg.sender *)
  tx_timestamp : Z;              (* block.timestamp *)
  tx_number : Z;                 (* block.number *)
  tx_call : call
}.

Section WithHashes.

(** [keccak256(abi.encodePacked(...))] of integers, and of the four values
    that name a certificate. *)
Variable keccak256 : list Z -> bytes32.
Variable keccak256_cert : string -> string -> Z -> address -> bytes32.

(** The loop counts the eligible wallets; its counters stay below the length
    of the array. *)
Definition issueCert (msg_sender : address) (block_timestamp : Z)
    (brand_ productHash_ : string) (workerWallets : list address) (c : state)
    : result (state * bytes32) :=
  let length_ := Z.of_nat (List.length workerWallets) in
  if negb (0 <? length_) then Revert "No workers" else
  let eligibleCount := Z.of_nat (List.length (eligible (store c) workerWallets)) in
  match checked_mul eligibleCount 100 with
  | None => Panic
  | Some scaled =>
    if negb (70 <=? scaled / length_) then Revert "< 70% workers verified" else
    let certId := keccak256_cert brand_ productHash_ block_timestamp msg_sender in
    match checked_add (totalCerts c) 1 with
    | None => Panic
    | Some n =>
      Ok (with_cert c certId
            {| cert_id := certId; brand := brand_; productHash := productHash_;
               verifiedWorkers := workerWallets; issuedAt := block_timestamp;
               isValid := true |} n,
          certId)
    end
  end.

Definition run (t : transaction) (c : state) : result state :=
  match tx_call t with
  | RegisterWorker n l s => registerWorker (tx_sender t) (tx_timestamp t) n l s c
  | SubmitClaim d h th =>
      match submitClaim keccak256 (tx_sender t) (tx_timestamp t) d h th (store c) with
      | Ok (s, _) => Ok (with_store c s)
      | Revert reason => Revert reason
      | Panic => Panic
      end
  | VerifyClaim claimId =>
      lift (verifyClaim keccak256 (tx_sender t) (tx_timestamp t) (tx_number t)
              claimId (store c)) c
  | IssueCert b ph ws =>
      match issueCert (tx_sender t) (tx_timestamp t) b ph ws c with
      | Ok (c', _) => Ok c'
      | Revert reason => Revert reason
      | Panic => Panic
      end
  | SlashVerifier verifier claimId => slashVerifier (tx_sender t) verifier claimId c
  end.

(** The state after a transaction. *)
Definition after (t : transaction) (c : state) : state :=
  match run t c with
  | Ok c' => c'
  | _ => c
  end.

(** No key signs for the zero address, and a block has a positive time. *)
Definition signed (t : transaction) : Prop :=
  tx_sender t <> 0 /\ 0 < tx_timestamp t.

Inductive reachable_from (c0 : state) : state -> Prop :=
| reach_start : reachable_from c0 c0
| reach_step t c : reachable_from c0 c -> signed t -> reachable_from c0 (after t c).

Definition reachable (c : state) : Prop :=
  exists deployer, reachable_from (deploy deployer) c.

End WithHashes.

(** What the states of the deployed contract satisfy. *)
Record invariant (c : state) : Prop := {
  inv_marked : forall claimId a,
      hasVerified (store c) claimId a = true
      <-> In a (verifiers (claims (store c) claimId));
  inv_distinct : forall claimId, NoDup (verifiers (claims (store c) claimId));
  inv_registered : forall claimId a,
      In a (verifiers (claims (store c) claimId)) ->
      registeredWorkers (store c) a = true;
  inv_sealed : forall claimId,
      status (claims (store c) claimId) = Verified ->
      (3 <= List.length (verifiers (claims (store c) claimId)))%nat;
  inv_partial : forall claimId,
      status (claims (store c) claimId) = PartiallyVerified ->
      (1 <= List.length (verifiers (claims (store c) claimId)) <= 2)%nat;
  inv_never_rejected : forall claimId,
      status (claims (store c) claimId) <> Rejected;
  inv_reputation : forall a, 0 <= reputationScore (workers (store c) a);
  inv_stranger : forall a,
      registeredWorkers (store c) a = false -> workers (store c) a = no_worker;
  inv_owner_of_claim : forall claimId,
      worker (claims (store c) claimId) <> 0 ->
      registeredWorkers (store c) (worker (claims (store c) claimId)) = true
}.

(** Two records of a worker that differ in reputation and verified days at
    most. *)
Definition same_profile (w w' : Worker) : Prop :=
  wallet w' = wallet w /\ name w' = name w /\ location w' = location w
  /\ sector w' = sector w /\ registeredAt w' = registeredAt w
  /\ isActive w' = isActive w.

(** The ways one transaction moves the reputation of a worker: not at all,
    up by 0.50 for a verification (which asks for 10.00), down by the
    penalty. *)
Definition reputation_move (before after_ : Z) : Prop :=
  after_ = before
  \/ (1000 <= before /\ after_ = before + 50)
  \/ after_ = Z.max 0 (before - 500).

(** The state after [n] times the same transaction. *)
Definition repeated (step : state -> state) (n : nat) (c : state) : state :=
  Nat.iter n step c.

End Chain.

(** * The other routes of the backend

    The routes that [Backend] leaves out: the details of a claim, the list of
    the workers page by page, the supply-chain certificates and the
    statistics.  The certificates are a table of their own, beside the
    ledger.  [GET /api/workers/:id] joins three tables under a LIMIT with no
    ORDER BY, which SQLite answers in an order of its choice, and is left
    out, as are the list of the certificates (ordered by the text of a
    timestamp) and the QR image. *)

Module Routes.

Import Backend.
Local Open Scope string_scope.
Local Open Scope Q_scope.

(** [JSON.stringify({ cert_id, brand, product, workers, cert_hash, ipfs })] *)
Record qr_payload := {
  qr_cert_id : string;
  qr_brand : string;
  qr_product : string;
  qr_workers : Z;
  qr_cert_hash : string;
  qr_ipfs : string
}.

Record supply_chain_cert := {
  sc_id : string;
  sc_brand : string;
  sc_product : string;
  sc_batch_weight_kg : option Q;
  sc_worker_count : Z;
  sc_worker_ids : list string;   (* JSON.stringify(eligible) *)
  sc_cert_hash : string;         (* TEXT UNIQUE *)
  sc_qr_data : qr_payload;
  sc_ipfs_hash : string;
  sc_issued_at : string;         (* DEFAULT (datetime('now')) *)
  sc_status : string             (* DEFAULT 'certified' *)
}.

Record books := {
  ledger : db;
  supply_chain_certs : list supply_chain_cert
}.

Definition open_books : books :=
  {| ledger := empty_db; supply_chain_certs := [] |}.

Definition with_ledger (b : books) (d : db) : books :=
  {| ledger := d; supply_chain_certs := supply_chain_certs b |}.

Definition with_supply_chain_certs (b : books) (l : list supply_chain_cert) : books :=
  {| ledger := ledger b; supply_chain_certs := l |}.

(** The row of a worker in the list: [SELECT id, name, location, sector,
    reputation_score, total_days_worked, created_at FROM workers] (the
    worker record holds no [created_at]). *)
Record worker_row := {
  wr_id : string;
  wr_name : string;
  wr_location : string;
  wr_sector : string;
  wr_reputation_score : Q;
  wr_total_days_worked : Z
}.

Record stats := {
  totalWorkers : Z;
  totalClaims : Z;
  verifiedClaims : Z;
  totalVerifs : Z;
  totalCerts : Z;
  openFlags : Z;
  blockNumber : Z
}.

Inductive answer :=
| Reply (r : response)
| Refused (status : Z) (error : string)
| NotFound                                     (* 404 'Not found' *)
| ClaimDetails (claim : work_claim) (verifications : list (verification * string))
| WorkerPage (workers : list worker_row) (total page pages : Z)
| Certified (cert_id cert_hash ipfs_hash : string) (worker_count : Z)
            (payload : qr_payload)
| CertificateValid (cert : supply_chain_cert)  (* valid: true *)
| CertificateNotFound                          (* 404, valid: false *)
| Statistics (s : stats).

(** ** GET /api/claims/:id *)

(** [SELECT v.*, w.name as verifier_name FROM verifications v JOIN workers w
    ON v.verifier_id = w.id WHERE v.claim_id = ?]; the rows are listed
    verification by verification, and no statement depends on their order. *)
Definition claim_verifications (d : db) (claim_id : string)
    : list (verification * string) :=
  flat_map (fun v =>
    map (fun w => (v, w_name w))
        (filter (fun w => String.eqb (v_verifier_id v) (w_id w)) (workers d)))
    (filter (fun v => String.eqb (v_claim_id v) claim_id) (verifications d)).

Definition get_api_claims_id (id : string) (b : books) : answer :=
  match find_claim (ledger b) id with
  | None => NotFound
  | Some claim => ClaimDetails claim (claim_verifications (ledger b) (wc_id claim))
  end.

(** ** GET /api/workers *)

(** [+req.query.x || dflt], for a parameter that, when it is given and reads
    as a number, reads as an integer: a missing parameter, one that is not a
    number, and 0 are falsy.  (SQLite refuses a LIMIT or OFFSET with a
    fraction; such parameters are outside the model.) *)
Definition truthy_or (x : option Z) (dflt : Z) : Z :=
  match x with
  | Some n => if (n =? 0)%Z then dflt else n
  | None => dflt
  end.

(** [LIMIT ? OFFSET ?] of SQLite: a negative OFFSET is no offset, a negative
    LIMIT no limit. *)
Definition sql_limit_offset {A} (limit offset : Z) (l : list A) : list A :=
  let rest := skipn (Z.to_nat offset) l in
  if (limit <? 0)%Z then rest else firstn (Z.to_nat limit) rest.

Definition row_of (w : worker) : worker_row :=
  {| wr_id := w_id w; wr_name := w_name w; wr_location := w_location w;
     wr_sector := w_sector w; wr_reputation_score := reputation_score w;
     wr_total_days_worked := total_days_worked w |}.

Definition get_api_workers (page_ limit_ : option Z) (b : books) : answer :=
  let page := truthy_or page_ 1 in
  let limit := truthy_or limit_ 20 in
  let offset := ((page - 1) * limit)%Z in
  let workers := sql_limit_offset limit offset (map row_of (workers (ledger b))) in
  let total := Z.of_nat (List.length (Backend.workers (ledger b))) in
  WorkerPage workers total page (Qceiling (inject_Z total / inject_Z limit)).

(** The rows of a page. *)
Definition page_rows (page limit : Z) (b : books) : list worker_row :=
  match get_api_workers (Some page) (Some limit) b with
  | WorkerPage rows _ _ _ => rows
  | _ => []
  end.

(** ** POST /api/supplychain/certify *)

Record certify_request := {
  r_brand : option string;
  r_product : option string;
  r_batch_weight_kg : option Q;
  r_worker_ids : option (list string)
}.

(** [worker_ids.filter(wid => { w = SELECT total_days_worked FROM workers
    WHERE id = ?; return w && w.total_days_worked >= 1 })] *)
Definition eligible (d : db) (worker_ids : list string) : list string :=
  filter (fun wid => match find_worker d wid with
                     | Some w => (1 <=? total_days_worked w)%Z
                     | None => false
                     end) worker_ids.

(** [certHash] is the SHA-256 of the request and [Date.now()].  The test
    [eligible.length < worker_ids.length * 0.7] is read over the rationals,
    as the other arithmetic of the handlers. *)
Definition post_api_supplychain_certify (e : env) (certHash : string)
    (req : certify_request) (b : books) : books * answer :=
  match r_brand req, r_product req, r_worker_ids req with
  | Some brand, Some product, Some worker_ids =>
    if String.eqb brand "" || String.eqb product ""
       || (List.length worker_ids =? 0)%nat
    then (b, Refused 400 "Missing fields")
    else
      let eligible := eligible (ledger b) worker_ids in
      if Qgt_bool (length_Q worker_ids * 0.7) (length_Q eligible)
      then (b, Refused 400 "Insufficient verified labor for certification")
      else
        let id := gen_id e in
        let ipfsHash := gen_ipfs_hash e in
        let worker_count := Z.of_nat (List.length eligible) in
        let qrPayload :=
          {| qr_cert_id := id; qr_brand := brand; qr_product := product;
             qr_workers := worker_count; qr_cert_hash := certHash;
             qr_ipfs := ipfsHash |} in
        (with_supply_chain_certs b (supply_chain_certs b ++
           [{| sc_id := id; sc_brand := brand; sc_product := product;
               sc_batch_weight_kg := or_null (r_batch_weight_kg req);
               sc_worker_count := worker_count; sc_worker_ids := eligible;
               sc_cert_hash := certHash; sc_qr_data := qrPayload;
               sc_ipfs_hash := ipfsHash; sc_issued_at := now e;
               sc_status := "certified" |}]),
         Certified id certHash ipfsHash worker_count qrPayload)
  | _, _, _ => (b, Refused 400 "Missing fields")
  end.

(** ** GET /api/supplychain/verify/:certHash *)

Definition find_cert (b : books) (certHash : string) : option supply_chain_cert :=
  find (fun c => String.eqb (sc_cert_hash c) certHash) (supply_chain_certs b).

Definition get_api_supplychain_verify (certHash : string) (b : books) : answer :=
  match find_cert b certHash with
  | None => CertificateNotFound
  | Some cert => CertificateValid cert
  end.

(** ** GET /api/stats *)

Definition get_api_stats (b : books) : stats :=
  let d := ledger b in
  let totalVerifs := Z.of_nat (List.length (verifications d)) in
  {| totalWorkers := Z.of_nat (List.length (workers d));
     totalClaims := Z.of_nat (List.length (work_claims d));
     verifiedClaims :=
       count (fun c => String.eqb (wc_status c) "verified") (work_claims d);
     totalVerifs := totalVerifs;
     totalCerts := Z.of_nat (List.length (supply_chain_certs b));
     openFlags := count (fun f => negb (af_resolved f)) (anomaly_flags d);
     blockNumber := (48291 + totalVerifs)%Z |}.

(** ** The books the routes can produce *)

Inductive request :=
| OnLedger (r : Backend.request)
| PostSupplychainCertify (certHash : string) (req : certify_request).

Definition handle (e : env) (r : request) (b : books) : books * answer :=
  match r with
  | OnLedger r =>
      (with_ledger b (fst (Backend.handle e r (ledger b))),
       Reply (snd (Backend.handle e r (ledger b))))
  | PostSupplychainCertify certHash req =>
      post_api_supplychain_certify e certHash req b
  end.

(** The identifier drawn for a new row is a new one, and so is the hash of
    a new certificate ([id] PRIMARY KEY, [cert_hash] UNIQUE). *)
Definition fresh (e : env) (r : request) (b : books) : Prop :=
  match r with
  | OnLedger _ => Backend.fresh e (ledger b)
  | PostSupplychainCertify certHash _ =>
      ~ In (gen_id e) (map sc_id (supply_chain_certs b))
      /\ ~ In certHash (map sc_cert_hash (supply_chain_certs b))
  end.

Inductive reachable_from (b0 : books) : books -> Prop :=
| reach_start : reachable_from b0 b0
| reach_step e r b :
    reachable_from b0 b -> fresh e r b -> reachable_from b0 (fst (handle e r b)).

Definition reachable : books -> Prop := reachable_from open_books.

(** ** Vocabulary of the statements *)

(** The sealed claims of a worker. *)
Definition sealed_claims (d : db) (workerId : string) : list work_claim :=
  filter (fun c => String.eqb (wc_worker_id c) workerId
                   && String.eqb (wc_status c) "verified") (work_claims d).

(** What the rows of a ledger produced by the routes satisfy, beside
    [ledger_invariant]: identifiers are not shared, the hours of a claim
    have passed the check of the submission, the flags are the automatic
    ones, and a day worked is a sealed claim. *)
Record ledger_audit (d : db) : Prop := {
  audit_claim_ids : NoDup (map wc_id (work_claims d));
  audit_worker_ids : NoDup (map w_id (workers d));
  audit_hours : forall c, In c (work_claims d) ->
      Qgt_bool (wc_hours c) 16 = false /\ wc_anomaly_score c <= top_score;
  audit_flags : forall f, In f (anomaly_flags d) ->
      af_anomaly_type f = "suspicious_hours" /\ af_entity_type f = "claim"
      /\ af_resolved f = false /\ af_risk_score f == top_score;
  audit_days : forall w, In w (workers d) ->
      (0 <= total_days_worked w
       <= Z.of_nat (List.length (sealed_claims d (w_id w))))%Z
}.

(** The verifications of a claim come from distinct verifiers, none of
    them the worker of the claim. *)
Record attested_by_peers (d : db) : Prop := {
  peers_others : forall v c, In v (verifications d) -> In c (work_claims d) ->
      wc_id c = v_claim_id v -> wc_worker_id c <> v_verifier_id v;
  peers_distinct : forall claim_id,
      NoDup (map v_verifier_id (attestations d claim_id))
}.

(** The certificate counts the workers it lists, and each of them is a
    worker of the ledger with a day worked. *)
Definition backed (b : books) (c : supply_chain_cert) : Prop :=
  sc_worker_count c = Z.of_nat (List.length (sc_worker_ids c))
  /\ sc_status c = "certified"
  /\ forall wid, In wid (sc_worker_ids c) ->
       exists w, find_worker (ledger b) wid = Some w
                 /\ (1 <= total_days_worked w)%Z.

(** The pages 1 to [n] of the list of the workers, one after the other. *)
Definition pages_up_to (n : nat) (limit : Z) (b : books) : list worker_row :=
  flat_map (fun p => page_rows (Z.of_nat p) limit b) (seq 1 n).

End Routes.

(** * Concrete ledgers, used to run the handlers *)

Module Scenario.

Import Backend.
Local Open Scope string_scope.

Definition env_of (i : string) : env :=
  {| gen_id := i; gen_flag_id := i ++ "-flag"; gen_tx_hash := "0xseal";
     gen_ipfs_hash := "Qmseal"; gen_block_number := 48291; gen_signature := "digest";
     gen_wallet_address := "0x" ++ i; gen_public_key := "pk-" ++ i;
     now := "2026-01-15 10:00:07"; today := "2026-01-15";
     sql_date := Calendar.sqlite_date |}.

Definition run (l : list (string * request)) (d : db) : db :=
  fold_left (fun d ir => fst (handle (env_of (fst ir)) (snd ir) d)) l d.

Definition register (i : string) : string * request :=
  (i, PostWorkersRegister (Some i) (Some "Kericho, KE") (Some "Agriculture")).

Definition claim_body (hours : Q) (date : string) : claim_request :=
  {| r_hours := Some hours; r_task := Some "Tea harvesting Row 12";
     r_location_lat := None; r_location_lng := None; r_date := Some date |}.

Definition submit (i w : string) (hours : Q) (date : string) : string * request :=
  (i, PostClaims (Bearer w) (claim_body hours date)).

Definition attest_body (claim_id : string) : verify_request :=
  {| r_claim_id := claim_id; r_gps_distance_m := Some 20%Q |}.

Definition attest (i v claim_id : string) : string * request :=
  (i, PostVerify (Bearer v) (attest_body claim_id)).

(** Four workers. *)
Definition crew : db := run [register "P"; register "A"; register "B"; register "C"] empty_db.

(** P has filed eight hours for 15 January 2026; nobody has attested yet. *)
Definition filed : db := run [submit "c1" "P" 8%Q "2026-01-15"] crew.

(** Two peers have attested P's claim. *)
Definition attested_twice : db := run [attest "v1" "A" "c1"; attest "v2" "B" "c1"] filed.

(** The third attestation has sealed it. *)
Definition sealed : db := run [attest "v3" "C" "c1"] attested_twice.

(** The books of that ledger, before and after a certificate for a batch
    that lists P and somebody unknown. *)
Definition sealed_books : Routes.books :=
  {| Routes.ledger := sealed; Routes.supply_chain_certs := [] |}.

Definition batch (ids : list string) : Routes.certify_request :=
  {| Routes.r_brand := Some "Brand"; Routes.r_product := Some "Tea";
     Routes.r_batch_weight_kg := Some 120%Q; Routes.r_worker_ids := Some ids |}.

Definition certified : Routes.books :=
  fst (Routes.handle (env_of "k1")
         (Routes.PostSupplychainCertify "cert-1" (batch ["P"])) sealed_books).

(** P has filed four hours on each of the five days before 15 January. *)
Definition routine : db :=
  run [submit "d1" "P" 4%Q "2026-01-10"; submit "d2" "P" 4%Q "2026-01-11";
       submit "d3" "P" 4%Q "2026-01-12"; submit "d4" "P" 4%Q "2026-01-13";
       submit "d5" "P" 4%Q "2026-01-14"] crew.

(** P has filed fifteen hours on five days and one hour on three later
    days. *)
Definition overworked : db :=
  run [submit "e1" "P" 15%Q "2026-01-02"; submit "e2" "P" 15%Q "2026-01-03";
       submit "e3" "P" 15%Q "2026-01-04"; submit "e4" "P" 15%Q "2026-01-05";
       submit "e5" "P" 15%Q "2026-01-06"; submit "e6" "P" 1%Q "2026-01-08";
       submit "e7" "P" 1%Q "2026-01-09"; submit "e8" "P" 1%Q "2026-01-10"] crew.

(** A has attested five claims, all of them P's. *)
Definition ring : db :=
  run [attest "v1" "A" "d1"; attest "v2" "A" "d2"; attest "v3" "A" "d3";
       attest "v4" "A" "d4"; attest "v5" "A" "d5"] routine.

(** Each of the four has filed a claim within the same minute. *)
Definition same_minute : db :=
  run [submit "c1" "P" 8%Q "2026-01-15"; submit "c2" "A" 7%Q "2026-01-15";
       submit "c3" "B" 6%Q "2026-01-15"; submit "c4" "C" 9%Q "2026-01-15"] crew.

(** The row of P's claim once sealed. *)
Definition sealed_c1 : work_claim :=
  {| wc_id := "c1"; wc_worker_id := "P"; wc_date := "2026-01-15"; wc_hours := 8%Q;
     wc_task := "Tea harvesting Row 12"; wc_location_lat := None;
     wc_location_lng := None; wc_status := "verified";
     wc_ipfs_hash := Some "Qmseal"; wc_tx_hash := Some "0xseal";
     wc_block_number := Some 48291%Z; wc_anomaly_score := 0%Q;
     wc_created_at := "2026-01-15 10:00:07" |}.

(** P's row once the claim is sealed. *)
Definition sealed_P : worker :=
  {| w_id := "P"; w_name := "P"; w_location := "Kericho, KE";
     w_sector := "Agriculture"; w_wallet_address := "0xP";
     w_public_key := "pk-P"; reputation_score := 50.5%Q;
     verification_depth := 0; total_days_worked := 1 |}.

(** Every identifier drawn along a run is a new one. *)
Fixpoint fresh_run (l : list (string * request)) (d : db) : bool :=
  match l with
  | [] => true
  | ir :: l' =>
      negb (existsb (String.eqb (gen_id (env_of (fst ir)))) (used_ids d))
      && fresh_run l' (fst (handle (env_of (fst ir)) (snd ir) d))
  end.

(** P has filed 0.6, 4.3 and 0.6 hours on the three days before
    15 January; [read] is how the numbers of the requests are read. *)
Definition uneven (read : Q -> Q) : db :=
  run [submit "u1" "P" (read 0.6%Q) "2026-01-12";
       submit "u2" "P" (read 4.3%Q) "2026-01-13";
       submit "u3" "P" (read 0.6%Q) "2026-01-14"] crew.

(** P has filed one hour on each of the three days after 16 January. *)
Definition ahead : db :=
  run [submit "a1" "P" 1%Q "2026-01-17"; submit "a2" "P" 1%Q "2026-01-18";
       submit "a3" "P" 1%Q "2026-01-19"] crew.

(** P has filed one hour on each of the first three days of January,
    written without the zeros. *)
Definition loose : db :=
  run [submit "l1" "P" 1%Q "2026-1-1"; submit "l2" "P" 1%Q "2026-1-2";
       submit "l3" "P" 1%Q "2026-1-3"] crew.

(** P has filed eight hours for 15 January, and then eight hours for
    the same day written 2026-1-15. *)
Definition filed_twice : db := run [submit "c2" "P" 8%Q "2026-1-15"] filed.

(** SQLite's LIKE is not consulted when no region is given. *)
Definition any_location (location region : string) : bool := true.

(** A contract storage: workers 1 (the claimant) and 2 (a peer whose
    reputation stands at 100.00) are registered; claim 7 is worker 1's. *)
Local Open Scope Z_scope.

Definition hash (l : list Z) : Z := fold_left Z.add l 1.

Definition member (reputation : Z) (a : Z) : Contract.Worker :=
  {| Contract.wallet := a; Contract.name := "w"; Contract.location := "l";
     Contract.sector := "s"; Contract.reputationScore := reputation;
     Contract.verifiedDays := 0; Contract.registeredAt := 1; Contract.isActive := true |}.

Definition claim_seven (st : Contract.ClaimStatus) : Contract.WorkClaim :=
  {| Contract.id := 7; Contract.worker := 1; Contract.date := 20468;
     Contract.hours := 80; Contract.taskHash := "QmTask"; Contract.verifiers := [];
     Contract.status := st; Contract.ipfsRecord := 0; Contract.sealedAt := 0 |}.

Definition chain (st : Contract.ClaimStatus) : Contract.storage :=
  {| Contract.workers := fun a => if (a =? 2)%Z then member 10000 a
                                 else member Contract.BASE_REP a;
     Contract.claims := fun _ => claim_seven st;
     Contract.workerClaims := fun _ => [];
     Contract.registeredWorkers := fun a => ((a =? 1) || (a =? 2))%Z;
     Contract.hasVerified := fun _ _ => false;
     Contract.totalVerifiedClaims := 0 |}.

(** Transactions on the contract: workers 1 to 5 register, worker 1 files
    eight hours at time 200, and workers 2, 3 and 4 verify the claim. *)
Definition cert_hash (b ph : string) (ts a : Z) : Z := ts + a.

Definition tx (sender ts : Z) (what : Chain.call) : Chain.transaction :=
  {| Chain.tx_sender := sender; Chain.tx_timestamp := ts; Chain.tx_number := 5;
     Chain.tx_call := what |}.

Definition play (l : list Chain.transaction) (c : Chain.state) : Chain.state :=
  fold_left (fun c t => Chain.after hash cert_hash t c) l c.

Definition signedb (t : Chain.transaction) : bool :=
  negb (Chain.tx_sender t =? 0) && (0 <? Chain.tx_timestamp t).

Definition filed_claim : Z := hash [1; 20468; 200].

Definition town : Chain.state :=
  play [tx 1 100 (Chain.RegisterWorker "P" "Kericho" "Tea");
        tx 2 100 (Chain.RegisterWorker "A" "Kericho" "Tea");
        tx 3 100 (Chain.RegisterWorker "B" "Kericho" "Tea");
        tx 4 100 (Chain.RegisterWorker "C" "Kericho" "Tea");
        tx 5 100 (Chain.RegisterWorker "D" "Kericho" "Tea");
        tx 1 200 (Chain.SubmitClaim 20468 80 "QmTask")] (Chain.deploy 9).

(** The owner slashes worker 2 for that verification, nine times in
    [town_slashed]. *)
Definition slash_two : Chain.transaction :=
  tx 9 300 (Chain.SlashVerifier 2 filed_claim).

Definition town_sealed : Chain.state :=
  play [tx 2 200 (Chain.VerifyClaim filed_claim);
        tx 3 200 (Chain.VerifyClaim filed_claim);
        tx 4 200 (Chain.VerifyClaim filed_claim)] town.

(** A sixth worker joins the town of the filed claim, which is then
    verified as before. *)
Definition enrol_six : Chain.transaction :=
  tx 6 150 (Chain.RegisterWorker "E" "Kericho" "Tea").

Definition town_grown : Chain.state := Chain.after hash cert_hash enrol_six town.

Definition town_grown_sealed : Chain.state :=
  play [tx 2 200 (Chain.VerifyClaim filed_claim);
        tx 3 200 (Chain.VerifyClaim filed_claim);
        tx 4 200 (Chain.VerifyClaim filed_claim)] town_grown.

Definition town_slashed : Chain.state :=
  Chain.repeated (Chain.after hash cert_hash slash_two) 9 town_sealed.

(** Worker 1 has filed the same day again within the block of the first
    filing. *)
Definition town_reopened : Chain.state :=
  play [tx 1 200 (Chain.SubmitClaim 20468 80 "QmTask")] town_sealed.

(** A fifth worker verifies the claim that was filed again. *)
Definition town_resealed : Chain.state :=
  play [tx 5 200 (Chain.VerifyClaim filed_claim)] town_reopened.

End Scenario.

(** * Properties of the backend *)

(** Case analysis along the branches of a handler. *)
Ltac split_handler :=
  repeat match goal with
         | |- context [match ?x with _ => _ end] => destruct x eqn:?; simpl
         end.

Section CalendarFacts.

Import Calendar.
Local Open Scope Z_scope.

Lemma digit_compare a b x y :
  digit a = Some x -> digit b = Some y -> Ascii.compare a b = Z.compare x y.
Proof.
  unfold digit, Ascii.compare.
  destruct (_ && _); [|discriminate]. destruct (_ && _); [|discriminate].
  intros [= <-] [= <-]. rewrite <- N2Z.inj_compare.
  rewrite Z.compare_sub. rewrite (Z.compare_sub (_ - 48)). f_equal. lia.
Qed.

Lemma digit_bound a x : digit a = Some x -> 0 <= x < 10.
Proof.
  unfold digit. destruct (_ && _) eqn:E; [|discriminate]. intros [= <-]. lia.
Qed.

Lemma lex_step (a a' r r' : Z) :
  0 <= r < 10 -> 0 <= r' < 10 ->
  Z.compare (10 * a + r) (10 * a' + r')
  = match Z.compare a a' with Eq => Z.compare r r' | c => c end.
Proof.
  intros Hr Hr'. destruct (Z.compare_spec a a') as [-> | H | H].
  - rewrite Z.compare_sub. rewrite (Z.compare_sub r). f_equal. lia.
  - apply Z.compare_lt_iff. nia.
  - apply Z.compare_gt_iff. nia.
Qed.

Lemma is_dash_eq c : is_dash c = true -> c = "-"%char.
Proof. apply Ascii.eqb_eq. Qed.

(** Texts of the form YYYY-MM-DD are ordered as the dates they name. *)
Lemma iso_compare s t a b :
  iso s = Some a -> iso t = Some b ->
  String.compare s t = Z.compare (stamp a) (stamp b).
Proof.
  unfold iso.
  destruct s as [|y1 [|y2 [|y3 [|y4 [|s1 [|m1 [|m2 [|s2 [|d1 [|d2 [|? ?]]]]]]]]]]];
    try discriminate.
  destruct t as [|y1' [|y2' [|y3' [|y4' [|s1' [|m1' [|m2' [|s2' [|d1' [|d2' [|? ?]]]]]]]]]]];
    try discriminate.
  destruct (digit y1) as [a1|] eqn:A1; [|discriminate].
  destruct (digit y2) as [a2|] eqn:A2; [|discriminate].
  destruct (digit y3) as [a3|] eqn:A3; [|discriminate].
  destruct (digit y4) as [a4|] eqn:A4; [|discriminate].
  destruct (digit m1) as [a5|] eqn:A5; [|discriminate].
  destruct (digit m2) as [a6|] eqn:A6; [|discriminate].
  destruct (digit d1) as [a7|] eqn:A7; [|discriminate].
  destruct (digit d2) as [a8|] eqn:A8; [|discriminate].
  destruct (digit y1') as [b1|] eqn:B1; [|discriminate].
  destruct (digit y2') as [b2|] eqn:B2; [|discriminate].
  destruct (digit y3') as [b3|] eqn:B3; [|discriminate].
  destruct (digit y4') as [b4|] eqn:B4; [|discriminate].
  destruct (digit m1') as [b5|] eqn:B5; [|discriminate].
  destruct (digit m2') as [b6|] eqn:B6; [|discriminate].
  destruct (digit d1') as [b7|] eqn:B7; [|discriminate].
  destruct (digit d2') as [b8|] eqn:B8; [|discriminate].
  cbv zeta.
  destruct (is_dash s1) eqn:S1; [|discriminate].
  destruct (is_dash s2) eqn:S2; [|discriminate].
  destruct (is_dash s1') eqn:S1'; [|discriminate].
  destruct (is_dash s2') eqn:S2'; [|discriminate].
  apply is_dash_eq in S1, S2, S1', S2'. subst.
  cbv [andb]. destruct (valid _); [|discriminate]. destruct (valid _); [|discriminate].
  intros Ha Hb.
  apply (f_equal (fun o => match o with Some x => stamp x | None => 0 end)) in Ha, Hb.
  rewrite <- Ha, <- Hb. cbv [stamp year month day String.compare].
  rewrite (digit_compare _ _ _ _ A1 B1), (digit_compare _ _ _ _ A2 B2),
    (digit_compare _ _ _ _ A3 B3), (digit_compare _ _ _ _ A4 B4),
    (digit_compare _ _ _ _ A5 B5), (digit_compare _ _ _ _ A6 B6),
    (digit_compare _ _ _ _ A7 B7), (digit_compare _ _ _ _ A8 B8).
  change (Ascii.compare "-" "-") with Eq. cbv iota.
  apply digit_bound in A1, A2, A3, A4, A5, A6, A7, A8, B1, B2, B3, B4, B5, B6, B7, B8.
  replace (10000 * (1000 * a1 + 100 * a2 + 10 * a3 + a4) + 100 * (10 * a5 + a6)
           + (10 * a7 + a8))
    with (10 * (10 * (10 * (10 * (10 * (10 * (10 * a1 + a2) + a3) + a4) + a5) + a6)
                + a7) + a8) by lia.
  replace (10000 * (1000 * b1 + 100 * b2 + 10 * b3 + b4) + 100 * (10 * b5 + b6)
           + (10 * b7 + b8))
    with (10 * (10 * (10 * (10 * (10 * (10 * (10 * b1 + b2) + b3) + b4) + b5) + b6)
                + b7) + b8) by lia.
  rewrite !lex_step by assumption.
  destruct (a1 ?= b1), (a2 ?= b2), (a3 ?= b3), (a4 ?= b4), (a5 ?= b5), (a6 ?= b6),
    (a7 ?= b7), (a8 ?= b8); reflexivity.
Qed.

Lemma iso_ltb s t a b :
  iso s = Some a -> iso t = Some b -> String.ltb s t = (stamp a <? stamp b).
Proof.
  intros Ha Hb. unfold String.ltb, Z.ltb. now rewrite (iso_compare s t a b Ha Hb).
Qed.

Lemma iso_leb s t a b :
  iso s = Some a -> iso t = Some b -> String.leb s t = (stamp a <=? stamp b).
Proof.
  intros Ha Hb. unfold String.leb, Z.leb. now rewrite (iso_compare s t a b Ha Hb).
Qed.

Lemma iso_stamp s t a b :
  iso s = Some a -> iso t = Some b -> stamp a = stamp b -> s = t.
Proof.
  intros Ha Hb E. apply String.compare_eq_iff.
  rewrite (iso_compare s t a b Ha Hb). now apply Z.compare_eq_iff.
Qed.

Lemma digit_is_no_dash c a : digit c = Some a -> is_dash c = false.
Proof.
  destruct c as [[] [] [] [] [] [] [] []]; vm_compute; congruence.
Qed.

(** A text of the form YYYY-MM-DD names the date that [iso] reads. *)
Lemma iso_named s t : iso s = Some t -> named s = Some t.
Proof.
  unfold iso.
  destruct s as [|y1 [|y2 [|y3 [|y4 [|s1 [|m1 [|m2 [|s2 [|d1 [|d2 [|? ?]]]]]]]]]]];
    try discriminate.
  destruct (digit y1) as [a1|] eqn:A1; [|discriminate].
  destruct (digit y2) as [a2|] eqn:A2; [|discriminate].
  destruct (digit y3) as [a3|] eqn:A3; [|discriminate].
  destruct (digit y4) as [a4|] eqn:A4; [|discriminate].
  destruct (digit m1) as [a5|] eqn:A5; [|discriminate].
  destruct (digit m2) as [a6|] eqn:A6; [|discriminate].
  destruct (digit d1) as [a7|] eqn:A7; [|discriminate].
  destruct (digit d2) as [a8|] eqn:A8; [|discriminate].
  cbv zeta.
  destruct (is_dash s1) eqn:S1; [|discriminate].
  destruct (is_dash s2) eqn:S2; [|discriminate].
  cbv [andb]. intros Hv.
  unfold named. cbn [split_dash].
  rewrite (digit_is_no_dash _ _ A1), (digit_is_no_dash _ _ A2),
    (digit_is_no_dash _ _ A3), (digit_is_no_dash _ _ A4),
    (digit_is_no_dash _ _ A5), (digit_is_no_dash _ _ A6),
    (digit_is_no_dash _ _ A7), (digit_is_no_dash _ _ A8), S1, S2.
  cbn [number numeral]. rewrite A1, A2, A3, A4, A5, A6, A7, A8.
  cbv zeta.
  replace (10 * (10 * (10 * (10 * 0 + a1) + a2) + a3) + a4)
    with (1000 * a1 + 100 * a2 + 10 * a3 + a4) by lia.
  replace (10 * (10 * 0 + a5) + a6) with (10 * a5 + a6) by lia.
  replace (10 * (10 * 0 + a7) + a8) with (10 * a7 + a8) by lia.
  exact Hv.
Qed.

End CalendarFacts.

Section BackendFacts.

Import Backend.
Local Open Scope string_scope.
Local Open Scope list_scope.

(** ** Lists and queries *)

Lemma filter_andb {A} (p q : A -> bool) (l : list A) :
  filter (fun x => p x && q x) l = filter q (filter p l).
Proof.
  induction l as [|x l IH]; simpl; [reflexivity|].
  destruct (p x); simpl; [destruct (q x)|]; now rewrite IH.
Qed.

Lemma find_app_none {A} (p : A -> bool) (l l' : list A) :
  find p l = None -> find p (l ++ l') = find p l'.
Proof.
  induction l as [|x l IH]; simpl; [reflexivity|].
  destruct (p x); [discriminate | exact IH].
Qed.

Lemma find_app_some {A} (p : A -> bool) (l l' : list A) (x : A) :
  find p l = Some x -> find p (l ++ l') = Some x.
Proof.
  induction l as [|y l IH]; simpl; [discriminate|].
  destruct (p y); [trivial | exact IH].
Qed.

Lemma find_none_filter {A} (p : A -> bool) (l : list A) :
  find p l = None -> filter p l = [].
Proof.
  induction l as [|x l IH]; simpl; [reflexivity|].
  destruct (p x); [discriminate | exact IH].
Qed.

Lemma find_update_where {A} (p q : A -> bool) (f : A -> A) (l : list A) :
  (forall x, p (f x) = p x) ->
  find p (update_where q f l)
  = option_map (fun x => if q x then f x else x) (find p l).
Proof.
  intros Hp. unfold update_where.
  induction l as [|x l IH]; simpl; [reflexivity|].
  assert (E : p (if q x then f x else x) = p x) by (destruct (q x); auto).
  rewrite E. destruct (p x); [reflexivity | exact IH].
Qed.

Lemma filter_update_where {A} (p q : A -> bool) (f : A -> A) (l : list A) :
  (forall x, p (f x) = p x) ->
  filter p (update_where q f l) = update_where q f (filter p l).
Proof.
  intros Hp. unfold update_where.
  induction l as [|x l IH]; simpl; [reflexivity|].
  assert (E : p (if q x then f x else x) = p x) by (destruct (q x); auto).
  rewrite E. destruct (p x); simpl; now rewrite IH.
Qed.

Lemma length_update_where {A} (q : A -> bool) (f : A -> A) (l : list A) :
  List.length (update_where q f l) = List.length l.
Proof. apply length_map. Qed.

Lemma Qgt_bool_lt (x y : Q) : Qgt_bool x y = true <-> (y < x)%Q.
Proof.
  unfold Qgt_bool. rewrite negb_true_iff, <- not_true_iff_false, Qle_bool_iff.
  split; [apply Qnot_le_lt | apply Qlt_not_le].
Qed.

(** ** A request that fails writes nothing *)

Lemma verifyJWT_failure auth next d :
  (forall w d, is_failure (snd (next w d)) = true -> fst (next w d) = d) ->
  is_failure (snd (verifyJWT auth next d)) = true ->
  fst (verifyJWT auth next d) = d.
Proof. intros Hnext. destruct auth; simpl; auto. Qed.

Lemma submit_claim_failure e req w d :
  is_failure (snd (submit_claim e req w d)) = true ->
  fst (submit_claim e req w d) = d.
Proof. unfold submit_claim. split_handler; intros; try reflexivity; discriminate. Qed.

Lemma verify_claim_failure e req w d :
  is_failure (snd (verify_claim e req w d)) = true ->
  fst (verify_claim e req w d) = d.
Proof.
  unfold verify_claim.
  destruct (find_claim d (r_claim_id req)); [|reflexivity].
  destruct (String.eqb _ w); [reflexivity|].
  destruct (String.eqb _ "verified"); [reflexivity|].
  destruct (find _ (verifications d)); [reflexivity|].
  destruct (gps_too_far _); [reflexivity|].
  cbv zeta. destruct (3 <=? _)%Z; simpl; discriminate.
Qed.

Lemma credit_report_failure e w d :
  is_failure (snd (credit_report_for e w d)) = true ->
  fst (credit_report_for e w d) = d.
Proof.
  unfold credit_report_for.
  destruct (find_worker d w); [|reflexivity].
  destruct (filter _ (work_claims d)); [reflexivity|].
  simpl. discriminate.
Qed.

Lemma register_failure e n l s d :
  is_failure (snd (post_api_workers_register e n l s d)) = true ->
  fst (post_api_workers_register e n l s d) = d.
Proof.
  unfold post_api_workers_register.
  split_handler; intros; try reflexivity; discriminate.
Qed.

(** ** The anomaly score *)

Lemma NoDup_snoc {A} (l : list A) (x : A) :
  NoDup l -> ~ In x l -> NoDup (l ++ [x]).
Proof.
  induction 1 as [|a l Ha Hl IH]; intros Hx; simpl.
  - constructor; [intros [] | constructor].
  - constructor.
    + rewrite in_app_iff. intros [H | [H | []]]; [now apply Ha|].
      apply Hx. now left.
    + apply IH. intros H. apply Hx. now right.
Qed.

(** ** ORDER BY on distinct keys *)

Lemma insert_desc_perm {A} (lt : A -> A -> bool) (c : A) (l : list A) :
  Permutation (c :: l) (insert_desc lt c l).
Proof.
  induction l as [|x l IH]; simpl; [reflexivity|].
  destruct (lt x c); [reflexivity|].
  rewrite perm_swap. now constructor.
Qed.

Lemma order_desc_perm {A} (lt : A -> A -> bool) (l : list A) :
  Permutation l (order_desc lt l).
Proof.
  induction l as [|x l IH]; simpl; [constructor|].
  rewrite <- insert_desc_perm. now constructor.
Qed.

Lemma insert_desc_ext {A} (lt lt' : A -> A -> bool) (c : A) (l : list A) :
  (forall x, In x l -> lt x c = lt' x c) ->
  insert_desc lt c l = insert_desc lt' c l.
Proof.
  induction l as [|x l IH]; simpl; intros H; [reflexivity|].
  rewrite (H x) by now left.
  destruct (lt' x c); [reflexivity|]. f_equal. apply IH. intros y Hy. apply H. now right.
Qed.

Lemma order_desc_ext {A} (lt lt' : A -> A -> bool) (l : list A) :
  (forall x y, In x l -> In y l -> lt x y = lt' x y) ->
  order_desc lt l = order_desc lt' l.
Proof.
  induction l as [|c l IH]; simpl; intros H; [reflexivity|].
  rewrite IH by (intros x y Hx Hy; apply H; now right).
  apply insert_desc_ext. intros x Hx. apply H; [right | now left].
  apply (Permutation_in x (Permutation_sym (order_desc_perm lt' l)) Hx).
Qed.

Lemma insert_desc_descending c l :
  (forall x, In x l -> day_of x <> day_of c) -> descending l ->
  descending (insert_desc (fun x y => (day_of x <? day_of y)%Z) c l).
Proof.
  unfold descending. intros Hc Hl. induction Hl as [|x l Hl IH Hx]; simpl.
  - constructor; constructor.
  - destruct (Z.ltb_spec (day_of x) (day_of c)) as [Hlt | Hge].
    + constructor; [now constructor|]. constructor; [exact Hlt|].
      rewrite Forall_forall in *. intros y Hy. specialize (Hx y Hy). lia.
    + assert (Hne : day_of x <> day_of c) by (apply Hc; now left).
      constructor.
      * apply IH. intros y Hy. apply Hc. now right.
      * rewrite Forall_forall in *. intros y Hy.
        apply (Permutation_in y (Permutation_sym (insert_desc_perm _ c l))) in Hy.
        destruct Hy as [<- | Hy]; [lia | now apply Hx].
Qed.

Lemma order_desc_descending l :
  NoDup (map day_of l) ->
  descending (order_desc (fun x y => (day_of x <? day_of y)%Z) l).
Proof.
  induction l as [|c l IH]; simpl; intros Hnd; [constructor|].
  apply NoDup_cons_iff in Hnd as [Hc Hl].
  apply insert_desc_descending; [|now apply IH].
  intros x Hx E. apply Hc. rewrite <- E. apply in_map.
  apply (Permutation_in x (Permutation_sym (order_desc_perm _ l)) Hx).
Qed.

(** ** The latest claims of a list *)

Lemma later_days x y :
  dated x -> dated y -> later x y = (day_of y <? day_of x)%Z.
Proof.
  unfold dated, later, day_of.
  destruct (Calendar.iso (wc_date x)) as [a|] eqn:Ha; [|congruence].
  destruct (Calendar.iso (wc_date y)) as [b|] eqn:Hb; [|congruence].
  now rewrite (iso_named _ _ Ha), (iso_named _ _ Hb).
Qed.

Lemma newest_is_latest l : forall c,
  (forall x, In x (c :: l) -> dated x) ->
  In (newest c l) (c :: l)
  /\ forall z, In z (c :: l) -> (day_of z <= day_of (newest c l))%Z.
Proof.
  induction l as [|x l IH]; intros c Hd; simpl newest.
  - split; [now left|]. intros z [<- | []]. lia.
  - assert (Hx : dated x) by (apply Hd; right; now left).
    assert (Hc : dated c) by (apply Hd; now left).
    rewrite (later_days x c Hx Hc).
    destruct (Z.ltb_spec (day_of c) (day_of x)) as [Hlt | Hge].
    + destruct (IH x) as [Hin Hmax].
      { intros y Hy. apply Hd. now right. }
      split; [now right|].
      intros z [<- | Hz]; [|now apply Hmax].
      specialize (Hmax x (or_introl eq_refl)). lia.
    + destruct (IH c) as [Hin Hmax].
      { intros y [<- | Hy]; [exact Hc|]. apply Hd. right. now right. }
      split; [destruct Hin as [<- | Hin]; [now left | right; now right]|].
      intros z [<- | [<- | Hz]].
      * apply Hmax. now left.
      * specialize (Hmax c (or_introl eq_refl)). lia.
      * apply Hmax. now right.
Qed.

Lemma filter_perm {A} (p : A -> bool) (l l' : list A) :
  Permutation l l' -> Permutation (filter p l) (filter p l').
Proof.
  induction 1 as [|x l l' H IH|x y l|l l' l'' H1 IH1 H2 IH2]; simpl.
  - constructor.
  - destruct (p x); [now constructor | exact IH].
  - destruct (p x), (p y); try reflexivity. apply perm_swap.
  - now transitivity (filter p l').
Qed.

Lemma filter_all {A} (p : A -> bool) (l : list A) :
  (forall x, In x l -> p x = true) -> filter p l = l.
Proof.
  induction l as [|x l IH]; simpl; intros H; [reflexivity|].
  rewrite (H x) by now left. f_equal. apply IH. intros y Hy. apply H. now right.
Qed.

Lemma latest_of_descending k : forall l s,
  (forall x, In x l -> dated x) -> Permutation l s -> descending s ->
  latest k l = firstn k s.
Proof.
  induction k as [|k IH]; intros l s Hd Hp Hs.
  - now destruct l.
  - destruct l as [|x r].
    + apply Permutation_nil in Hp. now subst.
    + destruct s as [|m s'].
      { apply Permutation_sym, Permutation_nil in Hp. discriminate. }
      apply StronglySorted_inv in Hs as [Hs' Hm]. rewrite Forall_forall in Hm.
      assert (Hdm : dated m).
      { apply Hd. apply (Permutation_in m (Permutation_sym Hp)). now left. }
      assert (E : newest x r = m).
      { destruct (newest_is_latest r x Hd) as [Hin Hmax].
        apply (Permutation_in _ Hp) in Hin. destruct Hin as [Hin | Hin]; [now symmetry|].
        specialize (Hm _ Hin).
        assert (In m (x :: r)) as Hmin
          by (apply (Permutation_in m (Permutation_sym Hp)); now left).
        specialize (Hmax m Hmin). lia. }
      cbn [latest firstn]. rewrite E. f_equal.
      apply IH.
      * intros y Hy. apply filter_In in Hy as [Hy _]. now apply Hd.
      * rewrite (filter_perm (later m) _ _ Hp). simpl.
        rewrite (later_days m m Hdm Hdm), Z.ltb_irrefl.
        rewrite filter_all; [reflexivity|].
        intros y Hy. rewrite later_days; [apply Z.ltb_lt; now apply Hm | exact Hdm |].
        apply Hd. apply (Permutation_in y (Permutation_sym Hp)). now right.
      * exact Hs'.
Qed.

Lemma NoDup_map_filter {A B} (key : A -> B) (keep : A -> bool) (rows : list A) :
  NoDup (map key rows) -> NoDup (map key (filter keep rows)).
Proof.
  intros Hnd. induction rows as [|a rows IH]; simpl; [constructor|].
  simpl in Hnd. apply NoDup_cons_iff in Hnd as [Ha Hrows].
  destruct (keep a); simpl; [|now apply IH].
  apply NoDup_cons; [|now apply IH].
  intros Hin. apply Ha. apply in_map_iff in Hin as (x & E & Hx).
  apply filter_In in Hx as [Hx _]. apply in_map_iff. now exists x.
Qed.

Lemma NoDup_map_finer {A B C} (f : A -> B) (g : A -> C) (l : list A) :
  (forall x y, In x l -> In y l -> g x = g y -> f x = f y) ->
  NoDup (map f l) -> NoDup (map g l).
Proof.
  induction l as [|a l IH]; simpl; intros H Hnd; [constructor|].
  apply NoDup_cons_iff in Hnd as [Ha Hl]. constructor.
  - intros Hin. apply in_map_iff in Hin as (x & E & Hx). apply Ha.
    rewrite <- (H x a); [now apply in_map | now right | now left | exact E].
  - apply IH; [|exact Hl]. intros x y Hx Hy. apply H; now right.
Qed.

Lemma sqlite_reads_answer e date n :
  sqlite_reads e date n = true ->
  exists t since u,
    Calendar.iso date = Some t /\ sql_date e date (Z.of_nat n) = Some since
    /\ Calendar.iso since = Some u
    /\ Calendar.stamp u = Calendar.stamp (Calendar.minus_days n t).
Proof.
  unfold sqlite_reads.
  destruct (Calendar.iso date) as [t|]; [|discriminate].
  destruct (sql_date e date (Z.of_nat n)) as [since|]; [|discriminate].
  destruct (Calendar.iso since) as [u|] eqn:Hu; [|discriminate].
  intros H. apply Z.eqb_eq in H. exists t, since, u. repeat split; auto.
Qed.

Lemma dated_up_to_claim d w date c :
  dated_up_to d w date = true -> In c (work_claims d) -> wc_worker_id c = w ->
  exists u t, Calendar.iso (wc_date c) = Some u /\ Calendar.iso date = Some t
              /\ (Calendar.stamp u <= Calendar.stamp t)%Z.
Proof.
  unfold dated_up_to. rewrite forallb_forall. intros H Hin Hw.
  specialize (H c Hin). rewrite Hw, String.eqb_refl in H. simpl in H.
  destruct (Calendar.iso (wc_date c)) as [u|]; [|discriminate].
  destruct (Calendar.iso date) as [t|]; [|discriminate].
  exists u, t. repeat split. now apply Z.leb_le.
Qed.

(** The window of the query is the window of the calendar. *)
Lemma window_of_days e d w date n :
  sqlite_reads e date n = true -> dated_up_to d w date = true ->
  filter (fun c => String.eqb (wc_worker_id c) w
                   && dated_since (sql_date e date (Z.of_nat n)) c) (work_claims d)
  = history d w n date.
Proof.
  intros Hsql Hup. unfold history. apply filter_ext_in. intros c Hin.
  destruct (String.eqb_spec (wc_worker_id c) w) as [Hw | Hw]; [|reflexivity].
  simpl. destruct (sqlite_reads_answer e date n Hsql) as (t & since & u & Ht & Hs & Hu & E).
  destruct (dated_up_to_claim d w date c Hup Hin Hw) as (uc & t' & Hc & Ht' & Hle).
  rewrite Ht in Ht'. injection Ht' as <-.
  unfold dated_since, in_trailing.
  rewrite Hs, (iso_named _ _ Ht), (iso_named _ _ Hc).
  rewrite (iso_leb since (wc_date c) u uc Hu Hc), E.
  apply Z.leb_le in Hle. now rewrite Hle, andb_true_r.
Qed.

Lemma history_claims d w n date c :
  dated_up_to d w date = true -> In c (history d w n date) ->
  In c (work_claims d) /\ wc_worker_id c = w /\ dated c.
Proof.
  unfold history. rewrite filter_In, andb_true_iff, String.eqb_eq.
  intros Hup (Hin & Hw & _). repeat split; auto.
  destruct (dated_up_to_claim d w date c Hup Hin Hw) as (u & _ & Hu & _).
  unfold dated. now rewrite Hu.
Qed.

Lemma history_days d w n date :
  dated_up_to d w date = true ->
  NoDup (map claim_key (work_claims d)) ->
  NoDup (map day_of (history d w n date)).
Proof.
  intros Hup Hnd. apply (NoDup_map_finer claim_key).
  - intros x y Hx Hy E.
    apply (history_claims d w n date x Hup) in Hx as (_ & Hwx & Hdx).
    apply (history_claims d w n date y Hup) in Hy as (_ & Hwy & Hdy).
    unfold claim_key. rewrite Hwx, Hwy. f_equal.
    unfold dated in Hdx, Hdy. unfold day_of in E.
    destruct (Calendar.iso (wc_date x)) as [a|] eqn:Ha; [|congruence].
    destruct (Calendar.iso (wc_date y)) as [b|] eqn:Hb; [|congruence].
    exact (iso_stamp _ _ a b Ha Hb E).
  - unfold history. now apply NoDup_map_filter.
Qed.

(** The ten rows of the first query are the ten latest claims of the
    week. *)
Lemma recent_claims_latest e d w date :
  NoDup (map claim_key (work_claims d)) ->
  sqlite_reads e date 7 = true -> dated_up_to d w date = true ->
  recent_claims e d w date = latest 10 (history d w 7 date).
Proof.
  intros Hnd Hsql Hup. unfold recent_claims.
  change 7%Z with (Z.of_nat 7). rewrite (window_of_days e d w date 7 Hsql Hup).
  assert (Hd : forall x, In x (history d w 7 date) -> dated x).
  { intros x Hx. now apply (history_claims d w 7 date x Hup) in Hx. }
  unfold order_by_date_desc.
  rewrite (order_desc_ext _ (fun x y => (day_of x <? day_of y)%Z)).
  - symmetry. apply latest_of_descending; [exact Hd | apply order_desc_perm |].
    apply order_desc_descending. now apply history_days.
  - intros x y Hx Hy. apply Hd in Hx, Hy. unfold dated in Hx, Hy. unfold day_of.
    destruct (Calendar.iso (wc_date x)) as [a|] eqn:Ha; [|congruence].
    destruct (Calendar.iso (wc_date y)) as [b|] eqn:Hb; [|congruence].
    exact (iso_ltb _ _ a b Ha Hb).
Qed.

Lemma same_hours_count_history e d w h date :
  sqlite_reads e date 14 = true -> dated_up_to d w date = true ->
  same_hours_count e d w h date
  = Z.of_nat (List.length (filter (fun c => Qeq_bool (wc_hours c) h)
                             (history d w 14 date))).
Proof.
  intros Hsql Hup. rewrite <- (window_of_days e d w date 14 Hsql Hup).
  unfold same_hours_count, count. rewrite <- filter_andb. do 2 f_equal.
  apply filter_ext. intros c.
  destruct (String.eqb _ w), (Qeq_bool _ h), (dated_since _ c); reflexivity.
Qed.

Lemma sum_recent_total l : sum_recent l = total64 (of_Z 0) l.
Proof.
  unfold sum_recent. generalize (of_Z 0).
  induction l as [|c l IH]; intros a; simpl; [reflexivity | apply IH].
Qed.

Lemma calcAnomalyScore_amended e d w h date :
  NoDup (map claim_key (work_claims d)) ->
  sqlite_reads e date 7 = true -> sqlite_reads e date 14 = true ->
  dated_up_to d w date = true ->
  calcAnomalyScore e d w h date = amended_score d w h date.
Proof.
  intros Hnd H7 H14 Hup. unfold calcAnomalyScore, amended_score. cbv zeta.
  rewrite (recent_claims_latest e d w date Hnd H7 Hup).
  rewrite (same_hours_count_history e d w h date H14 Hup).
  rewrite sum_recent_total. fold (mean64 (latest 10 (history d w 7 date))).
  set (recent := latest 10 (history d w 7 date)).
  set (same := filter _ (history d w 14 date)).
  replace (5 <=? Z.of_nat (List.length same))%Z with (5 <=? List.length same)%nat
    by (apply eq_true_iff_eq; rewrite Z.leb_le, Nat.leb_le; lia).
  unfold plus64.
  replace (flt (fmul match recent with [] => D h | _ :: _ => mean64 recent end (D 1.8)) (D h)
           && (3 <=? List.length recent)%nat)
    with ((3 <=? List.length recent)%nat && flt (fmul (mean64 recent) (D 1.8)) (D h)).
  - reflexivity.
  - destruct recent; [simpl; now rewrite andb_false_r | apply andb_comm].
Qed.

Lemma calcAnomalyScore_bounds e d w h date :
  (0 <= calcAnomalyScore e d w h date <= 1)%Q.
Proof.
  unfold calcAnomalyScore. cbv zeta.
  destruct (Qgt_bool h 14), (Qgt_bool h 16), (_ && _), (_ <=? _)%Z;
    vm_compute; split; discriminate.
Qed.

Lemma calcAnomalyScore_reads_claims_only e d d' w h date :
  work_claims d' = work_claims d ->
  calcAnomalyScore e d' w h date = calcAnomalyScore e d w h date.
Proof.
  intros E.
  unfold calcAnomalyScore, recent_claims, same_hours_count. now rewrite E.
Qed.

(** ** What a request does to the claims and the verifications *)

Lemma submit_claim_effect e req w d :
  same_records d (fst (submit_claim e req w d))
  \/ one_claim_more e d (fst (submit_claim e req w d)).
Proof.
  unfold submit_claim.
  destruct (r_hours req) as [hours|]; [|left; split; reflexivity].
  destruct (r_task req) as [task|]; [|left; split; reflexivity].
  destruct (falsy_num _ || falsy_str _); [left; split; reflexivity|].
  destruct (Qgt_bool hours 16); [left; split; reflexivity|].
  destruct (find _ (work_claims d)) eqn:Hfind; [left; split; reflexivity|].
  right. cbv zeta.
  eexists. destruct (Qgt_bool (calcAnomalyScore _ _ _ _ _) (js 0.65)); simpl;
    (split; [reflexivity|]); repeat split; simpl; auto.
Qed.

Lemma verify_claim_effect e req w d :
  same_records d (fst (verify_claim e req w d))
  \/ one_verification_more e d (fst (verify_claim e req w d)).
Proof.
  unfold verify_claim.
  destruct (find_claim d (r_claim_id req)) as [claim|] eqn:Hfind;
    [|left; split; reflexivity].
  destruct (String.eqb _ w); [left; split; reflexivity|].
  destruct (String.eqb (wc_status claim) "verified") eqn:Hst;
    [left; split; reflexivity|].
  destruct (find _ (verifications d)); [left; split; reflexivity|].
  destruct (gps_too_far _); [left; split; reflexivity|].
  right. cbv zeta. apply String.eqb_neq in Hst.
  exists claim,
    {| v_id := gen_id e; v_claim_id := r_claim_id req; v_verifier_id := w;
       v_signature := gen_signature e;
       v_gps_distance_m := or_null (r_gps_distance_m req); v_is_valid := true |}.
  destruct (3 <=? _)%Z eqn:Hq; simpl;
    (split; [exact Hfind|]); (split; [exact Hst|]);
    (split; [reflexivity|]); (split; [reflexivity|]).
  - right. split; [apply Z.leb_le; exact Hq | reflexivity].
  - left. split; [apply Z.leb_gt; exact Hq | reflexivity].
Qed.

Lemma handle_effect e r d :
  same_records d (fst (handle e r d))
  \/ one_claim_more e d (fst (handle e r d))
  \/ one_verification_more e d (fst (handle e r d)).
Proof.
  destruct r as [n l s | auth req | auth req | auth | like region]; simpl.
  - left. unfold post_api_workers_register.
    destruct n, l, s; try (split; reflexivity).
    destruct (_ || _); split; reflexivity.
  - destruct auth; simpl; try (left; split; reflexivity).
    destruct (submit_claim_effect e req workerId d); auto.
  - destruct auth; simpl; try (left; split; reflexivity).
    destruct (verify_claim_effect e req workerId d); auto.
  - left. destruct auth; simpl; try (split; reflexivity).
    unfold credit_report_for.
    destruct (find_worker d workerId); [|split; reflexivity].
    destruct (filter _ (work_claims d)); split; reflexivity.
  - left. split; reflexivity.
Qed.

(** ** The ledger invariant *)

Lemma filter_none {A} (p : A -> bool) (l : list A) :
  (forall x, In x l -> p x = false) -> filter p l = [].
Proof.
  induction l as [|x l IH]; simpl; intros H; [reflexivity|].
  rewrite (H x (or_introl eq_refl)). apply IH. intros y Hy. apply H. now right.
Qed.

Lemma In_update_where {A} (q : A -> bool) (f : A -> A) (l : list A) (y : A) :
  In y (update_where q f l) ->
  exists x, In x l /\ y = if q x then f x else x.
Proof.
  unfold update_where. rewrite in_map_iff. intros (x & E & Hx). now exists x.
Qed.

Lemma map_wc_id_seal e q (l : list work_claim) :
  map wc_id (update_where q (seal_row e) l) = map wc_id l.
Proof.
  unfold update_where. rewrite map_map. apply map_ext.
  intros c. now destruct (q c).
Qed.

Lemma find_claim_In d claim_id c :
  find_claim d claim_id = Some c -> In c (work_claims d) /\ wc_id c = claim_id.
Proof.
  unfold find_claim. intros H. apply find_some in H as [Hin Heq].
  split; [exact Hin | now apply String.eqb_eq].
Qed.

Lemma attestations_recorded d d' v x :
  verifications d' = verifications d ++ [v] ->
  attestations d' x
  = attestations d x ++ (if String.eqb (v_claim_id v) x then [v] else []).
Proof.
  intros E. unfold attestations. rewrite E, filter_app. reflexivity.
Qed.

Lemma valid_verifications_attestations d x :
  (forall v, In v (verifications d) -> v_is_valid v = true) ->
  valid_verifications d x = Z.of_nat (List.length (attestations d x)).
Proof.
  intros H. unfold valid_verifications, count, attestations.
  do 2 f_equal. apply filter_ext_in. intros v Hv. rewrite (H v Hv).
  apply andb_true_r.
Qed.

Lemma fresh_claim_has_no_attestation e d :
  ledger_invariant d -> fresh e d -> attestations d (gen_id e) = [].
Proof.
  intros Inv Hfresh. apply filter_none. intros v Hv.
  apply String.eqb_neq. intros E. apply Hfresh. unfold used_ids.
  rewrite !in_app_iff. right; left. rewrite <- E. now apply inv_refers.
Qed.

Lemma invariant_same_records d d' :
  ledger_invariant d -> same_records d d' -> ledger_invariant d'.
Proof.
  intros Inv [Hc Hv].
  constructor; unfold attestations; rewrite ?Hc, ?Hv; apply Inv.
Qed.

Lemma invariant_one_claim_more e d d' :
  ledger_invariant d -> fresh e d -> one_claim_more e d d' -> ledger_invariant d'.
Proof.
  intros Inv Hfresh (c & Hc & Hv & Hid & Hst & Hun & _).
  pose proof (fresh_claim_has_no_attestation e d Inv Hfresh) as Hnone.
  constructor; unfold attestations; rewrite ?Hc, ?Hv.
  - apply Inv.
  - intros v Hin. rewrite map_app, in_app_iff. left. now apply inv_refers.
  - intros c' Hin Hver. apply in_app_or in Hin as [Hin | [<- | []]].
    + now apply (inv_sealed d Inv).
    + rewrite Hst in Hver. discriminate.
  - intros c' Hin Hver. apply in_app_or in Hin as [Hin | [<- | []]].
    + now apply (inv_open d Inv).
    + repeat split; try apply Hun; try assumption.
      rewrite Hid. fold (attestations d (gen_id e)). rewrite Hnone. simpl. lia.
Qed.

Lemma invariant_one_verification_more e d d' :
  ledger_invariant d -> one_verification_more e d d' -> ledger_invariant d'.
Proof.
  intros Inv (claim & v & Hfind & Hnv & Hvalid & Hv & Hbranch).
  apply find_claim_In in Hfind as [Hclaim Hcid].
  destruct (inv_open d Inv claim Hclaim Hnv) as (_ & _ & Hlt).
  rewrite Hcid in Hlt.
  assert (Hval' : forall u, In u (verifications d') -> v_is_valid u = true).
  { intros u. rewrite Hv, in_app_iff. intros [Hu | [<- | []]]; [|exact Hvalid].
    now apply (inv_valid d Inv). }
  pose proof (valid_verifications_attestations d' (v_claim_id v) Hval') as Hcount.
  pose proof (attestations_recorded d d' v) as Hatt.
  rewrite (Hatt (v_claim_id v) Hv), String.eqb_refl, length_app in Hcount.
  simpl in Hcount.
  assert (Hother : forall x, x <> v_claim_id v -> attestations d' x = attestations d x).
  { intros x Hx. rewrite (Hatt x Hv).
    destruct (String.eqb_spec (v_claim_id v) x); [congruence | apply app_nil_r]. }
  assert (Hsame : List.length (attestations d' (v_claim_id v))
                  = S (List.length (attestations d (v_claim_id v)))).
  { rewrite (Hatt _ Hv), String.eqb_refl, length_app. simpl. lia. }
  destruct Hbranch as [[Hq Hc] | [Hq Hc]].
  - (* below the quorum: the claims are as they were *)
    constructor; rewrite ?Hc.
    + exact Hval'.
    + intros u. rewrite Hv, in_app_iff. intros [Hu | [<- | []]].
      * now apply (inv_refers d Inv).
      * rewrite <- Hcid. now apply in_map.
    + intros c Hin Hver.
      destruct (string_dec (wc_id c) (v_claim_id v)) as [E | N].
      * pose proof (inv_sealed d Inv c Hin Hver) as H3. rewrite E in H3. lia.
      * rewrite (Hother _ N). now apply (inv_sealed d Inv).
    + intros c Hin Hver.
      destruct (inv_open d Inv c Hin Hver) as (Hp & Hu & Hl).
      repeat split; try apply Hu; try assumption.
      destruct (string_dec (wc_id c) (v_claim_id v)) as [E | N].
      * rewrite E, Hsame. lia.
      * now rewrite (Hother _ N).
  - (* the quorum is met: every row of the claim is sealed *)
    constructor; rewrite ?Hc.
    + exact Hval'.
    + intros u. rewrite map_wc_id_seal, Hv, in_app_iff. intros [Hu | [<- | []]].
      * now apply (inv_refers d Inv).
      * rewrite <- Hcid. now apply in_map.
    + intros c Hin Hver. apply In_update_where in Hin as (c0 & Hin & ->).
      destruct (String.eqb_spec (wc_id c0) (v_claim_id v)) as [E | N].
      * simpl. rewrite E, Hsame. lia.
      * rewrite (Hother _ N). now apply (inv_sealed d Inv).
    + intros c Hin Hver. apply In_update_where in Hin as (c0 & Hin & ->).
      destruct (String.eqb_spec (wc_id c0) (v_claim_id v)) as [E | N].
      * exfalso. apply Hver. reflexivity.
      * destruct (inv_open d Inv c0 Hin Hver) as (Hp & Hu & Hl).
        repeat split; try apply Hu; try assumption.
        now rewrite (Hother _ N).
Qed.

Lemma invariant_empty : ledger_invariant empty_db.
Proof. constructor; simpl; intros; contradiction. Qed.

Lemma invariant_reachable_from d0 d :
  ledger_invariant d0 -> reachable_from d0 d -> ledger_invariant d.
Proof.
  intros Inv0 Hreach. induction Hreach as [|e r d Hreach IH Hfresh]; [exact Inv0|].
  destruct (handle_effect e r d) as [H | [H | H]].
  - now apply (invariant_same_records d).
  - now apply (invariant_one_claim_more e d).
  - now apply (invariant_one_verification_more e d).
Qed.

Lemma invariant_reachable d : reachable d -> ledger_invariant d.
Proof. apply invariant_reachable_from, invariant_empty. Qed.

(** ** No two claims of a worker under one text of a date *)

Lemma claim_keys_step e r d :
  NoDup (map claim_key (work_claims d)) ->
  NoDup (map claim_key (work_claims (fst (handle e r d)))).
Proof.
  intros Hnd. destruct (handle_effect e r d) as [[Hc _] | [H | H]].
  - now rewrite Hc.
  - destruct H as (c & Hc & _ & _ & _ & _ & Hnone).
    rewrite Hc, map_app. apply NoDup_snoc; [exact Hnd|].
    intros Hin. apply in_map_iff in Hin as (x & E & Hx).
    apply (find_none _ _ Hnone) in Hx. unfold claim_on_date in Hx.
    injection E as Ew Ed. now rewrite Ew, Ed, !String.eqb_refl in Hx.
  - destruct H as (claim & v & _ & _ & _ & _ & [[_ Hc] | [_ Hc]]); rewrite Hc.
    + exact Hnd.
    + unfold update_where. rewrite map_map.
      erewrite map_ext; [exact Hnd|]. intros c. now destruct (String.eqb _ _).
Qed.

Lemma claim_keys_reachable d :
  reachable d -> NoDup (map claim_key (work_claims d)).
Proof.
  unfold reachable. intros Hreach.
  induction Hreach as [|e r d Hreach IH Hfresh]; [constructor|].
  now apply claim_keys_step.
Qed.

End BackendFacts.

(** * The peer-attestation quorum *)

Section Quorum.

Import Backend.
Local Open Scope string_scope.
Local Open Scope list_scope.

Lemma find_worker_In d id w :
  find_worker d id = Some w -> In w (workers d) /\ w_id w = id.
Proof.
  unfold find_worker. intros H. apply find_some in H as [Hin Heq].
  split; [exact Hin | now apply String.eqb_eq].
Qed.

(** A verification that goes through, spelled out: the checks it passed, the
    row it added, and the two ways it ends. *)
Lemma verify_claim_success e req w d d' r :
  verify_claim e req w d = (d', r) -> is_failure r = false ->
  exists claim,
    find_claim d (r_claim_id req) = Some claim
    /\ wc_worker_id claim <> w
    /\ wc_status claim <> "verified"
    /\ verifications d' = verifications d ++
         [{| v_id := gen_id e; v_claim_id := r_claim_id req; v_verifier_id := w;
             v_signature := gen_signature e;
             v_gps_distance_m := or_null (r_gps_distance_m req);
             v_is_valid := true |}]
    /\ ((valid_verifications d' (r_claim_id req) < 3)%Z
        /\ r = VerificationCounted (gen_id e) (valid_verifications d' (r_claim_id req))
        /\ work_claims d' = work_claims d
        /\ workers d' =
           update_where (fun x => String.eqb (w_id x) w)
             (fun x => set_verification_depth x (verification_depth x + 1)%Z)
             (workers d)
        \/ (3 <= valid_verifications d' (r_claim_id req))%Z
           /\ r = ClaimSealed (gen_id e) (gen_tx_hash e) (gen_ipfs_hash e)
           /\ work_claims d' =
              update_where (fun c => String.eqb (wc_id c) (r_claim_id req))
                           (seal_row e) (work_claims d)
           /\ workers d' =
              update_where (fun x => String.eqb (w_id x) (wc_worker_id claim))
                (fun x => set_days_and_reputation x (total_days_worked x + 1)%Z
                            (Qmin 100 (reputation_score x + 0.5)))
                (update_where (fun x => String.eqb (w_id x) w)
                   (fun x => set_verification_depth x (verification_depth x + 1)%Z)
                   (workers d))).
Proof.
  unfold verify_claim.
  destruct (find_claim d (r_claim_id req)) as [claim|] eqn:Hfind;
    [|intros [= <- <-]; discriminate].
  destruct (String.eqb (wc_worker_id claim) w) eqn:Hself;
    [intros [= <- <-]; discriminate|].
  destruct (String.eqb (wc_status claim) "verified") eqn:Hst;
    [intros [= <- <-]; discriminate|].
  destruct (find _ (verifications d)); [intros [= <- <-]; discriminate|].
  destruct (gps_too_far _); [intros [= <- <-]; discriminate|].
  cbv zeta. apply String.eqb_neq in Hself, Hst.
  destruct (3 <=? _)%Z eqn:Hq; intros [= <- <-] _; exists claim;
    (split; [reflexivity|]); (split; [exact Hself|]); (split; [exact Hst|]);
    (split; [reflexivity|]).
  - right. split; [apply Z.leb_le; exact Hq|]. repeat split.
  - left. split; [apply Z.leb_gt; exact Hq|]. repeat split.
Qed.

Lemma find_worker_update d id q f w :
  (forall x, w_id (f x) = w_id x) ->
  find (fun x => String.eqb (w_id x) id) (workers d) = Some w ->
  find (fun x => String.eqb (w_id x) id) (update_where q f (workers d))
  = Some (if q w then f w else w).
Proof.
  intros Hid Hfind. rewrite find_update_where, Hfind; [reflexivity|].
  intros x. now rewrite Hid.
Qed.

(** C2 (sealing effects).  When a verification goes through and brings the
    count of valid verifications of the claim to the quorum of 3 or beyond,
    the handler answers [claim_sealed: true] with the transaction and content
    hashes, the claim reads 'verified' and carries the settlement (content
    hash, transaction hash, block number), and the claimant's row has one
    more verified day and a reputation raised by 0.5, capped at 100. *)
Theorem sealing_effects e req verifier d d' r claim :
  find_claim d (r_claim_id req) = Some claim ->
  verify_claim e req verifier d = (d', r) ->
  is_failure r = false ->
  (3 <= valid_verifications d' (r_claim_id req))%Z ->
  r = ClaimSealed (gen_id e) (gen_tx_hash e) (gen_ipfs_hash e)
  /\ (exists sealed_claim,
        find_claim d' (r_claim_id req) = Some sealed_claim
        /\ wc_status sealed_claim = "verified"
        /\ wc_ipfs_hash sealed_claim = Some (gen_ipfs_hash e)
        /\ wc_tx_hash sealed_claim = Some (gen_tx_hash e)
        /\ wc_block_number sealed_claim = Some (gen_block_number e))
  /\ (forall owner, find_worker d (wc_worker_id claim) = Some owner ->
      exists owner',
        find_worker d' (wc_worker_id claim) = Some owner'
        /\ total_days_worked owner' = (total_days_worked owner + 1)%Z
        /\ reputation_score owner' = Qmin 100 (reputation_score owner + 0.5)
        /\ (reputation_score owner' <= 100)%Q).
Proof.
  intros Hfind Hrun Hok Hquorum.
  destruct (verify_claim_success e req verifier d d' r Hrun Hok)
    as (claim0 & Hfind0 & Hself & _ & _ & Hend).
  rewrite Hfind in Hfind0. injection Hfind0 as <-.
  destruct Hend as [(Hlt & _) | (_ & -> & Hclaims & Hworkers)]; [lia|].
  split; [reflexivity|]. split.
  - exists (seal_row e claim). split; [|repeat split].
    unfold find_claim in *. rewrite Hclaims, find_update_where, Hfind by reflexivity.
    simpl. apply find_some in Hfind as [_ ->]. reflexivity.
  - intros owner Howner. unfold find_worker in *.
    pose proof (find_some _ _ Howner) as [_ Hid]. apply String.eqb_eq in Hid.
    eexists. split.
    + rewrite Hworkers.
      rewrite find_update_where by reflexivity.
      rewrite (find_worker_update d _ _ _ owner) by (reflexivity || assumption).
      simpl. rewrite Hid.
      destruct (String.eqb_spec (wc_worker_id claim) verifier); [contradiction|].
      rewrite Hid, String.eqb_refl. reflexivity.
    + simpl. repeat split. apply Q.le_min_l.
Qed.

Lemma sealing_effects_witness :
  snd (verify_claim (Scenario.env_of "v3") (Scenario.attest_body "c1") "C"
         Scenario.attested_twice)
  = ClaimSealed "v3" "0xseal" "Qmseal".
Proof.
  refine (proj1 (sealing_effects (Scenario.env_of "v3") (Scenario.attest_body "c1")
                   "C" Scenario.attested_twice _ _ _ _ _ _ _)).
  - vm_compute. reflexivity.
  - apply surjective_pairing.
  - vm_compute. reflexivity.
  - vm_compute. discriminate.
Defined.

(** ** Sealed claims *)

Lemma find_claim_of_row d c :
  In c (work_claims d) ->
  exists c0, find_claim d (wc_id c) = Some c0.
Proof.
  intros Hin. unfold find_claim.
  destruct (find _ (work_claims d)) as [c0|] eqn:Hfind; [now exists c0|].
  pose proof (find_none _ _ Hfind c Hin) as H. simpl in H.
  now rewrite String.eqb_refl in H.
Qed.

(** Under the invariant the rows that share an identifier are sealed together. *)
Lemma sealed_by_id d c c0 :
  ledger_invariant d ->
  In c (work_claims d) -> wc_status c = "verified" ->
  In c0 (work_claims d) -> wc_id c0 = wc_id c ->
  wc_status c0 = "verified".
Proof.
  intros Inv Hin Hver Hin0 Hid.
  destruct (string_dec (wc_status c0) "verified") as [E | N]; [exact E|].
  destruct (inv_open d Inv c0 Hin0 N) as (_ & _ & Hlt).
  pose proof (inv_sealed d Inv c Hin Hver) as H3.
  rewrite Hid in Hlt. lia.
Qed.

Lemma verify_sealed_claim_fails e req w d c :
  ledger_invariant d ->
  In c (work_claims d) -> wc_status c = "verified" -> r_claim_id req = wc_id c ->
  verify_claim e req w d = (d, Failure SelfVerification)
  \/ verify_claim e req w d = (d, Failure AlreadySealed).
Proof.
  intros Inv Hin Hver Hreq. unfold verify_claim. rewrite Hreq.
  destruct (find_claim_of_row d c Hin) as [c0 Hfind]. rewrite Hfind.
  apply find_claim_In in Hfind as [Hin0 Hid0].
  rewrite (sealed_by_id d c c0 Inv Hin Hver Hin0 Hid0).
  destruct (String.eqb (wc_worker_id c0) w); [left | right]; reflexivity.
Qed.

Lemma sealed_claim_step e r d c :
  ledger_invariant d ->
  In c (work_claims d) -> wc_status c = "verified" ->
  attestations (fst (handle e r d)) (wc_id c) = attestations d (wc_id c)
  /\ exists c', In c' (work_claims (fst (handle e r d)))
                /\ wc_id c' = wc_id c /\ wc_status c' = "verified".
Proof.
  intros Inv Hin Hver.
  destruct (handle_effect e r d) as [[Hc Hv] | [H | H]].
  - split; [unfold attestations; now rewrite Hv|].
    exists c. rewrite Hc. auto.
  - destruct H as (cnew & Hc & Hv & _).
    split; [unfold attestations; now rewrite Hv|].
    exists c. rewrite Hc, in_app_iff. auto.
  - destruct H as (claim & v & Hfind & Hnv & _ & Hv & Hbranch).
    apply find_claim_In in Hfind as [Hin0 Hid0].
    assert (Hneq : v_claim_id v <> wc_id c).
    { intros E. apply Hnv. apply (sealed_by_id d c claim); congruence. }
    split.
    + rewrite (attestations_recorded d _ v _ Hv).
      destruct (String.eqb_spec (v_claim_id v) (wc_id c)); [contradiction|].
      apply app_nil_r.
    + destruct Hbranch as [[_ Hc] | [_ Hc]]; rewrite Hc.
      * exists c. auto.
      * exists (if String.eqb (wc_id c) (v_claim_id v) then seal_row e c else c).
        split; [unfold update_where; apply in_map_iff; now exists c|].
        destruct (String.eqb (wc_id c) (v_claim_id v)); auto.
Qed.

Lemma sealed_claim_stays d d' c :
  ledger_invariant d ->
  In c (work_claims d) -> wc_status c = "verified" ->
  reachable_from d d' ->
  attestations d' (wc_id c) = attestations d (wc_id c)
  /\ exists c', In c' (work_claims d') /\ wc_id c' = wc_id c
                /\ wc_status c' = "verified".
Proof.
  intros Inv Hin Hver Hreach.
  induction Hreach as [|e r d1 Hreach IH Hfresh].
  - split; [reflexivity | now exists c].
  - destruct IH as (Hatt & c1 & Hin1 & Hid1 & Hver1).
    pose proof (invariant_reachable_from d d1 Inv Hreach) as Inv1.
    destruct (sealed_claim_step e r d1 c1 Inv1 Hin1 Hver1) as (Hatt' & c2 & H2 & Hid2 & Hv2).
    rewrite Hid1 in Hatt'. split; [congruence|].
    exists c2. repeat split; congruence.
Qed.

(** The sealed claims of the backend are frozen at the quorum count.  In a
    ledger produced by the routes from the empty one, a claim that reads
    'verified' has exactly three verifications on record; a further POST
    /api/verify on it is refused and leaves the ledger as it is; and in every
    later ledger the claim has the same verifications and still reads
    'verified'. *)
Theorem sealed_claims_are_frozen d c :
  reachable d -> In c (work_claims d) -> wc_status c = "verified" ->
  List.length (attestations d (wc_id c)) = 3%nat
  /\ (forall e auth req, r_claim_id req = wc_id c ->
        is_failure (snd (post_api_verify e auth req d)) = true
        /\ fst (post_api_verify e auth req d) = d)
  /\ (forall d', reachable_from d d' ->
        attestations d' (wc_id c) = attestations d (wc_id c)
        /\ forall c', In c' (work_claims d') -> wc_id c' = wc_id c ->
                      wc_status c' = "verified").
Proof.
  intros Hreach Hin Hver.
  pose proof (invariant_reachable d Hreach) as Inv.
  split; [now apply (inv_sealed d Inv)|]. split.
  - intros e auth req Hreq. unfold post_api_verify.
    destruct auth as [| | w]; simpl; try (split; reflexivity).
    destruct (verify_sealed_claim_fails e req w d c Inv Hin Hver Hreq) as [-> | ->];
      split; reflexivity.
  - intros d' Hlater.
    destruct (sealed_claim_stays d d' c Inv Hin Hver Hlater) as (Hatt & c1 & Hin1 & Hid1 & Hver1).
    split; [exact Hatt|].
    intros c' Hin' Hid'.
    apply (sealed_by_id d' c1 c'); try assumption; try congruence.
    now apply (invariant_reachable_from d d').
Qed.

(** ** Running the routes on the concrete ledgers *)

Lemma reachable_run l d0 d :
  Scenario.fresh_run l d = true -> reachable_from d0 d ->
  reachable_from d0 (Scenario.run l d).
Proof.
  revert d. induction l as [|[i r] l IH]; intros d Hfresh Hreach; [exact Hreach|].
  simpl in Hfresh. apply andb_true_iff in Hfresh as [Hnew Hrest].
  apply (IH _ Hrest). apply reach_step; [exact Hreach|].
  intros Hin. apply negb_true_iff in Hnew.
  assert (existsb (String.eqb (gen_id (Scenario.env_of i))) (used_ids d) = true)
    as Hex; [|simpl in Hex, Hnew; congruence].
  apply existsb_exists. eexists. split; [exact Hin | apply String.eqb_refl].
Qed.

Lemma reachable_sealed : reachable Scenario.sealed.
Proof.
  unfold reachable, Scenario.sealed, Scenario.attested_twice, Scenario.filed,
    Scenario.crew.
  repeat (apply reachable_run; [vm_compute; reflexivity|]). constructor.
Qed.

Lemma sealed_claims_are_frozen_witness :
  List.length (attestations Scenario.sealed "c1") = 3%nat.
Proof.
  refine (proj1 (sealed_claims_are_frozen Scenario.sealed Scenario.sealed_c1 _ _ _)).
  - exact reachable_sealed.
  - vm_compute. left. reflexivity.
  - reflexivity.
Defined.

(** ** Below the quorum *)

(** C1 (quorum exactness), at the input where the handler departs from it.
    P's claim is pending and A, a registered peer, attests it from 20 m.  The
    handler answers [claim_sealed: false, verifications_so_far: 1] and records
    the verification, but the claims table is what it was: the claim still
    reads 'pending', not partially verified. *)
Example first_attestation_leaves_claim_pending :
  snd (verify_claim (Scenario.env_of "v1") (Scenario.attest_body "c1") "A"
         Scenario.filed)
  = VerificationCounted "v1" 1
  /\ List.length (attestations
       (fst (verify_claim (Scenario.env_of "v1") (Scenario.attest_body "c1") "A"
               Scenario.filed)) "c1") = 1%nat
  /\ work_claims (fst (verify_claim (Scenario.env_of "v1") (Scenario.attest_body "c1")
                         "A" Scenario.filed))
     = work_claims Scenario.filed
  /\ option_map wc_status
       (find_claim (fst (verify_claim (Scenario.env_of "v1")
                           (Scenario.attest_body "c1") "A" Scenario.filed)) "c1")
     = Some "pending".
Proof. vm_compute. repeat split. Qed.

(** C6 (verifier reward), at the input where the code departs from it.  In the
    backend A's attestation raises A's verification depth and leaves A's
    reputation at 50.  In the contract the attestation of worker 2, whose
    reputation stands at 100.00, adds 0.50 on top of it. *)
Example attestation_and_verifier_reputation :
  option_map reputation_score (find_worker Scenario.filed "A") = Some 50%Q
  /\ option_map reputation_score
       (find_worker (fst (verify_claim (Scenario.env_of "v1")
                            (Scenario.attest_body "c1") "A" Scenario.filed)) "A")
     = Some 50%Q
  /\ option_map verification_depth
       (find_worker (fst (verify_claim (Scenario.env_of "v1")
                            (Scenario.attest_body "c1") "A" Scenario.filed)) "A")
     = Some 1%Z
  /\ match Contract.verifyClaim Scenario.hash 2%Z 1000%Z 5%Z 7%Z
             (Scenario.chain Contract.Pending) with
     | Contract.Ok s =>
         Contract.reputationScore (Contract.workers s 2%Z) = 10050%Z
     | _ => False
     end.
Proof. vm_compute. repeat split. Qed.

(** ** Attesting a claim that is sealed or rejected *)

Lemma verifyClaim_terminal keccak256 sender ts bn claimId s :
  Contract.status (Contract.claims s claimId) = Contract.Verified
  \/ Contract.status (Contract.claims s claimId) = Contract.Rejected ->
  exists reason,
    Contract.verifyClaim keccak256 sender ts bn claimId s = Contract.Revert reason.
Proof.
  intros Hst. unfold Contract.verifyClaim.
  destruct (negb _); [eauto|].
  destruct (_ =? 0)%Z; [eauto|].
  destruct (_ =? sender)%Z; [eauto|].
  destruct (Contract.hasVerified s claimId sender); [eauto|].
  destruct Hst as [-> | ->]; simpl; eauto.
Qed.

Lemma verifyClaim_terminal_reason keccak256 sender ts bn claimId s :
  Contract.registeredWorkers s sender = true ->
  Contract.worker (Contract.claims s claimId) <> 0%Z ->
  Contract.worker (Contract.claims s claimId) <> sender ->
  Contract.hasVerified s claimId sender = false ->
  (Contract.status (Contract.claims s claimId) = Contract.Verified ->
   Contract.verifyClaim keccak256 sender ts bn claimId s
   = Contract.Revert "Already sealed")
  /\ (Contract.status (Contract.claims s claimId) = Contract.Rejected ->
      Contract.verifyClaim keccak256 sender ts bn claimId s
      = Contract.Revert "Claim rejected").
Proof.
  intros Hreg Hfound Hother Hnew. unfold Contract.verifyClaim.
  rewrite Hreg, Hnew. simpl.
  apply Z.eqb_neq in Hfound, Hother. rewrite Hfound, Hother.
  split; intros ->; reflexivity.
Qed.

(** C4 (attest on a terminal claim fails).  Backend: POST /api/verify on a
    claim that reads 'verified' is refused and leaves the ledger as it is;
    the refusal is 'Claim already fully verified' whenever the caller is not
    the claimant (who is told 'Cannot verify own claim').  Contract: on a
    claim whose status is Verified or Rejected [verifyClaim] reverts, so that
    the storage stays as it was; for a registered peer other than the
    claimant who has not verified the claim the reason is "Already sealed" for
    Verified and "Claim rejected" for Rejected.  The backend stores no status
    other than 'pending' and 'verified'. *)
Theorem attest_on_terminal_claim_fails :
  (forall e req w d claim,
      find_claim d (r_claim_id req) = Some claim ->
      wc_status claim = "verified" ->
      fst (verify_claim e req w d) = d
      /\ is_failure (snd (verify_claim e req w d)) = true
      /\ (wc_worker_id claim <> w ->
          snd (verify_claim e req w d) = Failure AlreadySealed))
  /\ (forall keccak256 sender ts bn claimId s,
      Contract.status (Contract.claims s claimId) = Contract.Verified
      \/ Contract.status (Contract.claims s claimId) = Contract.Rejected ->
      (exists reason,
          Contract.verifyClaim keccak256 sender ts bn claimId s
          = Contract.Revert reason)
      /\ (Contract.registeredWorkers s sender = true ->
          Contract.worker (Contract.claims s claimId) <> 0%Z ->
          Contract.worker (Contract.claims s claimId) <> sender ->
          Contract.hasVerified s claimId sender = false ->
          (Contract.status (Contract.claims s claimId) = Contract.Verified ->
           Contract.verifyClaim keccak256 sender ts bn claimId s
           = Contract.Revert "Already sealed")
          /\ (Contract.status (Contract.claims s claimId) = Contract.Rejected ->
              Contract.verifyClaim keccak256 sender ts bn claimId s
              = Contract.Revert "Claim rejected"))).
Proof.
  split.
  - intros e req w d claim Hfind Hver. unfold verify_claim.
    rewrite Hfind, Hver.
    destruct (String.eqb_spec (wc_worker_id claim) w) as [E | N]; simpl.
    + repeat split. intros N. contradiction.
    + repeat split.
  - intros keccak256 sender ts bn claimId s Hst. split.
    + now apply verifyClaim_terminal.
    + intros Hreg Hfound Hother Hnew. now apply verifyClaim_terminal_reason.
Qed.

Lemma attest_on_terminal_claim_fails_witness :
  snd (verify_claim (Scenario.env_of "v4") (Scenario.attest_body "c1") "A"
         Scenario.sealed) = Failure AlreadySealed
  /\ Contract.verifyClaim Scenario.hash 2%Z 1000%Z 5%Z 7%Z (Scenario.chain Contract.Rejected)
     = Contract.Revert "Claim rejected".
Proof.
  split.
  - refine (proj2 (proj2 (proj1 attest_on_terminal_claim_fails
              (Scenario.env_of "v4") (Scenario.attest_body "c1") "A" Scenario.sealed
              Scenario.sealed_c1 _ _)) _).
    + vm_compute. reflexivity.
    + reflexivity.
    + discriminate.
  - refine (proj2 (proj2 (proj2 attest_on_terminal_claim_fails
              Scenario.hash 2%Z 1000%Z 5%Z 7%Z (Scenario.chain Contract.Rejected)
              (or_intror eq_refl)) _ _ _ _) _).
    + reflexivity.
    + vm_compute. discriminate.
    + vm_compute. discriminate.
    + reflexivity.
    + reflexivity.
Defined.

End Quorum.

(** * The claim ledger *)

Section Ledger.

Import Backend.
Local Open Scope string_scope.
Local Open Scope list_scope.

(** A submission that goes through, spelled out. *)
Lemma submit_claim_success e req w d d' r :
  submit_claim e req w d = (d', r) -> is_failure r = false ->
  passes_field_checks req = true
  /\ find (claim_on_date w (claim_date e req)) (work_claims d) = None
  /\ exists c,
       work_claims d' = work_claims d ++ [c]
       /\ wc_id c = gen_id e /\ wc_worker_id c = w
       /\ wc_date c = claim_date e req /\ wc_status c = "pending"
       /\ Some (wc_hours c) = r_hours req
       /\ wc_anomaly_score c = calcAnomalyScore e d w (wc_hours c) (claim_date e req)
       /\ r = ClaimAccepted (gen_id e) (claim_date e req) (wc_hours c) (wc_task c)
                "pending" (wc_anomaly_score c).
Proof.
  unfold submit_claim, passes_field_checks, claim_date.
  destruct (r_hours req) as [hours|]; [|intros [= <- <-]; discriminate].
  destruct (r_task req) as [task|]; [|intros [= <- <-]; discriminate].
  destruct (falsy_num (Some hours)); [intros [= <- <-]; discriminate|].
  destruct (falsy_str (Some task)); [intros [= <- <-]; discriminate|].
  simpl orb. cbv iota.
  destruct (Qgt_bool hours 16); [intros [= <- <-]; discriminate|].
  destruct (find _ (work_claims d)) eqn:Hfind; [intros [= <- <-]; discriminate|].
  cbv zeta. intros [= <- <-] _.
  split; [reflexivity|]. split; [reflexivity|].
  eexists. destruct (Qgt_bool (calcAnomalyScore _ _ _ _ _) (js 0.65)); simpl;
    (split; [reflexivity|]); repeat split.
Qed.

Lemma claims_on_kept e r d w date :
  claims_on d w date <> [] ->
  List.length (claims_on (fst (handle e r d)) w date)
  = List.length (claims_on d w date).
Proof.
  intros Hsome. unfold claims_on in *.
  destruct (handle_effect e r d) as [[Hc _] | [H | H]].
  - now rewrite Hc.
  - destruct H as (c & Hc & _ & _ & _ & _ & Hnone).
    rewrite Hc, filter_app. simpl.
    destruct (claim_on_date w date c) eqn:Hkey; [|now rewrite app_nil_r].
    exfalso. apply Hsome. apply find_none_filter.
    unfold claim_on_date in Hkey. apply andb_true_iff in Hkey as [Hw Hd].
    apply String.eqb_eq in Hw, Hd. now rewrite <- Hw, <- Hd.
  - destruct H as (claim & v & _ & _ & _ & _ & [[_ Hc] | [_ Hc]]); rewrite Hc.
    + reflexivity.
    + rewrite filter_update_where by reflexivity. apply length_update_where.
Qed.

Lemma claims_on_later d d' w date :
  reachable_from d d' ->
  List.length (claims_on d w date) = 1%nat ->
  List.length (claims_on d' w date) = 1%nat.
Proof.
  intros Hreach H1. induction Hreach as [|e r d1 Hreach IH Hfresh]; [exact H1|].
  rewrite claims_on_kept; [exact IH|].
  intros E. rewrite E in IH. discriminate.
Qed.

Lemma submit_on_taken_date e req w d :
  claims_on d w (claim_date e req) <> [] ->
  fst (submit_claim e req w d) = d
  /\ is_failure (snd (submit_claim e req w d)) = true
  /\ (passes_field_checks req = true ->
      snd (submit_claim e req w d) = Failure DuplicateClaim).
Proof.
  intros Hsome. unfold submit_claim, passes_field_checks. fold (claim_date e req).
  destruct (r_hours req) as [hours|]; [|repeat split; discriminate].
  destruct (r_task req) as [task|];
    [|repeat split; rewrite andb_false_r; discriminate].
  destruct (falsy_num (Some hours)); [repeat split; discriminate|].
  destruct (falsy_str (Some task)); [repeat split; discriminate|].
  simpl orb. cbv iota.
  destruct (Qgt_bool hours 16); [repeat split; discriminate|].
  destruct (find _ (work_claims d)) eqn:Hfind; [repeat split|].
  exfalso. apply Hsome. now apply find_none_filter.
Qed.

(** One claim per worker and text of a date.  Once a submission of worker
    [w] under a text has gone through, every later ledger holds exactly one
    claim of [w] under that text, and a further submission of [w] under it
    is refused and leaves the ledger as it is; the refusal is the 409 'Claim
    already submitted for this date' whenever the body passes the field checks
    that come first. *)
Theorem one_claim_per_worker_and_text e req w d d1 r :
  submit_claim e req w d = (d1, r) -> is_failure r = false ->
  forall d2, reachable_from d1 d2 ->
    List.length (claims_on d2 w (claim_date e req)) = 1%nat
    /\ forall e' req', claim_date e' req' = claim_date e req ->
         fst (submit_claim e' req' w d2) = d2
         /\ is_failure (snd (submit_claim e' req' w d2)) = true
         /\ (passes_field_checks req' = true ->
             snd (submit_claim e' req' w d2) = Failure DuplicateClaim
             /\ http_status DuplicateClaim = 409%Z).
Proof.
  intros Hrun Hok d2 Hlater.
  destruct (submit_claim_success e req w d d1 r Hrun Hok)
    as (_ & Hnone & c & Hc & _ & Hw & Hd & _).
  assert (H1 : List.length (claims_on d1 w (claim_date e req)) = 1%nat).
  { unfold claims_on. rewrite Hc, filter_app, (find_none_filter _ _ Hnone).
    simpl. unfold claim_on_date. now rewrite Hw, Hd, !String.eqb_refl. }
  pose proof (claims_on_later d1 d2 w _ Hlater H1) as H2.
  split; [exact H2|].
  intros e' req' Hdate.
  destruct (submit_on_taken_date e' req' w d2) as (Hsame & Hfail & Hdup).
  { rewrite Hdate. intros E. rewrite E in H2. discriminate. }
  repeat split; auto.
Qed.

Lemma one_claim_per_worker_and_text_witness :
  List.length (claims_on Scenario.sealed "P" "2026-01-15") = 1%nat
  /\ snd (submit_claim (Scenario.env_of "c9") (Scenario.claim_body 6 "2026-01-15") "P"
            Scenario.sealed) = Failure DuplicateClaim.
Proof.
  pose proof (one_claim_per_worker_and_text
                (Scenario.env_of "c1") (Scenario.claim_body 8 "2026-01-15") "P"
                Scenario.crew Scenario.filed _ (surjective_pairing _) eq_refl
                Scenario.sealed) as H.
  destruct H as [H1 H2].
  - unfold Scenario.sealed, Scenario.attested_twice.
    do 2 (apply reachable_run; [vm_compute; reflexivity|]). constructor.
  - split; [exact H1|].
    apply (H2 (Scenario.env_of "c9") (Scenario.claim_body 6 "2026-01-15") eq_refl).
    reflexivity.
Defined.

(** C3 (one claim per participant per date), at the input where the handler
    departs from it.  P has a claim for 15 January 2026, filed under the
    text 2026-01-15.  A submission of P under 2026-1-15, which names the same
    day, goes through: the duplicate check ('Check duplicate for same day')
    compares the texts.  The ledger, one that the routes produce, then
    holds two claims of P for that day.  Under the text 2026-01-15 itself
    the submission is refused with the 409. *)
Example same_day_is_claimed_twice :
  reachable Scenario.filed_twice
  /\ map claim_key (work_claims Scenario.filed) = [("P", "2026-01-15")]
  /\ Calendar.named "2026-1-15" = Calendar.named "2026-01-15"
  /\ Calendar.named "2026-01-15"
     = Some {| Calendar.year := 2026; Calendar.month := 1; Calendar.day := 15 |}
  /\ submit_claim (Scenario.env_of "c2") (Scenario.claim_body 8 "2026-1-15") "P"
       Scenario.filed
     = (Scenario.filed_twice,
        ClaimAccepted "c2" "2026-1-15" 8 "Tea harvesting Row 12" "pending" 0)
  /\ map wc_id (claims_of_day Scenario.filed_twice "P"
                  {| Calendar.year := 2026; Calendar.month := 1; Calendar.day := 15 |})
     = ["c1"; "c2"]
  /\ submit_claim (Scenario.env_of "c3") (Scenario.claim_body 8 "2026-01-15") "P"
       Scenario.filed
     = (Scenario.filed, Failure DuplicateClaim)
  /\ http_status DuplicateClaim = 409%Z.
Proof.
  split; [|vm_compute; repeat split].
  unfold Scenario.filed_twice, Scenario.filed, Scenario.crew.
  do 3 (apply reachable_run; [vm_compute; reflexivity|]). constructor.
Qed.

(** C5 (hours validation), at the input where the handler departs from it.
    P files minus five hours for a day without a claim of P's: the body passes
    both checks ([!hours] is false for a number other than 0, and -5 > 16 is
    false), and the claim is stored, pending, with its -5 hours.  Zero hours
    and seventeen hours are refused with a 400 and nothing is written. *)
Example negative_hours_are_accepted :
  snd (submit_claim (Scenario.env_of "c9") (Scenario.claim_body (-5) "2026-01-16") "P"
         Scenario.filed)
  = ClaimAccepted "c9" "2026-01-16" (-5) "Tea harvesting Row 12" "pending" 0
  /\ option_map (fun c => (wc_hours c, wc_status c))
       (find_claim (fst (submit_claim (Scenario.env_of "c9")
                           (Scenario.claim_body (-5) "2026-01-16") "P" Scenario.filed)) "c9")
     = Some ((-5)%Q, "pending")
  /\ submit_claim (Scenario.env_of "c9") (Scenario.claim_body 0 "2026-01-16") "P"
       Scenario.filed = (Scenario.filed, Failure MissingFields)
  /\ submit_claim (Scenario.env_of "c9") (Scenario.claim_body 17 "2026-01-16") "P"
       Scenario.filed = (Scenario.filed, Failure HoursRejected).
Proof. vm_compute. repeat split. Qed.

End Ledger.

(** * The anomaly detector *)

Section Detector.

Import Backend.
Local Open Scope string_scope.
Local Open Scope list_scope.

(** The four signals on a ledger where P has filed four hours on each of the
    last five days: the routine value again (the double of 0.2), fifteen
    hours (the double of 0.4 + 0.25, which is the double of 0.65), seventeen
    hours (0.4 + 0.35 + 0.25 is 1); and the doubles of 0.2, 0.65 and
    0.4 + 0.25 + 0.2. *)
Example anomaly_score_examples :
  (calcAnomalyScore (Scenario.env_of "x") Scenario.routine "P" 4 "2026-01-15"
   == 3602879701896397 # 18014398509481984)%Q
  /\ (calcAnomalyScore (Scenario.env_of "x") Scenario.routine "P" 15 "2026-01-15"
      == 5854679515581645 # 9007199254740992)%Q
  /\ (calcAnomalyScore (Scenario.env_of "x") Scenario.routine "P" 17 "2026-01-15"
      == 1)%Q
  /\ (calcAnomalyScore (Scenario.env_of "x") Scenario.crew "P" 8 "2026-01-15"
      == 0)%Q
  /\ (js 0.2 == 3602879701896397 # 18014398509481984)%Q
  /\ (js 0.65 == 5854679515581645 # 9007199254740992)%Q
  /\ (top_score == 7656119366529844 # 9007199254740992)%Q.
Proof. vm_compute. repeat split. Qed.

(** C7 (the per-submission score is the additive heuristic, and is
    deterministic), as the code computes it.  The ledger is one that the
    routes produce, SQLite reads the date, and the claims of the worker are
    dated YYYY-MM-DD, none of them after the date.  Then [calcAnomalyScore]
    is the sum, capped at 1, of 0.40 for more than 14 hours, 0.35 for more
    than 16 hours, 0.25 when the worker's last ten claims of the trailing 7
    days are at least three and the hours exceed 1.8 times their mean, and
    0.20 when the worker filed the very same hours five times or more in the
    trailing 14 days, where the sum, the mean (the hours added one after the
    other, the latest first) and its product with 1.8 are those of
    binary64; it lies between 0 and 1; and it is a function of the claims
    table alone, so that on the same claims it returns the same value. *)
Theorem anomaly_score_in_binary64 e d w h date :
  reachable d ->
  sqlite_reads e date 7 = true -> sqlite_reads e date 14 = true ->
  dated_up_to d w date = true ->
  calcAnomalyScore e d w h date = amended_score d w h date
  /\ (0 <= calcAnomalyScore e d w h date <= 1)%Q
  /\ (forall d', work_claims d' = work_claims d ->
        calcAnomalyScore e d' w h date = calcAnomalyScore e d w h date).
Proof.
  intros Hreach H7 H14 Hup. split; [|split].
  - apply calcAnomalyScore_amended; auto. now apply claim_keys_reachable.
  - apply calcAnomalyScore_bounds.
  - intros d' E. now apply calcAnomalyScore_reads_claims_only.
Qed.

Lemma anomaly_score_in_binary64_witness :
  calcAnomalyScore (Scenario.env_of "x") Scenario.overworked "P" 15 "2026-01-15"
  = amended_score Scenario.overworked "P" 15 "2026-01-15"
  /\ (0 <= calcAnomalyScore (Scenario.env_of "x") Scenario.overworked "P" 15
             "2026-01-15" <= 1)%Q
  /\ (forall d', work_claims d' = work_claims Scenario.overworked ->
        calcAnomalyScore (Scenario.env_of "x") d' "P" 15 "2026-01-15"
        = calcAnomalyScore (Scenario.env_of "x") Scenario.overworked "P" 15
            "2026-01-15").
Proof.
  apply anomaly_score_in_binary64; [|vm_compute; reflexivity ..].
  unfold Scenario.overworked, Scenario.crew.
  do 2 (apply reachable_run; [vm_compute; reflexivity|]). constructor.
Defined.

(** C7, as stated, fails on ledgers that the routes produce.  P has
    filed 0.6, 4.3 and 0.6 hours on 12, 13 and 14 January and files 3.3
    hours for the 15th: 1.8 times the mean of the three is 3.3, which the
    3.3 hours do not exceed, and yet the code adds the 0.25, because the
    product falls below 3.3 in binary64; and so it is whether the numbers
    are read as the decimals or as the doubles nearest to them.  Where the
    code adds 0.40, 0.25 and 0.20, its score is not 0.85 but the double
    above it.  P has filed one hour on 17, 18 and 19 January and files two
    hours for the 15th: no claim lies in the trailing seven days, and the
    code adds the 0.25 for the three claims of the days after.  P has filed
    one hour on 1, 2 and 3 January, written 2026-1-1 and so on, and files
    two hours for the 15th: as texts the three are not below 2026-01-08,
    and the code adds the 0.25.  P has filed four hours on each of the five
    days before 15 January and files four hours for the 15th, written
    2026-1-15: SQLite finds no date in that text, both queries are empty,
    and the code does not add the 0.20. *)
Lemma anomaly_score_is_not_the_sum :
  (reachable (Scenario.uneven id) /\ reachable (Scenario.uneven js)
   /\ reachable Scenario.overworked /\ reachable Scenario.ahead
   /\ reachable Scenario.loose /\ reachable Scenario.routine)
  /\ (calcAnomalyScore (Scenario.env_of "x") (Scenario.uneven id) "P" 3.3
        "2026-01-15" == 0.25)%Q
  /\ (claimed_score (Scenario.uneven id) "P" 3.3 "2026-01-15" == 0)%Q
  /\ (calcAnomalyScore (Scenario.env_of "x") (Scenario.uneven js) "P" (js 3.3)
        "2026-01-15" == 0.25)%Q
  /\ (claimed_score (Scenario.uneven js) "P" (js 3.3) "2026-01-15" == 0)%Q
  /\ (claimed_score Scenario.overworked "P" 15 "2026-01-15" == 0.85)%Q
  /\ (0.85 < calcAnomalyScore (Scenario.env_of "x") Scenario.overworked "P" 15
               "2026-01-15")%Q
  /\ (calcAnomalyScore (Scenario.env_of "x") Scenario.ahead "P" 2 "2026-01-15"
      == 0.25)%Q
  /\ (claimed_score Scenario.ahead "P" 2 "2026-01-15" == 0)%Q
  /\ (calcAnomalyScore (Scenario.env_of "x") Scenario.loose "P" 2 "2026-01-15"
      == 0.25)%Q
  /\ (claimed_score Scenario.loose "P" 2 "2026-01-15" == 0)%Q
  /\ (calcAnomalyScore (Scenario.env_of "x") Scenario.routine "P" 4 "2026-1-15"
      == 0)%Q
  /\ (claimed_score Scenario.routine "P" 4 "2026-1-15" == 0.20)%Q.
Proof.
  split; [|vm_compute; repeat split; discriminate].
  unfold Scenario.uneven, Scenario.ahead, Scenario.overworked, Scenario.loose,
    Scenario.routine, Scenario.crew.
  repeat split;
    do 2 (apply reachable_run; [vm_compute; reflexivity|]); constructor.
Qed.

(** ** The summary of a scan *)

Lemma count_app {A} (p : A -> bool) (l l' : list A) :
  count p (l ++ l') = (count p l + count p l')%Z.
Proof. unfold count. rewrite filter_app, length_app. lia. Qed.

Lemma count_ext_in {A} (p q : A -> bool) (l : list A) :
  (forall x, In x l -> p x = q x) -> count p l = count q l.
Proof. intros H. unfold count. now rewrite (filter_ext_in p q l H). Qed.

Lemma count_all {A} (p : A -> bool) (l : list A) :
  (forall x, In x l -> p x = true) -> count p l = Z.of_nat (List.length l).
Proof.
  intros H. unfold count. f_equal. f_equal.
  induction l as [|x l IH]; simpl; [reflexivity|].
  rewrite (H x (or_introl eq_refl)). f_equal. apply IH. intros y Hy. apply H. now right.
Qed.

Lemma count_nothing {A} (p : A -> bool) (l : list A) :
  (forall x, In x l -> p x = false) -> count p l = 0%Z.
Proof. intros H. unfold count. now rewrite (filter_none p l H). Qed.

Lemma count_split {A} (p : A -> bool) (l : list A) :
  (count p l + count (fun x => negb (p x)) l = Z.of_nat (List.length l))%Z.
Proof.
  assert (H : (List.length (filter p l)
               + List.length (filter (fun x => negb (p x)) l))%nat = List.length l).
  { induction l as [|x l IH]; simpl; [reflexivity|]. destruct (p x); simpl; lia. }
  unfold count. lia.
Qed.

Lemma count_nonneg {A} (p : A -> bool) (l : list A) : (0 <= count p l)%Z.
Proof. unfold count. lia. Qed.

Lemma impossible_hours_labels like region d f :
  In f (impossible_hours like region d) -> label_follows_score f.
Proof.
  unfold impossible_hours. rewrite in_flat_map. intros (wc & _ & Hin).
  apply in_map_iff in Hin as (w & <- & _). split; reflexivity.
Qed.

Lemma cliques_labels d f : In f (cliques d) -> label_follows_score f.
Proof.
  unfold cliques. rewrite in_flat_map. intros (v & _ & Hin).
  destruct (_ && _); [|contradiction].
  destruct Hin as [<- | []]. split; reflexivity.
Qed.

Lemma db_flags_labels d f : In f (db_flags d) -> label_follows_score f.
Proof.
  unfold db_flags. rewrite in_map_iff. intros (af & <- & _).
  unfold label_follows_score, labelled, above_threshold. simpl.
  destruct (Qgt_bool (af_risk_score af) 0.7); split; reflexivity.
Qed.

Lemma timestamp_clusters_labels d f :
  In f (timestamp_clusters d) ->
  f_type f = "timestamp_cluster" /\ f_risk f = "medium" /\ f_score f = 0.71%Q.
Proof.
  unfold timestamp_clusters. rewrite in_flat_map. intros (m & _ & Hin).
  destruct (4 <=? _)%Z; [|contradiction].
  destruct Hin as [<- | []]. repeat split.
Qed.

Lemma counts_where_label_follows_score (l : list flag) :
  (forall f, In f l -> label_follows_score f) ->
  count (labelled "high") l = count above_threshold l
  /\ (count (labelled "high") l + count (labelled "medium") l
      = Z.of_nat (List.length l))%Z.
Proof.
  intros H.
  assert (E1 : count (labelled "high") l = count above_threshold l)
    by (apply count_ext_in; intros f Hf; apply (H f Hf)).
  assert (E2 : count (labelled "medium") l = count (fun f => negb (above_threshold f)) l)
    by (apply count_ext_in; intros f Hf; apply (H f Hf)).
  split; [exact E1|]. rewrite E1, E2. apply count_split.
Qed.

Lemma counts_of_timestamp_clusters d :
  count (labelled "high") (timestamp_clusters d) = 0%Z
  /\ count (labelled "medium") (timestamp_clusters d)
     = Z.of_nat (List.length (timestamp_clusters d))
  /\ count above_threshold (timestamp_clusters d)
     = Z.of_nat (List.length (timestamp_clusters d)).
Proof.
  repeat split; [apply count_nothing | apply count_all | apply count_all];
    intros f Hf; destruct (timestamp_clusters_labels d f Hf) as (_ & Hr & Hs);
    unfold labelled, above_threshold; rewrite ?Hr, ?Hs; reflexivity.
Qed.

(** C8 (the summary of a scan), as the handler computes it.  The summary
    counts the flags by their risk label.  Impossible-hours flags, clique
    flags and stored flags with a score above 0.7 are labelled and counted
    high; timestamp-clustering flags carry the score 0.71 with the label
    'medium' and are counted medium.  So the high count is the number of flags
    with a score above 0.7 less the timestamp-clustering flags; high, medium
    and low add up to the total, and low is 0. *)
Theorem scan_summary_counts_by_risk_label like region d :
  snd (post_api_ai_scan like region d)
  = ScanReport (scan_flags like region d) (summarize (scan_flags like region d))
  /\ s_high (summarize (scan_flags like region d))
     = (count above_threshold (scan_flags like region d)
        - Z.of_nat (List.length (timestamp_clusters d)))%Z
  /\ (forall f, In f (timestamp_clusters d) ->
        In f (scan_flags like region d)
        /\ f_score f = 0.71%Q /\ above_threshold f = true
        /\ labelled "medium" f = true /\ labelled "high" f = false)
  /\ (Z.of_nat (List.length (timestamp_clusters d))
      <= s_medium (summarize (scan_flags like region d)))%Z
  /\ (s_high (summarize (scan_flags like region d))
      + s_medium (summarize (scan_flags like region d))
      + s_low (summarize (scan_flags like region d))
      = s_total (summarize (scan_flags like region d)))%Z
  /\ s_low (summarize (scan_flags like region d)) = 0%Z.
Proof.
  pose proof (counts_where_label_follows_score _ (impossible_hours_labels like region d))
    as [Ha Ha'].
  pose proof (counts_where_label_follows_score _ (cliques_labels d)) as [Hb Hb'].
  pose proof (counts_where_label_follows_score _ (db_flags_labels d)) as [Hd Hd'].
  pose proof (counts_of_timestamp_clusters d) as (Hc & Hc' & Hc'').
  pose proof (count_nonneg (labelled "medium") (impossible_hours like region d)).
  pose proof (count_nonneg (labelled "medium") (cliques d)).
  pose proof (count_nonneg (labelled "medium") (db_flags d)).
  split; [reflexivity|].
  unfold summarize, scan_flags. simpl.
  fold (labelled "high") (labelled "medium").
  rewrite !count_app, !length_app, !Nat2Z.inj_add.
  split; [lia|]. split; [|lia].
  intros f Hf. destruct (timestamp_clusters_labels d f Hf) as (_ & Hr & Hs).
  unfold labelled, above_threshold. rewrite Hr, Hs.
  split; [|repeat split]. rewrite !in_app_iff. auto.
Qed.

(** C8, as stated, fails on a ledger where four claims were filed within the
    same minute: the scan raises one timestamp-clustering flag, its score 0.71
    is above 0.7, and the summary counts no high flag and one medium flag. *)
Lemma timestamp_cluster_is_counted_medium :
  scan_flags Scenario.any_location None Scenario.same_minute
  = [{| f_type := "timestamp_cluster"; f_risk := "medium"; f_score := 0.71;
        f_entity := "2026-01-15T10:00" |}]
  /\ (0.7 < 0.71)%Q
  /\ count above_threshold
       (scan_flags Scenario.any_location None Scenario.same_minute) = 1%Z
  /\ s_high (summarize (scan_flags Scenario.any_location None Scenario.same_minute))
     = 0%Z
  /\ s_medium (summarize (scan_flags Scenario.any_location None Scenario.same_minute))
     = 1%Z.
Proof. vm_compute. repeat split. Qed.

End Detector.

(** * Failed requests *)

Section Failures.

Import Backend.
Local Open Scope string_scope.

(** C9 (failure atomicity).  Whatever the route (registration, submission,
    attestation, credit report, scan), a request answered with an error leaves
    every table of the ledger as it was. *)
Theorem failed_request_leaves_ledger e r d :
  is_failure (snd (handle e r d)) = true -> fst (handle e r d) = d.
Proof.
  destruct r as [n l s | auth req | auth req | auth | like region]; simpl.
  - apply register_failure.
  - apply verifyJWT_failure. intros w d0. apply submit_claim_failure.
  - apply verifyJWT_failure. intros w d0. apply verify_claim_failure.
  - apply verifyJWT_failure. intros w d0. apply credit_report_failure.
  - reflexivity.
Qed.

Lemma failed_request_leaves_ledger_witness :
  fst (handle (Scenario.env_of "c9")
         (PostClaims (Bearer "P") (Scenario.claim_body 17 "2026-01-16")) Scenario.filed)
  = Scenario.filed
  /\ fst (handle (Scenario.env_of "v9")
            (PostVerify (Bearer "P") (Scenario.attest_body "c1")) Scenario.filed)
     = Scenario.filed
  /\ fst (handle (Scenario.env_of "r9") (PostFinanceCredit (Bearer "P")) Scenario.filed)
     = Scenario.filed.
Proof.
  split; [|split]; apply failed_request_leaves_ledger; vm_compute; reflexivity.
Defined.

End Failures.

(** * Further properties of the two implementations *)

Section Further.

Import Backend.
Local Open Scope string_scope.
Local Open Scope list_scope.

(** In a ledger produced by the routes a claim reads 'verified' exactly when
    it has three valid verifications or more; any other claim reads 'pending'
    and carries no settlement. *)
Theorem verified_iff_quorum d c :
  reachable d -> In c (work_claims d) ->
  (wc_status c = "verified" <-> (3 <= valid_verifications d (wc_id c))%Z)
  /\ (wc_status c <> "verified" -> wc_status c = "pending" /\ unsettled c).
Proof.
  intros Hreach Hin. pose proof (invariant_reachable d Hreach) as Inv.
  rewrite (valid_verifications_attestations d (wc_id c) (inv_valid d Inv)).
  split; [split|].
  - intros Hver. rewrite (inv_sealed d Inv c Hin Hver). lia.
  - intros Hq. destruct (string_dec (wc_status c) "verified") as [E | N]; [exact E|].
    destruct (inv_open d Inv c Hin N) as (_ & _ & Hlt). lia.
  - intros N. destruct (inv_open d Inv c Hin N) as (Hp & Hu & _). now split.
Qed.

Lemma verified_iff_quorum_witness :
  wc_status Scenario.sealed_c1 = "verified"
  <-> (3 <= valid_verifications Scenario.sealed "c1")%Z.
Proof.
  refine (proj1 (verified_iff_quorum Scenario.sealed Scenario.sealed_c1 _ _)).
  - exact reachable_sealed.
  - vm_compute. left. reflexivity.
Defined.

(** Nobody attests their own claim: the request is refused with 'Cannot
    verify own claim' and nothing is written. *)
Theorem self_verification_is_refused e req w d claim :
  find_claim d (r_claim_id req) = Some claim -> wc_worker_id claim = w ->
  verify_claim e req w d = (d, Failure SelfVerification).
Proof.
  intros Hfind Hown. unfold verify_claim.
  rewrite Hfind. apply String.eqb_eq in Hown. now rewrite Hown.
Qed.

Lemma self_verification_is_refused_witness :
  verify_claim (Scenario.env_of "v9") (Scenario.attest_body "c1") "P" Scenario.filed
  = (Scenario.filed, Failure SelfVerification).
Proof.
  eapply self_verification_is_refused.
  - vm_compute. reflexivity.
  - reflexivity.
Defined.

(** A peer attests a claim once: after a verification of [w] on a claim has
    gone through, a second one is refused, whatever the distance it reports,
    and nothing is written. *)
Theorem second_attestation_is_refused e req w d d1 r e' gps :
  verify_claim e req w d = (d1, r) -> is_failure r = false ->
  is_failure (snd (verify_claim e' {| r_claim_id := r_claim_id req;
                                      r_gps_distance_m := gps |} w d1)) = true
  /\ fst (verify_claim e' {| r_claim_id := r_claim_id req;
                             r_gps_distance_m := gps |} w d1) = d1
  /\ List.length (attestations d1 (r_claim_id req))
     = S (List.length (attestations d (r_claim_id req))).
Proof.
  intros Hrun Hok.
  destruct (verify_claim_success e req w d d1 r Hrun Hok)
    as (claim & Hfind & Hself & Hst & Hv & Hend).
  assert (Hatt : List.length (attestations d1 (r_claim_id req))
                 = S (List.length (attestations d (r_claim_id req)))).
  { rewrite (attestations_recorded d d1 _ _ Hv). simpl.
    rewrite String.eqb_refl, length_app. simpl. lia. }
  assert (Hdup : exists v, find (fun v => String.eqb (v_claim_id v) (r_claim_id req)
                                          && String.eqb (v_verifier_id v) w)
                             (verifications d1) = Some v).
  { destruct (find _ (verifications d1)) as [v|] eqn:Hnone; [now exists v|].
    exfalso. rewrite Hv in Hnone.
    eapply find_none in Hnone; [|apply in_or_app; right; left; reflexivity].
    simpl in Hnone. now rewrite !String.eqb_refl in Hnone. }
  destruct Hdup as [v Hdup].
  unfold verify_claim. simpl r_claim_id.
  destruct (find_claim d1 (r_claim_id req)) as [c1|]; [|repeat split; assumption].
  destruct (String.eqb (wc_worker_id c1) w); [repeat split; assumption|].
  destruct (String.eqb (wc_status c1) "verified"); [repeat split; assumption|].
  rewrite Hdup. repeat split; assumption.
Qed.

Lemma second_attestation_is_refused_witness :
  fst (verify_claim (Scenario.env_of "v2") (Scenario.attest_body "c1") "A"
         (fst (verify_claim (Scenario.env_of "v1") (Scenario.attest_body "c1") "A"
                 Scenario.filed)))
  = fst (verify_claim (Scenario.env_of "v1") (Scenario.attest_body "c1") "A"
           Scenario.filed).
Proof.
  refine (proj1 (proj2 (second_attestation_is_refused
            (Scenario.env_of "v1") (Scenario.attest_body "c1") "A" Scenario.filed
            _ _ (Scenario.env_of "v2") (Some 20%Q) (surjective_pairing _) _))).
  vm_compute. reflexivity.
Defined.

(** ** The contract *)

Lemma checked_add_some a b c :
  Contract.checked_add a b = Some c -> c = (a + b)%Z.
Proof.
  unfold Contract.checked_add. destruct (_ <=? _)%Z; [|discriminate].
  now intros [= <-].
Qed.

(** What a call of [verifyClaim] that goes through does: the caller is added
    to the verifiers and gains 0.50 of reputation (with no ceiling); below
    three verifiers the claim becomes PartiallyVerified; with the third it is
    sealed, which counts one more verified day for the claimant and leaves
    the claimant's reputation as it is. *)
Theorem verifyClaim_effects keccak256 sender ts bn claimId s s' :
  Contract.verifyClaim keccak256 sender ts bn claimId s = Contract.Ok s' ->
  Contract.verifiers (Contract.claims s' claimId)
  = Contract.verifiers (Contract.claims s claimId) ++ [sender]
  /\ Contract.hasVerified s' claimId sender = true
  /\ Contract.reputationScore (Contract.workers s' sender)
     = (Contract.reputationScore (Contract.workers s sender) + 50)%Z
  /\ ((List.length (Contract.verifiers (Contract.claims s claimId)) < 2)%nat ->
      Contract.status (Contract.claims s' claimId) = Contract.PartiallyVerified)
  /\ ((2 <= List.length (Contract.verifiers (Contract.claims s claimId)))%nat ->
      Contract.status (Contract.claims s' claimId) = Contract.Verified
      /\ Contract.sealedAt (Contract.claims s' claimId) = ts
      /\ Contract.ipfsRecord (Contract.claims s' claimId)
         = keccak256 [claimId; ts; bn]
      /\ Contract.verifiedDays
           (Contract.workers s' (Contract.worker (Contract.claims s claimId)))
         = (Contract.verifiedDays
              (Contract.workers s (Contract.worker (Contract.claims s claimId))) + 1)%Z
      /\ Contract.reputationScore
           (Contract.workers s' (Contract.worker (Contract.claims s claimId)))
         = Contract.reputationScore
             (Contract.workers s (Contract.worker (Contract.claims s claimId)))).
Proof.
  unfold Contract.verifyClaim.
  destruct (negb _); [discriminate|].
  destruct (_ =? 0)%Z; [discriminate|].
  destruct (_ =? sender)%Z eqn:Hown; [discriminate|].
  destruct (Contract.hasVerified s claimId sender); [discriminate|].
  destruct (Contract.status_eqb _ Contract.Verified); [discriminate|].
  destruct (Contract.status_eqb _ Contract.Rejected); [discriminate|].
  destruct (_ <? 1000)%Z; [discriminate|].
  cbv zeta. simpl Contract.workers. simpl Contract.claims.
  destruct (Contract.checked_add _ Contract.REP_GAIN_VERIFY) as [rep|] eqn:Hrep;
    [|discriminate].
  apply checked_add_some in Hrep. unfold Contract.REP_GAIN_VERIFY in Hrep.
  simpl Contract.verifiers. rewrite length_app. simpl List.length.
  unfold Contract.REQUIRED_VERIFIERS.
  destruct (3 <=? _)%Z eqn:Hq.
  - apply Z.leb_le in Hq. unfold Contract._sealClaim. cbv zeta.
    simpl Contract.workers. simpl Contract.claims. simpl Contract.worker.
    unfold Contract.upd at 1 2. rewrite !Z.eqb_refl. simpl Contract.worker.
    destruct (Contract.checked_add _ 1) as [days|] eqn:Hdays; [|discriminate].
    apply checked_add_some in Hdays.
    destruct (Contract.checked_add _ 1) as [total|]; [|discriminate].
    intros [= <-]. simpl. unfold Contract.upd. rewrite !Z.eqb_refl. simpl.
    rewrite Hown. simpl. rewrite Z.eqb_sym, Hown. simpl.
    repeat split; try assumption; try lia; intros; try lia.
    + rewrite Hdays. unfold Contract.upd. now rewrite Hown.
  - apply Z.leb_gt in Hq. intros [= <-]. simpl. unfold Contract.upd.
    rewrite !Z.eqb_refl. simpl.
    repeat split; try assumption; intros; try lia; reflexivity.
Qed.

Lemma verifyClaim_effects_witness :
  Contract.status (Contract.claims
     (match Contract.verifyClaim Scenario.hash 2%Z 1000%Z 5%Z 7%Z
              (Scenario.chain Contract.Pending) with
      | Contract.Ok s' => s'
      | _ => Scenario.chain Contract.Pending
      end) 7%Z) = Contract.PartiallyVerified.
Proof.
  refine (proj1 (proj2 (proj2 (proj2 (verifyClaim_effects Scenario.hash 2%Z 1000%Z
            5%Z 7%Z (Scenario.chain Contract.Pending) _ _)))) _).
  - vm_compute. reflexivity.
  - vm_compute. lia.
Defined.

(** [submitClaim] accepts the hours (in tenths) from 1 to 160 and no others. *)
Theorem submitClaim_checks_hours keccak256 sender ts date hoursX10 task s :
  Contract.registeredWorkers s sender = true ->
  (hoursX10 <= 0 \/ 160 < hoursX10)%Z ->
  Contract.submitClaim keccak256 sender ts date hoursX10 task s
  = Contract.Revert "Invalid hours".
Proof.
  intros Hreg Hbad. unfold Contract.submitClaim, Contract.MAX_DAILY_HOURS.
  rewrite Hreg. simpl negb at 1. cbv iota.
  assert (E : ((0 <? hoursX10) && (hoursX10 <=? 160))%Z = false).
  { apply andb_false_iff. rewrite Z.ltb_ge, Z.leb_gt. lia. }
  now rewrite E.
Qed.

Lemma submitClaim_checks_hours_witness :
  Contract.submitClaim Scenario.hash 1%Z 1000%Z 20469%Z (-50)%Z "QmTask"
    (Scenario.chain Contract.Pending)
  = Contract.Revert "Invalid hours".
Proof.
  apply submitClaim_checks_hours; [reflexivity | lia].
Defined.

(** ** Reputation in the backend *)

Lemma submit_claim_workers e req w d :
  workers (fst (submit_claim e req w d)) = workers d.
Proof.
  unfold submit_claim. split_handler; reflexivity.
Qed.

Lemma credit_report_workers e w d :
  workers (fst (credit_report_for e w d)) = workers d.
Proof.
  unfold credit_report_for.
  destruct (find_worker d w); [|reflexivity].
  destruct (filter _ (work_claims d)); reflexivity.
Qed.

Lemma workers_step e r d w' :
  In w' (workers (fst (handle e r d))) -> reputation_kept_or_raised d w'.
Proof.
  assert (Hsame : In w' (workers d) -> reputation_kept_or_raised d w')
    by (intros H; right; exists w'; auto).
  destruct r as [n l s | auth req | auth req | auth | like region]; simpl.
  - unfold post_api_workers_register.
    destruct n as [n|], l as [l|], s as [s|]; simpl; auto.
    destruct (_ || _); simpl; auto.
    rewrite in_app_iff. intros [H | [<- | []]]; [auto | now left].
  - destruct auth; simpl; auto. now rewrite submit_claim_workers.
  - destruct auth as [| | w]; simpl; auto.
    destruct (is_failure (snd (verify_claim e req w d))) eqn:Hf.
    + now rewrite (verify_claim_failure e req w d Hf).
    + destruct (verify_claim_success e req w d _ _ (surjective_pairing _) Hf)
        as (claim & _ & _ & _ & _ & [(_ & _ & _ & Hw) | (_ & _ & _ & Hw)]);
        rewrite Hw; intros Hin.
      * apply In_update_where in Hin as (w0 & Hin & ->).
        right. exists w0. split; [exact Hin|]. left. now destruct (String.eqb _ _).
      * apply In_update_where in Hin as (w1 & Hin & ->).
        apply In_update_where in Hin as (w0 & Hin & ->).
        right. exists w0. split; [exact Hin|].
        destruct (String.eqb _ (wc_worker_id claim)); simpl;
          destruct (String.eqb (w_id w0) w); simpl; auto.
  - destruct auth; simpl; auto. now rewrite credit_report_workers.
  - auto.
Qed.

(** Reputation bounds: in a ledger produced by the routes every worker's
    reputation lies between the initial 50 and the ceiling 100. *)
Theorem reputation_within_bounds d w :
  reachable d -> In w (workers d) ->
  (50 <= reputation_score w <= 100)%Q.
Proof.
  intros Hreach. revert w.
  induction Hreach as [|e r d Hreach IH Hfresh]; intros w Hin; [contradiction|].
  destruct (workers_step e r d w Hin) as [-> | (w0 & Hin0 & [-> | ->])].
  - split; vm_compute; discriminate.
  - now apply IH.
  - destruct (IH w0 Hin0) as [Hlo Hhi]. split.
    + apply Q.min_glb; [vm_compute; discriminate|].
      apply Qle_trans with (reputation_score w0); [exact Hlo|].
      rewrite <- (Qplus_0_r (reputation_score w0)) at 1.
      apply Qplus_le_r. vm_compute. discriminate.
    + apply Q.le_min_l.
Qed.

Lemma reputation_within_bounds_witness :
  (50 <= reputation_score Scenario.sealed_P <= 100)%Q.
Proof.
  apply (reputation_within_bounds Scenario.sealed Scenario.sealed_P).
  - exact reachable_sealed.
  - vm_compute. left. reflexivity.
Defined.

(** ** What an attestation below the quorum writes *)

(** An attestation that leaves the count below three writes one verification
    and the verifier's depth, and nothing else: the claims table is the same,
    so the claim keeps the status it had. *)
Theorem attestation_below_quorum_keeps_claims e req w d d' id n :
  verify_claim e req w d = (d', VerificationCounted id n) ->
  work_claims d' = work_claims d
  /\ n = valid_verifications d' (r_claim_id req) /\ (n < 3)%Z
  /\ find_claim d' (r_claim_id req) = find_claim d (r_claim_id req).
Proof.
  intros Hrun.
  destruct (verify_claim_success e req w d d' _ Hrun eq_refl)
    as (claim & _ & _ & _ & _ & [(Hlt & Hr & Hc & _) | (_ & Hr & _)]);
    [|discriminate].
  injection Hr as _ ->. unfold find_claim. rewrite Hc. repeat split. exact Hlt.
Qed.

Lemma attestation_below_quorum_keeps_claims_witness :
  work_claims (fst (verify_claim (Scenario.env_of "v1") (Scenario.attest_body "c1")
                      "A" Scenario.filed))
  = work_claims Scenario.filed.
Proof.
  refine (proj1 (attestation_below_quorum_keeps_claims (Scenario.env_of "v1")
                   (Scenario.attest_body "c1") "A" Scenario.filed _ "v1" 1%Z _)).
  vm_compute. reflexivity.
Defined.

(** An attestation that goes through raises the verifier's depth by one and
    leaves the verifier's reputation as it was, sealed claim or not. *)
Theorem attestation_keeps_verifier_reputation e req w d d' r v :
  verify_claim e req w d = (d', r) -> is_failure r = false ->
  find_worker d w = Some v ->
  exists v', find_worker d' w = Some v'
    /\ reputation_score v' = reputation_score v
    /\ verification_depth v' = (verification_depth v + 1)%Z.
Proof.
  intros Hrun Hok Hv. unfold find_worker in *.
  pose proof (find_some _ _ Hv) as [_ Hid].
  destruct (verify_claim_success e req w d d' r Hrun Hok)
    as (claim & _ & Hself & _ & _ & [(_ & _ & _ & Hw) | (_ & _ & _ & Hw)]);
    rewrite Hw; eexists.
  - rewrite (find_worker_update d _ _ _ v) by (reflexivity || assumption).
    rewrite Hid. split; [reflexivity | split; reflexivity].
  - rewrite find_update_where by reflexivity.
    rewrite (find_worker_update d _ _ _ v) by (reflexivity || assumption).
    rewrite Hid. simpl. apply String.eqb_eq in Hid. rewrite Hid.
    destruct (String.eqb_spec w (wc_worker_id claim)); [congruence|].
    split; [reflexivity | split; reflexivity].
Qed.

Lemma attestation_keeps_verifier_reputation_witness :
  exists v', find_worker Scenario.sealed "C" = Some v'
    /\ reputation_score v' = 50%Q /\ verification_depth v' = (0 + 1)%Z.
Proof.
  refine (attestation_keeps_verifier_reputation (Scenario.env_of "v3")
            (Scenario.attest_body "c1") "C" Scenario.attested_twice Scenario.sealed
            _ {| w_id := "C"; w_name := "C"; w_location := "Kericho, KE";
                 w_sector := "Agriculture"; w_wallet_address := "0xC";
                 w_public_key := "pk-C"; reputation_score := 50;
                 verification_depth := 0; total_days_worked := 0 |}
            (surjective_pairing _) _ _).
  - vm_compute. reflexivity.
  - vm_compute. reflexivity.
Defined.

(** ** The scenarios of the specification *)

(** P files eight hours: accepted, score 0, pending.  Three peers attest from
    20 m: the third attestation seals the claim, P has one verified day and a
    reputation of 50.5. *)
Example eight_hours_three_peers :
  snd (submit_claim (Scenario.env_of "c1") (Scenario.claim_body 8 "2026-01-15") "P"
         Scenario.crew)
  = ClaimAccepted "c1" "2026-01-15" 8 "Tea harvesting Row 12" "pending" 0
  /\ snd (verify_claim (Scenario.env_of "v3") (Scenario.attest_body "c1") "C"
            Scenario.attested_twice)
     = ClaimSealed "v3" "0xseal" "Qmseal"
  /\ option_map (fun w => (total_days_worked w, reputation_score w))
       (find_worker Scenario.sealed "P") = Some (1%Z, 50.5%Q)
  /\ option_map wc_status (find_claim Scenario.sealed "c1") = Some "verified".
Proof. vm_compute. repeat split. Qed.

(** A has attested five claims, all of them P's, and no other: the scan
    raises a clique flag on A with risk 0.87 (and, the five claims of this
    ledger having been filed within one minute, a timestamp cluster). *)
Example five_attestations_for_one_worker :
  scan_flags Scenario.any_location None Scenario.ring
  = [{| f_type := "clique"; f_risk := "high"; f_score := 0.87; f_entity := "A" |};
     {| f_type := "timestamp_cluster"; f_risk := "medium"; f_score := 0.71;
        f_entity := "2026-01-15T10:00" |}]
  /\ summarize (scan_flags Scenario.any_location None Scenario.ring)
     = {| s_total := 2; s_high := 1; s_medium := 1; s_low := 0 |}.
Proof. vm_compute. split; reflexivity. Qed.

(** ** The automatic flag of a submission *)

(** A submission that goes through carries the score of [calcAnomalyScore]
    and files one anomaly flag of kind 'suspicious_hours' on the new claim
    when that score is above 0.65 (the double that the literal denotes), and
    no flag when it is not; a submission that is refused leaves the flags as
    they were. *)
Theorem suspicious_hours_flag e req w d d' r :
  submit_claim e req w d = (d', r) ->
  (is_failure r = true -> anomaly_flags d' = anomaly_flags d)
  /\ (is_failure r = false ->
      exists hours task,
        r_hours req = Some hours /\ r_task req = Some task
        /\ r = ClaimAccepted (gen_id e) (claim_date e req) hours task "pending"
                (calcAnomalyScore e d w hours (claim_date e req))
        /\ anomaly_flags d'
           = if Qgt_bool (calcAnomalyScore e d w hours (claim_date e req)) (js 0.65)
             then anomaly_flags d ++
                  [{| af_id := gen_flag_id e; af_flagged_entity := gen_id e;
                      af_entity_type := "claim";
                      af_anomaly_type := "suspicious_hours";
                      af_risk_score :=
                        calcAnomalyScore e d w hours (claim_date e req);
                      af_resolved := false |}]
             else anomaly_flags d).
Proof.
  unfold submit_claim, claim_date.
  destruct (r_hours req) as [hours|]; [|intros [= <- <-]; split; [reflexivity | discriminate]].
  destruct (r_task req) as [task|]; [|intros [= <- <-]; split; [reflexivity | discriminate]].
  destruct (_ || _); [intros [= <- <-]; split; [reflexivity | discriminate]|].
  destruct (Qgt_bool hours 16); [intros [= <- <-]; split; [reflexivity | discriminate]|].
  destruct (find _ (work_claims d)); [intros [= <- <-]; split; [reflexivity | discriminate]|].
  cbv zeta. intros [= <- <-]. split; [discriminate|]. intros _.
  exists hours, task. do 3 (split; [reflexivity|]).
  destruct (Qgt_bool (calcAnomalyScore _ _ _ _ _) (js 0.65)); reflexivity.
Qed.

Lemma suspicious_hours_flag_witness :
  map af_flagged_entity
    (anomaly_flags (fst (submit_claim (Scenario.env_of "e9")
                           (Scenario.claim_body 15 "2026-01-15") "P"
                           Scenario.overworked)))
  = ["e9"]
  /\ anomaly_flags (fst (submit_claim (Scenario.env_of "e9")
                           (Scenario.claim_body 8 "2026-01-15") "P"
                           Scenario.overworked)) = [].
Proof.
  destruct (suspicious_hours_flag (Scenario.env_of "e9")
              (Scenario.claim_body 15 "2026-01-15") "P" Scenario.overworked
              _ _ (surjective_pairing _)) as [_ Hhigh].
  destruct (suspicious_hours_flag (Scenario.env_of "e9")
              (Scenario.claim_body 8 "2026-01-15") "P" Scenario.overworked
              _ _ (surjective_pairing _)) as [_ Hlow].
  destruct (Hhigh eq_refl) as (h1 & t1 & E1 & _ & _ & ->).
  destruct (Hlow eq_refl) as (h2 & t2 & E2 & _ & _ & ->).
  injection E1 as <-. injection E2 as <-.
  split; vm_compute; reflexivity.
Defined.

End Further.

(** * The deployed contract *)

Section ChainFacts.

Import Contract Chain.
Local Open Scope string_scope.
Local Open Scope list_scope.
Local Open Scope Z_scope.

Variable keccak256 : list Z -> bytes32.
Variable keccak256_cert : string -> string -> Z -> address -> bytes32.

Lemma upd_same {V} (m : Z -> V) k v : upd m k v k = v.
Proof. unfold upd. now rewrite Z.eqb_refl. Qed.

Lemma upd_other {V} (m : Z -> V) k v x : x <> k -> upd m k v x = m x.
Proof. intros H. unfold upd. apply Z.eqb_neq in H. now rewrite H. Qed.

Lemma status_eqb_eq a b : status_eqb a b = true <-> a = b.
Proof. destruct a, b; simpl; split; intros H; try reflexivity; discriminate. Qed.

(** ** What each function writes *)

(** A call of [verifyClaim] that goes through: the requirements it met and,
    mapping by mapping, the storage it leaves. *)
Lemma verifyClaim_ok sender ts bn claimId s s' :
  verifyClaim keccak256 sender ts bn claimId s = Ok s' ->
  let claim := claims s claimId in
  let sealing := (3 <=? Z.of_nat (List.length (verifiers claim)) + 1) in
  (registeredWorkers s sender = true
   /\ worker claim <> 0 /\ worker claim <> sender
   /\ hasVerified s claimId sender = false
   /\ status claim <> Verified /\ status claim <> Rejected
   /\ 1000 <= reputationScore (workers s sender))
  /\ registeredWorkers s' = registeredWorkers s
  /\ workerClaims s' = workerClaims s
  /\ (forall c a, hasVerified s' c a
        = if (c =? claimId) && (a =? sender) then true else hasVerified s c a)
  /\ (forall c, c <> claimId -> claims s' c = claims s c)
  /\ verifiers (claims s' claimId) = verifiers claim ++ [sender]
  /\ worker (claims s' claimId) = worker claim
  /\ status (claims s' claimId) = (if sealing then Verified else PartiallyVerified)
  /\ (forall a, a <> sender -> (sealing = false \/ a <> worker claim) ->
        workers s' a = workers s a)
  /\ reputationScore (workers s' sender) = reputationScore (workers s sender) + 50
  /\ verifiedDays (workers s' sender) = verifiedDays (workers s sender)
  /\ reputationScore (workers s' (worker claim))
     = reputationScore (workers s (worker claim))
  /\ verifiedDays (workers s' (worker claim))
     = verifiedDays (workers s (worker claim)) + (if sealing then 1 else 0)
  /\ totalVerifiedClaims s'
     = totalVerifiedClaims s + (if sealing then 1 else 0).
Proof.
  unfold verifyClaim.
  destruct (registeredWorkers s sender) eqn:Hreg; [|discriminate]. simpl negb. cbv iota.
  destruct (worker (claims s claimId) =? 0) eqn:Hfound; [discriminate|].
  destruct (worker (claims s claimId) =? sender) eqn:Hown; [discriminate|].
  destruct (hasVerified s claimId sender) eqn:Hnew; [discriminate|].
  destruct (status_eqb _ Verified) eqn:Hv; [discriminate|].
  destruct (status_eqb _ Rejected) eqn:Hr; [discriminate|].
  destruct (_ <? 1000) eqn:Hrep; [discriminate|].
  cbv zeta. simpl Contract.workers. simpl Contract.claims.
  destruct (checked_add _ REP_GAIN_VERIFY) as [rep|] eqn:Hadd; [|discriminate].
  apply checked_add_some in Hadd. unfold REP_GAIN_VERIFY in Hadd.
  simpl verifiers. rewrite length_app. simpl List.length.
  unfold REQUIRED_VERIFIERS. rewrite Nat2Z.inj_add. simpl (Z.of_nat 1).
  apply Z.eqb_neq in Hfound, Hown. apply Z.ltb_ge in Hrep.
  assert (Hv' : status (claims s claimId) <> Verified)
    by (intros E; apply status_eqb_eq in E; congruence).
  assert (Hr' : status (claims s claimId) <> Rejected)
    by (intros E; apply status_eqb_eq in E; congruence).
  destruct (3 <=? _) eqn:Hq.
  - unfold _sealClaim. cbv zeta. simpl Contract.workers. simpl Contract.claims.
    rewrite !upd_same. simpl worker.
    rewrite (upd_other _ sender _ (worker (claims s claimId))) by assumption.
    destruct (checked_add _ 1) as [days|] eqn:Hdays; [|discriminate].
    apply checked_add_some in Hdays.
    destruct (checked_add _ 1) as [total|] eqn:Htotal; [|discriminate].
    apply checked_add_some in Htotal. simpl in Htotal.
    intros [= <-]. simpl.
    split; [repeat split; assumption|].
    split; [reflexivity|]. split; [reflexivity|].
    split.
    { intros c a. unfold upd. destruct (c =? claimId) eqn:Ec; simpl; [|reflexivity].
      apply Z.eqb_eq in Ec. subst c. now destruct (a =? sender). }
    split; [intros c Hc; now rewrite !upd_other by assumption|].
    rewrite !upd_same. simpl.
    split; [reflexivity|]. split; [reflexivity|]. split; [reflexivity|].
    split.
    { intros a Ha [Hs | Hb]; [discriminate|]. now rewrite !upd_other by assumption. }
    rewrite (upd_other _ _ _ sender) by congruence. rewrite upd_same. simpl.
    repeat split; lia.
  - intros [= <-]. simpl.
    split; [repeat split; assumption|].
    split; [reflexivity|]. split; [reflexivity|].
    split.
    { intros c a. unfold upd. destruct (c =? claimId) eqn:Ec; simpl; [|reflexivity].
      apply Z.eqb_eq in Ec. subst c. now destruct (a =? sender). }
    split; [intros c Hc; now rewrite !upd_other by assumption|].
    rewrite !(@upd_same WorkClaim), !(upd_same (workers s) sender). simpl.
    split; [reflexivity|]. split; [reflexivity|]. split; [reflexivity|].
    split; [intros a Ha _; now rewrite upd_other by assumption|].
    rewrite upd_other by assumption.
    repeat split; lia.
Qed.

Lemma submitClaim_ok sender ts date_ hoursX10 task s s' claimId :
  submitClaim keccak256 sender ts date_ hoursX10 task s = Ok (s', claimId) ->
  (registeredWorkers s sender = true /\ 0 < hoursX10 <= 160
   /\ claimId = keccak256 [sender; date_; ts])
  /\ registeredWorkers s' = registeredWorkers s
  /\ hasVerified s' = hasVerified s
  /\ workers s' = workers s
  /\ totalVerifiedClaims s' = totalVerifiedClaims s
  /\ (forall c, c <> claimId -> claims s' c = claims s c)
  /\ claims s' claimId
     = {| id := claimId; worker := sender; date := date_; hours := hoursX10;
          taskHash := task; verifiers := verifiers (claims s claimId);
          status := Pending; ipfsRecord := ipfsRecord (claims s claimId);
          sealedAt := sealedAt (claims s claimId) |}
  /\ workerClaims s' sender = workerClaims s sender ++ [claimId].
Proof.
  unfold submitClaim, MAX_DAILY_HOURS.
  destruct (registeredWorkers s sender) eqn:Hreg; [|discriminate]. simpl negb. cbv iota.
  destruct ((0 <? hoursX10) && (hoursX10 <=? 160)) eqn:Hh; [|discriminate].
  simpl negb. cbv iota.
  destruct (negb _); [discriminate|].
  cbv zeta. intros [= <- <-]. simpl.
  apply andb_true_iff in Hh as [H0 H1]. apply Z.ltb_lt in H0. apply Z.leb_le in H1.
  split; [repeat split; assumption|].
  repeat (split; [reflexivity|]).
  split; [intros c Hc; now rewrite upd_other by assumption|].
  split; [now rewrite (@upd_same WorkClaim) | now rewrite upd_same].
Qed.

Lemma registerWorker_ok sender ts n l sec c c' :
  registerWorker sender ts n l sec c = Ok c' ->
  registeredWorkers (store c) sender = false
  /\ n <> ""
  /\ registeredWorkers (store c') = upd (registeredWorkers (store c)) sender true
  /\ workers (store c')
     = upd (workers (store c)) sender
         {| wallet := sender; name := n; location := l; sector := sec;
            reputationScore := BASE_REP; verifiedDays := 0; registeredAt := ts;
            isActive := true |}
  /\ claims (store c') = claims (store c)
  /\ hasVerified (store c') = hasVerified (store c)
  /\ totalWorkers c' = totalWorkers c + 1
  /\ owner c' = owner c.
Proof.
  unfold registerWorker.
  destruct (registeredWorkers (store c) sender); [discriminate|].
  destruct (negb _) eqn:Hname; [discriminate|].
  destruct (checked_add _ 1) as [k|] eqn:Hk; [|discriminate].
  apply checked_add_some in Hk. intros [= <-]. simpl.
  repeat split; try assumption.
  intros ->. discriminate.
Qed.

Lemma slashVerifier_ok sender verifier claimId c c' :
  slashVerifier sender verifier claimId c = Ok c' ->
  sender = owner c
  /\ hasVerified (store c) claimId verifier = true
  /\ workers (store c')
     = upd (workers (store c)) verifier
         (set_reputation (workers (store c) verifier)
            (Z.max 0 (reputationScore (workers (store c) verifier) - 500)))
  /\ registeredWorkers (store c') = registeredWorkers (store c)
  /\ claims (store c') = claims (store c)
  /\ hasVerified (store c') = hasVerified (store c)
  /\ owner c' = owner c.
Proof.
  unfold slashVerifier, REP_LOSS_FALSE.
  destruct (sender =? owner c) eqn:Ho; [|discriminate]. simpl negb. cbv iota.
  destruct (hasVerified (store c) claimId verifier); [|discriminate].
  simpl negb. cbv iota. cbv zeta. intros [= <-]. simpl.
  apply Z.eqb_eq in Ho.
  repeat split; try assumption.
  f_equal. f_equal.
  destruct (500 <? _) eqn:E; [apply Z.ltb_lt in E | apply Z.ltb_ge in E]; lia.
Qed.

Lemma issueCert_store sender ts b ph ws c c' certId :
  issueCert keccak256_cert sender ts b ph ws c = Ok (c', certId) ->
  store c' = store c /\ owner c' = owner c.
Proof.
  unfold issueCert.
  destruct (negb _); [discriminate|].
  destruct (checked_mul _ 100); [|discriminate].
  destruct (negb _); [discriminate|].
  destruct (checked_add _ 1); [|discriminate].
  intros [= <- _]. split; reflexivity.
Qed.

(** ** The invariant *)

Lemma invariant_deploy deployer : invariant (deploy deployer).
Proof.
  constructor; simpl; intros; try contradiction; try discriminate; try reflexivity;
    try lia.
  constructor.
Qed.

Lemma invariant_store c c' :
  store c' = store c -> invariant c -> invariant c'.
Proof. intros E Inv. constructor; rewrite E; apply Inv. Qed.

Lemma invariant_registerWorker sender ts n l sec c c' :
  registerWorker sender ts n l sec c = Ok c' -> invariant c -> invariant c'.
Proof.
  intros Hrun Inv.
  destruct (registerWorker_ok _ _ _ _ _ _ _ Hrun)
    as (Hnew & _ & Hreg & Hw & Hc & Hv & _).
  assert (Hmono : forall a, registeredWorkers (store c) a = true ->
                            registeredWorkers (store c') a = true).
  { intros a Ha. rewrite Hreg. unfold upd. now destruct (a =? sender). }
  constructor; rewrite ?Hc, ?Hv; try apply Inv.
  - intros claimId a Hin. apply Hmono. now apply (inv_registered c Inv claimId).
  - intros a. rewrite Hw. unfold upd. destruct (a =? sender); simpl.
    + unfold BASE_REP. lia.
    + apply Inv.
  - intros a. rewrite Hreg, Hw. unfold upd. destruct (a =? sender); [discriminate|].
    apply Inv.
  - intros claimId Hc0. apply Hmono. now apply Inv.
Qed.

Lemma invariant_slashVerifier sender verifier claimId c c' :
  slashVerifier sender verifier claimId c = Ok c' -> invariant c -> invariant c'.
Proof.
  intros Hrun Inv.
  destruct (slashVerifier_ok _ _ _ _ _ Hrun) as (_ & Hmark & Hw & Hreg & Hc & Hv & _).
  assert (Hknown : registeredWorkers (store c) verifier = true).
  { apply (inv_registered c Inv claimId). now apply (inv_marked c Inv). }
  constructor; rewrite ?Hc, ?Hv, ?Hreg; try apply Inv.
  - intros a. rewrite Hw. unfold upd. destruct (a =? verifier); simpl; [lia|].
    apply Inv.
  - intros a Ha. rewrite Hw. rewrite upd_other by congruence. now apply Inv.
Qed.

Lemma invariant_submitClaim sender ts date_ hoursX10 task c s' claimId :
  submitClaim keccak256 sender ts date_ hoursX10 task (store c) = Ok (s', claimId) ->
  invariant c -> invariant (with_store c s').
Proof.
  intros Hrun Inv.
  destruct (submitClaim_ok _ _ _ _ _ _ _ _ Hrun)
    as ((Hsender & _ & _) & Hreg & Hv & Hw & _ & Hother & Hnew & _).
  assert (Hverifiers : forall x, verifiers (claims s' x) = verifiers (claims (store c) x)).
  { intros x. destruct (Z.eq_dec x claimId) as [-> | N];
      [now rewrite Hnew | now rewrite Hother]. }
  assert (Hstatus : forall x, status (claims s' x) = status (claims (store c) x)
                              \/ status (claims s' x) = Pending).
  { intros x. destruct (Z.eq_dec x claimId) as [-> | N];
      [right; now rewrite Hnew | left; now rewrite Hother]. }
  constructor; simpl; rewrite ?Hv, ?Hreg, ?Hw; intros; rewrite ?Hverifiers;
    try (now apply Inv).
  - apply (inv_registered c Inv claimId0). now rewrite <- Hverifiers.
  - apply Inv. destruct (Hstatus claimId0) as [E | E]; congruence.
  - apply Inv. destruct (Hstatus claimId0) as [E | E]; congruence.
  - destruct (Hstatus claimId0) as [E | E]; rewrite E;
      [now apply Inv | discriminate].
  - destruct (Z.eq_dec claimId0 claimId) as [-> | N].
    + rewrite Hnew. simpl. exact Hsender.
    + rewrite Hother in * by assumption. now apply Inv.
Qed.

Lemma invariant_verifyClaim sender ts bn claimId c s' :
  verifyClaim keccak256 sender ts bn claimId (store c) = Ok s' ->
  invariant c -> invariant (with_store c s').
Proof.
  intros Hrun Inv.
  destruct (verifyClaim_ok _ _ _ _ _ _ Hrun)
    as ((Hsender & Hfound & Hown & Hnew & Hnv & Hnr & _) & Hreg & _ & Hmark
        & Hother & Hvs & Hwk & Hst & Hworkers & Hrep & _ & Hrep' & _).
  pose proof (inv_owner_of_claim c Inv claimId Hfound) as Hreg_owner.
  constructor; simpl; rewrite ?Hreg.
  - intros x a. rewrite Hmark.
    destruct (Z.eq_dec x claimId) as [-> | N].
    + rewrite Z.eqb_refl, Hvs, in_app_iff. simpl.
      destruct (Z.eqb_spec a sender) as [-> | Na]; simpl.
      * split; auto.
      * rewrite (inv_marked c Inv). split; [auto | intros [H | [H | []]]; congruence].
    + apply Z.eqb_neq in N. rewrite N. simpl. apply Z.eqb_neq in N.
      rewrite Hother by assumption. apply Inv.
  - intros x. destruct (Z.eq_dec x claimId) as [-> | N].
    + rewrite Hvs. apply NoDup_app.
      * apply Inv.
      * constructor; [intros [] | constructor].
      * intros a Ha [<- | []]. apply (inv_marked c Inv) in Ha. congruence.
    + rewrite Hother by assumption. apply Inv.
  - intros x a. destruct (Z.eq_dec x claimId) as [-> | N].
    + rewrite Hvs, in_app_iff. intros [H | [<- | []]]; [|exact Hsender].
      now apply (inv_registered c Inv claimId).
    + rewrite Hother by assumption. apply Inv.
  - intros x. destruct (Z.eq_dec x claimId) as [-> | N].
    + rewrite Hst, Hvs, length_app. simpl.
      destruct (3 <=? _) eqn:Hq; [|discriminate]. apply Z.leb_le in Hq. lia.
    + rewrite Hother by assumption. apply Inv.
  - intros x. destruct (Z.eq_dec x claimId) as [-> | N].
    + rewrite Hst, Hvs, length_app. simpl.
      destruct (3 <=? _) eqn:Hq; [discriminate|]. apply Z.leb_gt in Hq. lia.
    + rewrite Hother by assumption. apply Inv.
  - intros x. destruct (Z.eq_dec x claimId) as [-> | N].
    + rewrite Hst. destruct (3 <=? _); discriminate.
    + rewrite Hother by assumption. apply Inv.
  - intros a. destruct (Z.eq_dec a sender) as [-> | Na].
    + rewrite Hrep. pose proof (inv_reputation c Inv sender). lia.
    + destruct (Z.eq_dec a (worker (claims (store c) claimId))) as [-> | Nb].
      * rewrite Hrep'. apply Inv.
      * rewrite Hworkers by auto. apply Inv.
  - intros a Ha. rewrite Hworkers; [now apply Inv | congruence | right; congruence].
  - intros x. destruct (Z.eq_dec x claimId) as [-> | N].
    + rewrite Hwk. now intros _.
    + rewrite Hother by assumption. apply Inv.
Qed.

Lemma invariant_after t c : invariant c -> invariant (after keccak256 keccak256_cert t c).
Proof.
  intros Inv. unfold after, run.
  destruct (tx_call t) as [n l s | d h th | claimId | b ph ws | verifier claimId].
  - destruct (registerWorker _ _ _ _ _ _) eqn:Hrun; try assumption.
    now apply (invariant_registerWorker _ _ _ _ _ _ _ Hrun).
  - destruct (submitClaim _ _ _ _ _ _ _) as [[s' cid]| |] eqn:Hrun; try assumption.
    now apply (invariant_submitClaim _ _ _ _ _ _ _ _ Hrun).
  - destruct (verifyClaim _ _ _ _ _ _) as [s'| |] eqn:Hrun; simpl; try assumption.
    now apply (invariant_verifyClaim _ _ _ _ _ _ Hrun).
  - destruct (issueCert _ _ _ _ _ _ _) as [[c' cid]| |] eqn:Hrun; try assumption.
    apply (invariant_store c); [|assumption].
    now apply (issueCert_store _ _ _ _ _ _ _ _ Hrun).
  - destruct (slashVerifier _ _ _ _) eqn:Hrun; try assumption.
    now apply (invariant_slashVerifier _ _ _ _ _ Hrun).
Qed.

Lemma invariant_reachable_from_chain c0 c :
  invariant c0 -> reachable_from keccak256 keccak256_cert c0 c -> invariant c.
Proof.
  intros Inv0 Hreach. induction Hreach; [assumption|]. now apply invariant_after.
Qed.

(** ** The states the transactions produce *)

Lemma reachable_play l c0 c :
  forallb Scenario.signedb l = true ->
  reachable_from Scenario.hash Scenario.cert_hash c0 c ->
  reachable_from Scenario.hash Scenario.cert_hash c0 (Scenario.play l c).
Proof.
  revert c. induction l as [|t l IH]; intros c Hall Hreach; [exact Hreach|].
  simpl in Hall. apply andb_true_iff in Hall as [Ht Hl].
  apply (IH _ Hl). apply reach_step; [exact Hreach|].
  unfold Scenario.signedb in Ht. apply andb_true_iff in Ht as [H1 H2].
  split; [|now apply Z.ltb_lt].
  intros E. rewrite E in H1. discriminate.
Qed.

Lemma reachable_town :
  reachable Scenario.hash Scenario.cert_hash Scenario.town.
Proof.
  exists 9. unfold Scenario.town. apply reachable_play; [reflexivity|]. constructor.
Qed.

Lemma reachable_town_sealed :
  reachable Scenario.hash Scenario.cert_hash Scenario.town_sealed.
Proof.
  exists 9. unfold Scenario.town_sealed, Scenario.town.
  do 2 (apply reachable_play; [reflexivity|]). constructor.
Qed.

(** ** What one transaction does to a registered worker *)

Lemma same_profile_refl w : same_profile w w.
Proof. repeat split. Qed.

Lemma verifyClaim_profile sender ts bn claimId s s' a :
  verifyClaim keccak256 sender ts bn claimId s = Ok s' ->
  same_profile (workers s a) (workers s' a).
Proof.
  unfold verifyClaim.
  destruct (negb _); [discriminate|].
  destruct (_ =? 0); [discriminate|].
  destruct (_ =? sender); [discriminate|].
  destruct (hasVerified s claimId sender); [discriminate|].
  destruct (status_eqb _ Verified); [discriminate|].
  destruct (status_eqb _ Rejected); [discriminate|].
  destruct (_ <? 1000); [discriminate|].
  cbv zeta. simpl Contract.workers. simpl Contract.claims.
  destruct (checked_add _ REP_GAIN_VERIFY) as [rep|]; [|discriminate].
  destruct (REQUIRED_VERIFIERS <=? _).
  - unfold _sealClaim. cbv zeta. simpl Contract.workers. simpl Contract.claims.
    destruct (checked_add _ 1) as [days|]; [|discriminate].
    destruct (checked_add _ 1) as [total|]; [|discriminate].
    intros [= <-]. unfold same_profile, upd. simpl.
    repeat match goal with
           | |- context [if ?x =? ?y then _ else _] =>
               destruct (Z.eqb_spec x y); simpl
           end; simpl in *; repeat split; congruence.
  - intros [= <-]. unfold same_profile, upd. simpl.
    destruct (Z.eqb_spec a sender); simpl; repeat split; congruence.
Qed.

Lemma after_registered_worker t c a :
  registeredWorkers (store c) a = true ->
  registeredWorkers (store (after keccak256 keccak256_cert t c)) a = true
  /\ same_profile (workers (store c) a)
                  (workers (store (after keccak256 keccak256_cert t c)) a)
  /\ reputation_move (reputationScore (workers (store c) a))
       (reputationScore (workers (store (after keccak256 keccak256_cert t c)) a)).
Proof.
  intros Ha.
  assert (Hstay : registeredWorkers (store c) a = true
                  /\ same_profile (workers (store c) a) (workers (store c) a)
                  /\ reputation_move (reputationScore (workers (store c) a))
                                     (reputationScore (workers (store c) a)))
    by (split; [assumption | split; [apply same_profile_refl | now left]]).
  unfold after, run.
  destruct (tx_call t) as [n l s | d h th | claimId | b ph ws | verifier claimId].
  - destruct (registerWorker _ _ _ _ _ _) eqn:Hrun; try assumption.
    apply registerWorker_ok in Hrun as (Hnew & _ & Hreg & Hw & _).
    assert (a <> tx_sender t) by congruence.
    rewrite Hreg, Hw, !upd_other by assumption. exact Hstay.
  - destruct (submitClaim _ _ _ _ _ _ _) as [[s' cid]| |] eqn:Hrun; try assumption.
    apply submitClaim_ok in Hrun as (_ & Hreg & _ & Hw & _).
    simpl. rewrite Hreg, Hw. exact Hstay.
  - destruct (verifyClaim _ _ _ _ _ _) as [s'| |] eqn:Hrun; simpl; try assumption.
    pose proof (verifyClaim_profile _ _ _ _ _ _ a Hrun) as Hprofile.
    apply verifyClaim_ok in Hrun as ((_ & _ & _ & _ & _ & _ & Hmin) & Hreg & _ & _ & _ & _ & _ & _
          & Hworkers & Hrep & _ & Hrep' & _).
    rewrite Hreg. split; [assumption|]. split; [assumption|].
    destruct (Z.eq_dec a (tx_sender t)) as [-> | Na].
    + right; left. split; assumption.
    + left. destruct (Z.eq_dec a (worker (claims (store c) claimId))) as [-> | Nb];
        [assumption | now rewrite Hworkers by auto].
  - destruct (issueCert _ _ _ _ _ _ _) as [[c' cid]| |] eqn:Hrun; try assumption.
    apply issueCert_store in Hrun as [-> _]. exact Hstay.
  - destruct (slashVerifier _ _ _ _) eqn:Hrun; try assumption.
    apply slashVerifier_ok in Hrun as (_ & _ & Hw & Hreg & _).
    rewrite Hreg, Hw. split; [assumption|]. unfold upd.
    destruct (a =? verifier) eqn:E; [|split; [apply same_profile_refl | now left]].
    apply Z.eqb_eq in E. subst a. simpl.
    split; [repeat split | right; right; reflexivity].
Qed.

Lemma same_profile_trans w1 w2 w3 :
  same_profile w1 w2 -> same_profile w2 w3 -> same_profile w1 w3.
Proof.
  unfold same_profile. intros (A1 & A2 & A3 & A4 & A5 & A6) (B1 & B2 & B3 & B4 & B5 & B6).
  repeat split; congruence.
Qed.

Lemma registered_worker_later c c' a :
  invariant c ->
  reachable_from keccak256 keccak256_cert c c' ->
  registeredWorkers (store c) a = true ->
  registeredWorkers (store c') a = true
  /\ same_profile (workers (store c) a) (workers (store c') a)
  /\ (reputationScore (workers (store c) a) < 1000 ->
      reputationScore (workers (store c') a)
      <= reputationScore (workers (store c) a)).
Proof.
  intros Inv Hreach Ha. induction Hreach as [|t c' Hreach IH Hsigned].
  - split; [assumption|]. split; [apply same_profile_refl | lia].
  - destruct IH as (Hreg & Hprofile & Hlow).
    pose proof (invariant_reachable_from_chain _ _ Inv Hreach) as Inv'.
    destruct (after_registered_worker t c' a Hreg) as (Hreg' & Hprofile' & Hmove).
    split; [assumption|]. split; [eapply same_profile_trans; eassumption|].
    intros Hbelow. specialize (Hlow Hbelow).
    pose proof (inv_reputation _ Inv' a).
    destruct Hmove as [-> | [[? ->] | ->]]; lia.
Qed.

Lemma verifyClaim_low_reputation sender ts bn claimId s :
  reputationScore (workers s sender) < 1000 ->
  exists reason, verifyClaim keccak256 sender ts bn claimId s = Revert reason.
Proof.
  intros Hlow. unfold verifyClaim.
  destruct (negb _); [eexists; reflexivity|].
  destruct (_ =? 0); [eexists; reflexivity|].
  destruct (_ =? sender); [eexists; reflexivity|].
  destruct (hasVerified s claimId sender); [eexists; reflexivity|].
  destruct (status_eqb _ Verified); [eexists; reflexivity|].
  destruct (status_eqb _ Rejected); [eexists; reflexivity|].
  destruct (Z.ltb_spec (reputationScore (workers s sender)) 1000);
    [eexists; reflexivity | lia].
Qed.

Lemma repeated_S step n c : repeated step (S n) c = step (repeated step n c).
Proof. reflexivity. Qed.

Lemma reachable_repeated t n c0 c :
  Scenario.signedb t = true ->
  reachable_from Scenario.hash Scenario.cert_hash c0 c ->
  reachable_from Scenario.hash Scenario.cert_hash c0
    (repeated (after Scenario.hash Scenario.cert_hash t) n c).
Proof.
  intros Hsigned Hreach. induction n as [|n IH]; [assumption|].
  unfold repeated in *. simpl. apply reach_step; [assumption|].
  unfold Scenario.signedb in Hsigned. apply andb_true_iff in Hsigned as [A B].
  apply negb_true_iff, Z.eqb_neq in A. apply Z.ltb_lt in B. split; assumption.
Qed.

Lemma slashVerifier_runs verifier claimId c :
  hasVerified (store c) claimId verifier = true ->
  slashVerifier (owner c) verifier claimId c
  = Ok (with_store c
          (with_workers (store c)
             (upd (workers (store c)) verifier
                (set_reputation (workers (store c) verifier)
                   (Z.max 0 (reputationScore (workers (store c) verifier) - 500)))))).
Proof.
  intros Hv. unfold slashVerifier. rewrite Z.eqb_refl, Hv. cbn [negb]. cbv zeta.
  unfold REP_LOSS_FALSE.
  destruct (Z.ltb_spec 500 (reputationScore (workers (store c) verifier)));
    [rewrite Z.max_r by lia | rewrite Z.max_l by lia]; reflexivity.
Qed.

Lemma slashing_step t verifier claimId c :
  tx_call t = SlashVerifier verifier claimId ->
  tx_sender t = owner c ->
  hasVerified (store c) claimId verifier = true ->
  let c' := after keccak256 keccak256_cert t c in
  reputationScore (workers (store c') verifier)
  = Z.max 0 (reputationScore (workers (store c) verifier) - 500)
  /\ (forall a, a <> verifier -> workers (store c') a = workers (store c) a)
  /\ claims (store c') = claims (store c)
  /\ hasVerified (store c') = hasVerified (store c)
  /\ registeredWorkers (store c') = registeredWorkers (store c)
  /\ owner c' = owner c.
Proof.
  intros Hcall Hsender Hv. unfold after, run. rewrite Hcall, Hsender.
  rewrite slashVerifier_runs by assumption. simpl.
  rewrite upd_same. simpl. split; [reflexivity|].
  split; [intros a Ha; now rewrite upd_other | repeat split].
Qed.

Lemma stranger_never_verified c claimId a :
  invariant c ->
  registeredWorkers (store c) a = false ->
  hasVerified (store c) claimId a = false.
Proof.
  intros Inv Ha. destruct (hasVerified (store c) claimId a) eqn:E; [|reflexivity].
  apply Inv in E. apply (inv_registered c Inv) in E. congruence.
Qed.

End ChainFacts.

Section ChainProperties.

Import Contract Chain.
Local Open Scope string_scope.
Local Open Scope list_scope.
Local Open Scope Z_scope.

(** The record of who verified what is consistent in every state of the
    deployed contract: [hasVerified] marks exactly the addresses of the
    claim's [verifiers], no address occurs twice among them, and each of them
    is a registered worker. *)
Theorem verifiers_are_recorded_once keccak256 keccak256_cert c claimId :
  reachable keccak256 keccak256_cert c ->
  (forall a, hasVerified (store c) claimId a = true
             <-> In a (verifiers (claims (store c) claimId)))
  /\ NoDup (verifiers (claims (store c) claimId))
  /\ (forall a, In a (verifiers (claims (store c) claimId)) ->
                registeredWorkers (store c) a = true).
Proof.
  intros [deployer Hreach].
  pose proof (invariant_reachable_from_chain keccak256 keccak256_cert _ _
                (invariant_deploy deployer) Hreach) as Inv.
  split; [intros a; apply Inv|]. split; [apply Inv|].
  intros a. apply Inv.
Qed.

Lemma verifiers_are_recorded_once_witness :
  NoDup (verifiers (claims (store Scenario.town_sealed) Scenario.filed_claim)).
Proof.
  exact (proj1 (proj2 (verifiers_are_recorded_once Scenario.hash Scenario.cert_hash
                         Scenario.town_sealed Scenario.filed_claim
                         reachable_town_sealed))).
Defined.

(** The status of a claim in the deployed contract: no call ever makes it
    Rejected; a Verified claim has at least three verifiers, a
    PartiallyVerified claim one or two. *)
Theorem claim_status_in_reachable_states keccak256 keccak256_cert c claimId :
  reachable keccak256 keccak256_cert c ->
  status (claims (store c) claimId) <> Rejected
  /\ (status (claims (store c) claimId) = Verified ->
      (3 <= List.length (verifiers (claims (store c) claimId)))%nat)
  /\ (status (claims (store c) claimId) = PartiallyVerified ->
      (1 <= List.length (verifiers (claims (store c) claimId)) <= 2)%nat).
Proof.
  intros [deployer Hreach].
  pose proof (invariant_reachable_from_chain keccak256 keccak256_cert _ _
                (invariant_deploy deployer) Hreach) as Inv.
  split; [apply Inv|]. split; apply Inv.
Qed.

Lemma claim_status_in_reachable_states_witness :
  (3 <= List.length (verifiers (claims (store Scenario.town_sealed)
                                  Scenario.filed_claim)))%nat.
Proof.
  apply (proj1 (proj2 (claim_status_in_reachable_states Scenario.hash
                         Scenario.cert_hash Scenario.town_sealed
                         Scenario.filed_claim reachable_town_sealed))).
  vm_compute. reflexivity.
Defined.

(** A registered worker whose reputation has fallen below 10.00 is locked
    out for good: whatever is called afterwards, the reputation never rises
    again, and every [verifyClaim] of that worker reverts. *)
Theorem low_reputation_is_permanent keccak256 keccak256_cert c c' a :
  reachable keccak256 keccak256_cert c ->
  reachable_from keccak256 keccak256_cert c c' ->
  registeredWorkers (store c) a = true ->
  reputationScore (workers (store c) a) < 1000 ->
  reputationScore (workers (store c') a) <= reputationScore (workers (store c) a)
  /\ forall ts bn claimId,
       exists reason,
         verifyClaim keccak256 a ts bn claimId (store c') = Revert reason.
Proof.
  intros [deployer Hreach] Hlater Ha Hlow.
  pose proof (invariant_reachable_from_chain keccak256 keccak256_cert _ _
                (invariant_deploy deployer) Hreach) as Inv.
  destruct (registered_worker_later keccak256 keccak256_cert c c' a Inv Hlater Ha)
    as (_ & _ & Hle).
  specialize (Hle Hlow). split; [assumption|].
  intros ts bn claimId. apply verifyClaim_low_reputation. lia.
Qed.

Lemma low_reputation_is_permanent_witness :
  reputationScore
    (workers (store (after Scenario.hash Scenario.cert_hash Scenario.slash_two
                       Scenario.town_slashed)) 2)
  <= reputationScore (workers (store Scenario.town_slashed) 2)
  /\ exists reason,
       verifyClaim Scenario.hash 2 400 6 77
         (store (after Scenario.hash Scenario.cert_hash Scenario.slash_two
                   Scenario.town_slashed))
       = Revert reason.
Proof.
  assert (Hreach : reachable Scenario.hash Scenario.cert_hash Scenario.town_slashed).
  { destruct reachable_town_sealed as [deployer H]. exists deployer.
    apply reachable_repeated; [reflexivity | assumption]. }
  destruct (low_reputation_is_permanent Scenario.hash Scenario.cert_hash
              Scenario.town_slashed
              (after Scenario.hash Scenario.cert_hash Scenario.slash_two
                 Scenario.town_slashed) 2 Hreach) as [Hle Hrevert].
  - apply reach_step; [apply reach_start | split; [discriminate | reflexivity]].
  - vm_compute. reflexivity.
  - vm_compute. reflexivity.
  - split; [exact Hle | apply Hrevert].
Defined.

(** Slashing: each call of the owner takes 5.00 off the reputation of a
    verifier of the claim, down to zero and no further, so [n] calls leave
    [max 0 (r - 500 n)]; the claim, its verifiers and the other workers stay
    as they are, and the verifier can be slashed for one verification as
    often as the owner likes. *)
Theorem repeated_slashing keccak256 keccak256_cert c t verifier claimId n :
  reachable keccak256 keccak256_cert c ->
  tx_call t = SlashVerifier verifier claimId ->
  tx_sender t = owner c ->
  hasVerified (store c) claimId verifier = true ->
  reputationScore
    (workers (store (repeated (after keccak256 keccak256_cert t) n c)) verifier)
  = Z.max 0 (reputationScore (workers (store c) verifier) - 500 * Z.of_nat n)
  /\ (forall a, a <> verifier ->
        workers (store (repeated (after keccak256 keccak256_cert t) n c)) a
        = workers (store c) a)
  /\ claims (store (repeated (after keccak256 keccak256_cert t) n c))
     = claims (store c)
  /\ hasVerified (store (repeated (after keccak256 keccak256_cert t) n c))
     = hasVerified (store c).
Proof.
  intros [deployer Hreach] Hcall Hsender Hv.
  pose proof (invariant_reachable_from_chain keccak256 keccak256_cert _ _
                (invariant_deploy deployer) Hreach) as Inv.
  assert (Hall :
    reputationScore
      (workers (store (repeated (after keccak256 keccak256_cert t) n c)) verifier)
    = Z.max 0 (reputationScore (workers (store c) verifier) - 500 * Z.of_nat n)
    /\ (forall a, a <> verifier ->
          workers (store (repeated (after keccak256 keccak256_cert t) n c)) a
          = workers (store c) a)
    /\ claims (store (repeated (after keccak256 keccak256_cert t) n c))
       = claims (store c)
    /\ hasVerified (store (repeated (after keccak256 keccak256_cert t) n c))
       = hasVerified (store c)
    /\ owner (repeated (after keccak256 keccak256_cert t) n c) = owner c).
  { induction n as [|n IH].
    - unfold repeated. simpl. pose proof (inv_reputation c Inv verifier).
      repeat split; lia.
    - destruct IH as (Hrep & Hothers & Hclaims & Hmarks & Howner).
      rewrite repeated_S.
      destruct (slashing_step keccak256 keccak256_cert t verifier claimId
                  (repeated (after keccak256 keccak256_cert t) n c) Hcall)
        as (Hrep' & Hothers' & Hclaims' & Hmarks' & _ & Howner');
        [congruence | now rewrite Hmarks |].
      rewrite Hrep', Hrep, Hclaims', Hmarks', Howner'.
      split; [lia|]. split; [|repeat split; assumption].
      intros a Ha. rewrite Hothers' by assumption. now apply Hothers. }
  destruct Hall as (A & B & C & D & _). repeat split; assumption.
Qed.

Lemma repeated_slashing_witness :
  reputationScore (workers (store Scenario.town_slashed) 2)
  = Z.max 0 (reputationScore (workers (store Scenario.town_sealed) 2) - 500 * 9).
Proof.
  apply (repeated_slashing Scenario.hash Scenario.cert_hash Scenario.town_sealed
           Scenario.slash_two 2 Scenario.filed_claim 9 reachable_town_sealed);
    vm_compute; reflexivity.
Defined.

(** A sealed claim can be opened again: when its worker submits the same
    date in the block of the first submission, the claim has the same
    identifier, [submitClaim] overwrites hours and task, sets the status back
    to Pending and keeps the verifiers; the next [verifyClaim] that goes
    through seals it again and counts one more verified day for the worker
    and one more verified claim. *)
Theorem resubmission_reopens_a_sealed_claim keccak256 keccak256_cert c
    sender ts date_ hoursX10 task s1 claimId :
  reachable keccak256 keccak256_cert c ->
  status (claims (store c) claimId) = Verified ->
  submitClaim keccak256 sender ts date_ hoursX10 task (store c) = Ok (s1, claimId) ->
  status (claims s1 claimId) = Pending
  /\ hours (claims s1 claimId) = hoursX10
  /\ taskHash (claims s1 claimId) = task
  /\ verifiers (claims s1 claimId) = verifiers (claims (store c) claimId)
  /\ forall v ts' bn s2,
       verifyClaim keccak256 v ts' bn claimId s1 = Ok s2 ->
       status (claims s2 claimId) = Verified
       /\ verifiedDays (workers s2 sender)
          = verifiedDays (workers (store c) sender) + 1
       /\ totalVerifiedClaims s2 = totalVerifiedClaims (store c) + 1.
Proof.
  intros [deployer Hreach] Hsealed Hsubmit.
  pose proof (invariant_reachable_from_chain keccak256 keccak256_cert _ _
                (invariant_deploy deployer) Hreach) as Inv.
  pose proof (inv_sealed c Inv claimId Hsealed) as Hthree.
  apply submitClaim_ok in Hsubmit as (_ & _ & _ & Hw & Htotal & _ & Hnew & _).
  rewrite Hnew. simpl. do 4 (split; [reflexivity|]).
  intros v ts' bn s2 Hverify.
  apply verifyClaim_ok in Hverify
    as (_ & _ & _ & _ & _ & _ & _ & Hstatus & _ & _ & _ & _ & Hdays & Hcount).
  rewrite Hnew in Hstatus, Hdays, Hcount. simpl in Hstatus, Hdays, Hcount.
  destruct (Z.leb_spec 3
              (Z.of_nat (List.length (verifiers (claims (store c) claimId))) + 1));
    [|lia].
  rewrite Hw, Htotal in *. repeat split; assumption.
Qed.

Lemma resubmission_reopens_a_sealed_claim_witness :
  status (claims (store Scenario.town_reopened) Scenario.filed_claim) = Pending
  /\ verifiedDays
       (workers (store (Scenario.play
                          [Scenario.tx 5 200 (VerifyClaim Scenario.filed_claim)]
                          Scenario.town_reopened)) 1) = 2.
Proof.
  destruct (resubmission_reopens_a_sealed_claim Scenario.hash Scenario.cert_hash
              Scenario.town_sealed 1 200 20468 80 "QmTask"
              (store Scenario.town_reopened) Scenario.filed_claim
              reachable_town_sealed)
    as (Hpending & _ & _ & _ & Hnext).
  - vm_compute. reflexivity.
  - vm_compute. reflexivity.
  - split; [exact Hpending|].
    destruct (Hnext 5 200 5
                (store (Scenario.play
                          [Scenario.tx 5 200 (VerifyClaim Scenario.filed_claim)]
                          Scenario.town_reopened)))
      as (_ & Hdays & _); [vm_compute; reflexivity|].
    rewrite Hdays. vm_compute. reflexivity.
Defined.

(** C10 (sealed claims are frozen at the quorum count), at the input where
    the contract departs from it.  Workers 2, 3 and 4 have verified the claim
    of worker 1, which is Verified with these three verifiers, and a
    [verifyClaim] of worker 5 reverts.  Worker 1 then submits the same date
    in the block of the first submission: the identifier is the same, and
    [submitClaim] sets the claim back to Pending with its verifiers.  Now the
    [verifyClaim] of worker 5 goes through: the claim is Verified with four
    verifiers, and worker 1 has two verified days for the one claim.  The
    state is one that transactions produce from the deployment. *)
Example sealed_claim_is_verified_again :
  reachable Scenario.hash Scenario.cert_hash Scenario.town_resealed
  /\ status (claims (store Scenario.town_sealed) Scenario.filed_claim) = Verified
  /\ verifiers (claims (store Scenario.town_sealed) Scenario.filed_claim) = [2; 3; 4]
  /\ verifyClaim Scenario.hash 5 200 5 Scenario.filed_claim
       (store Scenario.town_sealed) = Revert "Already sealed"
  /\ submitClaim Scenario.hash 1 200 20468 80 "QmTask" (store Scenario.town_sealed)
     = Ok (store Scenario.town_reopened, Scenario.filed_claim)
  /\ status (claims (store Scenario.town_reopened) Scenario.filed_claim) = Pending
  /\ verifyClaim Scenario.hash 5 200 5 Scenario.filed_claim
       (store Scenario.town_reopened) = Ok (store Scenario.town_resealed)
  /\ status (claims (store Scenario.town_resealed) Scenario.filed_claim) = Verified
  /\ verifiers (claims (store Scenario.town_resealed) Scenario.filed_claim)
     = [2; 3; 4; 5]
  /\ verifiedDays (workers (store Scenario.town_sealed) 1) = 1
  /\ verifiedDays (workers (store Scenario.town_resealed) 1) = 2.
Proof.
  split.
  - exists 9. unfold Scenario.town_resealed, Scenario.town_reopened,
      Scenario.town_sealed, Scenario.town.
    do 4 (apply reachable_play; [reflexivity|]). constructor.
  - vm_compute. repeat split.
Qed.

(** Registration is once and for good: the record written by
    [registerWorker] starts at reputation 50.00 with no verified day, and in
    every later state the address is still registered, its wallet, name,
    location, sector, registration time and active mark are the ones
    written, and a second [registerWorker] of the address reverts. *)
Theorem registration_is_permanent keccak256 keccak256_cert c c1 c2
    sender ts n l sec :
  reachable keccak256 keccak256_cert c ->
  registerWorker sender ts n l sec c = Ok c1 ->
  reachable_from keccak256 keccak256_cert c1 c2 ->
  workers (store c1) sender
  = {| wallet := sender; name := n; location := l; sector := sec;
       reputationScore := 5000; verifiedDays := 0; registeredAt := ts;
       isActive := true |}
  /\ totalWorkers c1 = totalWorkers c + 1
  /\ registeredWorkers (store c2) sender = true
  /\ same_profile (workers (store c1) sender) (workers (store c2) sender)
  /\ forall ts' n' l' sec',
       registerWorker sender ts' n' l' sec' c2 = Revert "Already registered".
Proof.
  intros [deployer Hreach] Hrun Hlater.
  pose proof (invariant_reachable_from_chain keccak256 keccak256_cert _ _
                (invariant_deploy deployer) Hreach) as Inv.
  pose proof (invariant_registerWorker _ _ _ _ _ _ _ Hrun Inv) as Inv1.
  apply registerWorker_ok in Hrun as (_ & _ & Hreg & Hw & _ & _ & Htotal & _).
  assert (Hreg1 : registeredWorkers (store c1) sender = true)
    by (rewrite Hreg; apply upd_same).
  destruct (registered_worker_later keccak256 keccak256_cert c1 c2 sender
              Inv1 Hlater Hreg1) as (Hreg2 & Hprofile & _).
  split; [rewrite Hw; apply upd_same|]. split; [assumption|].
  split; [assumption|]. split; [assumption|].
  intros ts' n' l' sec'. unfold registerWorker. now rewrite Hreg2.
Qed.

Lemma registration_is_permanent_witness :
  name (workers (store Scenario.town_grown_sealed) 6) = "E"
  /\ registerWorker 6 500 "Q" "Nairobi" "Transport" Scenario.town_grown_sealed
     = Revert "Already registered".
Proof.
  destruct (registration_is_permanent Scenario.hash Scenario.cert_hash
              Scenario.town Scenario.town_grown Scenario.town_grown_sealed
              6 150 "E" "Kericho" "Tea" reachable_town)
    as (Hrecord & _ & _ & (_ & Hname & _) & Hagain).
  - vm_compute. reflexivity.
  - unfold Scenario.town_grown_sealed. apply reachable_play; [reflexivity|].
    apply reach_start.
  - split; [|apply Hagain]. rewrite Hname, Hrecord. reflexivity.
Defined.

(** [issueCert] asks that seven in ten of the listed wallets are registered
    workers with a verified day, a wallet that is listed several times
    counting each time; the certificate then records every wallet of the
    list, eligible or not, and anybody may call it. *)
Theorem certificate_needs_seventy_percent keccak256_cert c sender ts b ph ws :
  ws <> [] ->
  100 * Z.of_nat (List.length ws) <= MAX_UINT256 ->
  totalCerts c < MAX_UINT256 ->
  (7 * Z.of_nat (List.length ws)
   <= 10 * Z.of_nat (List.length (eligible (store c) ws)) ->
   issueCert keccak256_cert sender ts b ph ws c
   = Ok (with_cert c (keccak256_cert b ph ts sender)
           {| cert_id := keccak256_cert b ph ts sender; brand := b;
              productHash := ph; verifiedWorkers := ws; issuedAt := ts;
              isValid := true |} (totalCerts c + 1),
         keccak256_cert b ph ts sender))
  /\ (10 * Z.of_nat (List.length (eligible (store c) ws))
      < 7 * Z.of_nat (List.length ws) ->
      issueCert keccak256_cert sender ts b ph ws c
      = Revert "< 70% workers verified").
Proof.
  intros Hws Hfit Hcerts.
  assert (Hpos : 0 < Z.of_nat (List.length ws))
    by (destruct ws; [congruence | simpl List.length; lia]).
  assert (Hle : Z.of_nat (List.length (eligible (store c) ws))
                <= Z.of_nat (List.length ws)).
  { unfold eligible. pose proof (filter_length_le
      (fun w => registeredWorkers (store c) w
                && (0 <? verifiedDays (workers (store c) w))) ws). lia. }
  unfold issueCert, checked_mul, checked_add.
  destruct (Z.ltb_spec 0 (Z.of_nat (List.length ws))); [|lia]. cbn [negb].
  destruct (Z.leb_spec (Z.of_nat (List.length (eligible (store c) ws)) * 100)
                       MAX_UINT256); [|lia].
  split; intros Hshare.
  - destruct (Z.leb_spec 70 (Z.of_nat (List.length (eligible (store c) ws)) * 100
                             / Z.of_nat (List.length ws))) as [_ | Hlt].
    + cbn [negb]. destruct (Z.leb_spec (totalCerts c + 1) MAX_UINT256); [|lia].
      reflexivity.
    + exfalso. apply Z.lt_nge in Hlt. apply Hlt.
      apply Z.div_le_lower_bound; lia.
  - destruct (Z.leb_spec 70 (Z.of_nat (List.length (eligible (store c) ws)) * 100
                             / Z.of_nat (List.length ws))) as [Hge | _].
    + exfalso.
      pose proof (Z.mul_div_le
                    (Z.of_nat (List.length (eligible (store c) ws)) * 100)
                    (Z.of_nat (List.length ws)) Hpos).
      nia.
    + reflexivity.
Qed.

Lemma certificate_needs_seventy_percent_witness :
  issueCert Scenario.cert_hash 6 300 "Brand" "QmBatch" [1; 1; 1; 7]
    Scenario.town_sealed
  = Ok (with_cert Scenario.town_sealed 306
          {| cert_id := 306; brand := "Brand"; productHash := "QmBatch";
             verifiedWorkers := [1; 1; 1; 7]; issuedAt := 300; isValid := true |} 1,
        306).
Proof.
  apply (proj1 (certificate_needs_seventy_percent Scenario.cert_hash
                  Scenario.town_sealed 6 300 "Brand" "QmBatch" [1; 1; 1; 7]
                  ltac:(discriminate) ltac:(vm_compute; discriminate)
                  ltac:(vm_compute; reflexivity))).
  vm_compute. discriminate.
Defined.

(** An address that never registered has nothing on the contract: its
    worker record is the zero record, its credit proxy reads (0, 0, 0), it
    has verified no claim, it cannot be slashed, and listed for a
    certificate it does not count. *)
Theorem strangers_have_no_record keccak256 keccak256_cert c a :
  reachable keccak256 keccak256_cert c ->
  registeredWorkers (store c) a = false ->
  workers (store c) a = no_worker
  /\ (forall ts, getCreditProxy ts a c = Ok (0, 0, 0))
  /\ (forall claimId, hasVerified (store c) claimId a = false)
  /\ (forall claimId,
        slashVerifier (owner c) a claimId c = Revert "Did not verify this claim")
  /\ eligible (store c) [a] = [].
Proof.
  intros [deployer Hreach] Ha.
  pose proof (invariant_reachable_from_chain keccak256 keccak256_cert _ _
                (invariant_deploy deployer) Hreach) as Inv.
  pose proof (inv_stranger c Inv a Ha) as Hzero.
  split; [assumption|].
  split; [intros ts; unfold getCreditProxy; rewrite Hzero; reflexivity|].
  split; [intros claimId; now apply stranger_never_verified|].
  split.
  - intros claimId. unfold slashVerifier.
    rewrite Z.eqb_refl, (stranger_never_verified c claimId a Inv Ha). reflexivity.
  - unfold eligible. simpl. now rewrite Ha.
Qed.

Lemma strangers_have_no_record_witness :
  getCreditProxy 400 7 Scenario.town_sealed = Ok (0, 0, 0).
Proof.
  apply (proj1 (proj2 (strangers_have_no_record Scenario.hash Scenario.cert_hash
                         Scenario.town_sealed 7 reachable_town_sealed
                         ltac:(vm_compute; reflexivity)))).
Defined.

End ChainProperties.

(** * The rows of a ledger produced by the routes *)

Section LedgerAudit.

Import Backend Routes.
Local Open Scope string_scope.
Local Open Scope list_scope.

(** ** The score of a submission that passes the check of the hours *)

Lemma calcAnomalyScore_tests e d w h date :
  calcAnomalyScore e d w h date
  = value (let sum :=
             plus64 (repeats e d w h date) 0.2
               (plus64 (deviates e d w h date) 0.25
                  (plus64 (Qgt_bool h 16) 0.35
                     (plus64 (Qgt_bool h 14) 0.4 (of_Z 0)))) in
           if flt (D 1) sum then D 1 else sum).
Proof.
  unfold calcAnomalyScore, deviates, repeats, plus64. cbv zeta.
  destruct (recent_claims e d w date) as [|c l]; [|now rewrite andb_comm].
  simpl. now rewrite andb_false_r.
Qed.

Lemma calcAnomalyScore_accepted e d w h date :
  Qgt_bool h 16 = false ->
  (calcAnomalyScore e d w h date <= top_score)%Q
  /\ (Qgt_bool (calcAnomalyScore e d w h date) (js 0.65) = true ->
      calcAnomalyScore e d w h date = top_score
      /\ Qgt_bool h 14 = true
      /\ deviates e d w h date = true
      /\ repeats e d w h date = true).
Proof.
  intros H16. rewrite calcAnomalyScore_tests, H16.
  destruct (Qgt_bool h 14), (deviates e d w h date), (repeats e d w h date);
    (split; [vm_compute; discriminate|]); intros Hgt;
    try (vm_compute in Hgt; discriminate).
  repeat split.
Qed.

(** ** What a request writes *)

Lemma submit_claim_rows e req w d d' r :
  submit_claim e req w d = (d', r) -> is_failure r = false ->
  exists c,
    work_claims d' = work_claims d ++ [c]
    /\ wc_id c = gen_id e /\ wc_worker_id c = w /\ wc_status c = "pending"
    /\ Qgt_bool (wc_hours c) 16 = false
    /\ wc_anomaly_score c = calcAnomalyScore e d w (wc_hours c) (wc_date c)
    /\ workers d' = workers d
    /\ verifications d' = verifications d
    /\ anomaly_flags d'
       = if Qgt_bool (wc_anomaly_score c) (js 0.65)
         then anomaly_flags d ++
              [{| af_id := gen_flag_id e; af_flagged_entity := gen_id e;
                  af_entity_type := "claim"; af_anomaly_type := "suspicious_hours";
                  af_risk_score := wc_anomaly_score c; af_resolved := false |}]
         else anomaly_flags d.
Proof.
  unfold submit_claim.
  destruct (r_hours req) as [hours|]; [|intros [= <- <-]; discriminate].
  destruct (r_task req) as [task|]; [|intros [= <- <-]; discriminate].
  destruct (falsy_num _ || falsy_str _); [intros [= <- <-]; discriminate|].
  destruct (Qgt_bool hours 16) eqn:H16; [intros [= <- <-]; discriminate|].
  destruct (find _ (work_claims d)); [intros [= <- <-]; discriminate|].
  cbv zeta. intros [= <- <-] _.
  exists {| wc_id := gen_id e; wc_worker_id := w;
            wc_date := claim_date e req; wc_hours := hours; wc_task := task;
            wc_location_lat := or_null (r_location_lat req);
            wc_location_lng := or_null (r_location_lng req);
            wc_status := "pending"; wc_ipfs_hash := None; wc_tx_hash := None;
            wc_block_number := None;
            wc_anomaly_score :=
              calcAnomalyScore e d w hours (claim_date e req);
            wc_created_at := now e |}.
  simpl. destruct (Qgt_bool (calcAnomalyScore _ _ _ _ _) (js 0.65)); simpl;
    repeat split; exact H16.
Qed.

Lemma verify_claim_flags e req w d :
  anomaly_flags (fst (verify_claim e req w d)) = anomaly_flags d.
Proof. unfold verify_claim. split_handler; reflexivity. Qed.

Lemma register_rows e n l s d d' r :
  post_api_workers_register e n l s d = (d', r) -> is_failure r = false ->
  exists w,
    workers d' = workers d ++ [w]
    /\ w_id w = gen_id e /\ total_days_worked w = 0%Z
    /\ work_claims d' = work_claims d
    /\ verifications d' = verifications d
    /\ anomaly_flags d' = anomaly_flags d.
Proof.
  unfold post_api_workers_register.
  destruct n as [n|], l as [l|], s as [s|]; try (intros [= <- <-]; discriminate).
  destruct (_ || _); [intros [= <- <-]; discriminate|].
  intros [= <- <-] _. eexists. repeat split.
Qed.

Lemma credit_report_rows e w d :
  workers (fst (credit_report_for e w d)) = workers d
  /\ work_claims (fst (credit_report_for e w d)) = work_claims d
  /\ verifications (fst (credit_report_for e w d)) = verifications d
  /\ anomaly_flags (fst (credit_report_for e w d)) = anomaly_flags d.
Proof.
  unfold credit_report_for.
  destruct (find_worker d w); [|repeat split].
  destruct (filter _ (work_claims d)); repeat split.
Qed.

(** ** Lists *)

Lemma map_w_id_update_where q f (l : list worker) :
  (forall x, w_id (f x) = w_id x) ->
  map w_id (update_where q f l) = map w_id l.
Proof.
  intros Hf. unfold update_where. rewrite map_map. apply map_ext.
  intros x. destruct (q x); [apply Hf | reflexivity].
Qed.

Lemma filter_length_map_grows {A} (p : A -> bool) (g : A -> A) (l : list A) :
  (forall x, p x = true -> p (g x) = true) ->
  (List.length (filter p l) <= List.length (filter p (map g l)))%nat.
Proof.
  intros Hg. induction l as [|a l IH]; simpl; [lia|].
  destruct (p a) eqn:Ha.
  - rewrite (Hg a Ha). simpl. lia.
  - destruct (p (g a)); simpl; lia.
Qed.

Lemma filter_length_map_gains {A} (p : A -> bool) (g : A -> A) (l : list A) x :
  (forall x, p x = true -> p (g x) = true) ->
  In x l -> p x = false -> p (g x) = true ->
  (S (List.length (filter p l)) <= List.length (filter p (map g l)))%nat.
Proof.
  intros Hg Hin Hx Hgx. induction l as [|a l IH]; simpl; [contradiction|].
  destruct Hin as [-> | Hin].
  - rewrite Hx, Hgx. simpl.
    pose proof (filter_length_map_grows p g l Hg). lia.
  - specialize (IH Hin). destruct (p a) eqn:Ha.
    + rewrite (Hg a Ha). simpl. lia.
    + destruct (p (g a)); simpl; lia.
Qed.

(** ** The sealed claims of a worker along the requests *)

Lemma sealed_claims_same d d' x :
  work_claims d' = work_claims d -> sealed_claims d' x = sealed_claims d x.
Proof. unfold sealed_claims. now intros ->. Qed.

Lemma sealed_claims_after_submission d d' c x :
  work_claims d' = work_claims d ++ [c] -> wc_status c = "pending" ->
  sealed_claims d' x = sealed_claims d x.
Proof.
  intros Hc Hst. unfold sealed_claims. rewrite Hc, filter_app. simpl.
  rewrite Hst. simpl. rewrite andb_false_r. apply app_nil_r.
Qed.

Lemma sealed_claims_after_seal e d d' claim x :
  find_claim d (wc_id claim) = Some claim ->
  wc_status claim <> "verified" ->
  work_claims d'
  = update_where (fun c => String.eqb (wc_id c) (wc_id claim)) (seal_row e)
                 (work_claims d) ->
  (List.length (sealed_claims d x)
   + (if String.eqb x (wc_worker_id claim) then 1 else 0)
   <= List.length (sealed_claims d' x))%nat.
Proof.
  intros Hfind Hst Hrows. unfold sealed_claims. rewrite Hrows. unfold update_where.
  set (p := fun c => String.eqb (wc_worker_id c) x
                     && String.eqb (wc_status c) "verified").
  set (g := fun c => if String.eqb (wc_id c) (wc_id claim) then seal_row e c else c).
  assert (Hg : forall c, p c = true -> p (g c) = true).
  { intros c Hc. unfold g. destruct (String.eqb (wc_id c) (wc_id claim)); [|exact Hc].
    unfold p in *. apply andb_true_iff in Hc as [Hc _]. simpl. now rewrite Hc. }
  destruct (String.eqb_spec x (wc_worker_id claim)) as [-> | Hx].
  - apply find_claim_In in Hfind as [Hin _].
    pose proof (filter_length_map_gains p g (work_claims d) claim Hg Hin) as H.
    rewrite Nat.add_1_r. apply H.
    + unfold p. apply String.eqb_neq in Hst. now rewrite Hst, andb_false_r.
    + unfold g, p. rewrite String.eqb_refl. simpl. now rewrite String.eqb_refl.
  - rewrite Nat.add_0_r. now apply filter_length_map_grows.
Qed.

(** ** The audit holds in every ledger produced by the routes *)

Lemma audit_empty : ledger_audit empty_db.
Proof. constructor; simpl; try (now constructor); intros ? []. Qed.

Lemma audit_same_rows d d' :
  workers d' = workers d -> work_claims d' = work_claims d ->
  anomaly_flags d' = anomaly_flags d ->
  ledger_audit d -> ledger_audit d'.
Proof.
  intros Hw Hc Hf A. constructor; unfold sealed_claims; rewrite ?Hw, ?Hc, ?Hf; apply A.
Qed.

Lemma fresh_ids e d :
  Backend.fresh e d ->
  ~ In (gen_id e) (map w_id (workers d))
  /\ ~ In (gen_id e) (map wc_id (work_claims d)).
Proof.
  unfold Backend.fresh, used_ids. rewrite !in_app_iff. tauto.
Qed.

Lemma audit_register e n l s d :
  ledger_audit d -> Backend.fresh e d ->
  ledger_audit (fst (post_api_workers_register e n l s d)).
Proof.
  intros A Hfresh.
  destruct (is_failure (snd (post_api_workers_register e n l s d))) eqn:Hf;
    [now rewrite register_failure|].
  destruct (register_rows e n l s d _ _ (surjective_pairing _) Hf)
    as (w0 & Hw & Hid & Hdays & Hc & _ & Hflags).
  constructor; unfold sealed_claims; rewrite ?Hc, ?Hflags; try apply A.
  - rewrite Hw, map_app. simpl. apply NoDup_snoc; [apply A|].
    rewrite Hid. now apply fresh_ids.
  - rewrite Hw. intros w' Hin. apply in_app_or in Hin as [Hin | [<- | []]].
    + now apply (audit_days d A).
    + rewrite Hdays. lia.
Qed.

Lemma audit_submit_claim e req w d :
  ledger_audit d -> Backend.fresh e d -> ledger_audit (fst (submit_claim e req w d)).
Proof.
  intros A Hfresh.
  destruct (is_failure (snd (submit_claim e req w d))) eqn:Hf;
    [now rewrite submit_claim_failure|].
  destruct (submit_claim_rows e req w d _ _ (surjective_pairing _) Hf)
    as (c & Hc & Hid & Hworker & Hst & H16 & Hscore & Hw & _ & Hflags).
  destruct (calcAnomalyScore_accepted e d w (wc_hours c) (wc_date c) H16)
    as [Hle Hflagged].
  constructor.
  - rewrite Hc, map_app. simpl. apply NoDup_snoc; [apply A|].
    rewrite Hid. now apply fresh_ids.
  - rewrite Hw. apply A.
  - rewrite Hc. intros c' Hin. apply in_app_or in Hin as [Hin | [<- | []]].
    + now apply (audit_hours d A).
    + split; [exact H16 | now rewrite Hscore].
  - rewrite Hflags. destruct (Qgt_bool (wc_anomaly_score c) (js 0.65)) eqn:Hgt;
      [|apply A].
    intros f Hin. apply in_app_or in Hin as [Hin | [<- | []]];
      [now apply (audit_flags d A)|].
    simpl. repeat split. rewrite Hscore in *.
    destruct (Hflagged Hgt) as [-> _]. reflexivity.
  - rewrite Hw. intros w' Hin.
    rewrite (sealed_claims_after_submission d _ c (w_id w') Hc Hst).
    now apply (audit_days d A).
Qed.

Lemma audit_verify_claim e req w d :
  ledger_audit d -> ledger_audit (fst (verify_claim e req w d)).
Proof.
  intros A.
  destruct (is_failure (snd (verify_claim e req w d))) eqn:Hf;
    [now rewrite verify_claim_failure|].
  pose proof (verify_claim_flags e req w d) as Hflags.
  destruct (verify_claim_success e req w d _ _ (surjective_pairing _) Hf)
    as (claim & Hfind & _ & Hst & _ & [(_ & _ & Hc & Hw) | (_ & _ & Hc & Hw)]).
  - constructor; unfold sealed_claims; rewrite ?Hc, ?Hflags; try apply A.
    + rewrite Hw, map_w_id_update_where by reflexivity. apply A.
    + rewrite Hw. intros w' Hin.
      apply In_update_where in Hin as (w0 & Hin & ->).
      pose proof (audit_days d A w0 Hin) as Hdays. unfold sealed_claims in Hdays.
      now destruct (String.eqb (w_id w0) w).
  - pose proof (find_claim_In _ _ _ Hfind) as [_ Hid].
    constructor; rewrite ?Hflags; try apply A.
    + rewrite Hc, map_wc_id_seal. apply A.
    + rewrite Hw, !map_w_id_update_where by reflexivity. apply A.
    + rewrite Hc. intros c' Hin. apply In_update_where in Hin as (c0 & Hin & ->).
      pose proof (audit_hours d A c0 Hin).
      now destruct (String.eqb (wc_id c0) (r_claim_id req)).
    + rewrite Hw. intros w' Hin.
      apply In_update_where in Hin as (w1 & Hin & ->).
      apply In_update_where in Hin as (w0 & Hin & ->).
      pose proof (audit_days d A w0 Hin) as Hdays.
      rewrite <- Hid in Hc, Hfind.
      pose proof (sealed_claims_after_seal e d _ claim (w_id w0) Hfind Hst Hc)
        as Hgain.
      destruct (String.eqb (w_id w0) w); simpl;
        destruct (String.eqb (w_id w0) (wc_worker_id claim)); simpl; simpl in Hgain;
        lia.
Qed.

Lemma audit_step e r d :
  ledger_audit d -> Backend.fresh e d -> ledger_audit (fst (Backend.handle e r d)).
Proof.
  intros A Hfresh.
  destruct r as [n l s | auth req | auth req | auth | like region]; simpl.
  - now apply audit_register.
  - destruct auth; simpl; try assumption. now apply audit_submit_claim.
  - destruct auth; simpl; try assumption. now apply audit_verify_claim.
  - destruct auth as [| | w]; simpl; try assumption.
    destruct (credit_report_rows e w d) as (Hw & Hc & _ & Hf).
    now apply (audit_same_rows d).
  - assumption.
Qed.

Lemma audit_reachable_from d0 d :
  ledger_audit d0 -> Backend.reachable_from d0 d -> ledger_audit d.
Proof.
  intros A0 Hreach. induction Hreach; [assumption|]. now apply audit_step.
Qed.

Lemma audit_reachable d : Backend.reachable d -> ledger_audit d.
Proof. apply audit_reachable_from, audit_empty. Qed.

End LedgerAudit.

(** * Properties of the ledgers produced by the routes *)

Section LedgerProperties.

Import Backend.
Local Open Scope string_scope.
Local Open Scope list_scope.








(** The scores of the submissions that go through.  The hours are sixteen
    at most, so the score is at most the double of 0.4 + 0.25 + 0.2, which
    lies above 0.85; and the score is above the 0.65 of the automatic flag
    only when it is that double: the hours are above fourteen, above 1.8
    times the mean of the recent claims, and filed five times or more in the
    fortnight. *)
Theorem accepted_submission_scores e req w d d' id date hours task st score :
  submit_claim e req w d = (d', ClaimAccepted id date hours task st score) ->
  Qgt_bool hours 16 = false
  /\ (score <= top_score)%Q /\ (0.85 < top_score)%Q
  /\ ((js 0.65 < score)%Q ->
      score = top_score /\ Qgt_bool hours 14 = true
      /\ deviates e d w hours date = true
      /\ repeats e d w hours date = true)
  /\ (anomaly_flags d' = anomaly_flags d \/ score = top_score).
Proof.
  unfold submit_claim. fold (claim_date e req).
  destruct (r_hours req) as [h|]; [|discriminate].
  destruct (r_task req) as [t|]; [|discriminate].
  destruct (falsy_num _ || falsy_str _); [discriminate|].
  destruct (Qgt_bool h 16) eqn:H16; [discriminate|].
  destruct (find _ (work_claims d)); [discriminate|].
  cbv zeta. intros [= <- <- <- <- <- <- <-].
  destruct (calcAnomalyScore_accepted e d w h (claim_date e req) H16)
    as [Hle Hflagged].
  split; [assumption|]. split; [assumption|]. split; [reflexivity|].
  split; [intros Hlt; apply Hflagged; now apply Qgt_bool_lt|].
  destruct (Qgt_bool (calcAnomalyScore _ _ _ _ _) (js 0.65)) eqn:Hgt;
    [right; now apply Hflagged | left; reflexivity].
Qed.

Lemma accepted_submission_scores_witness :
  calcAnomalyScore (Scenario.env_of "e9") Scenario.overworked "P" 15 "2026-01-15"
  = top_score.
Proof.
  destruct (accepted_submission_scores (Scenario.env_of "e9")
              (Scenario.claim_body 15 "2026-01-15") "P" Scenario.overworked
              (fst (submit_claim (Scenario.env_of "e9")
                      (Scenario.claim_body 15 "2026-01-15") "P" Scenario.overworked))
              "e9" "2026-01-15" 15 "Tea harvesting Row 12" "pending"
              (calcAnomalyScore (Scenario.env_of "e9") Scenario.overworked "P" 15
                 "2026-01-15"))
    as (_ & _ & _ & Hflagged & _).
  - vm_compute. reflexivity.
  - apply Hflagged. vm_compute. reflexivity.
Defined.

(** ** The credit report *)






End LedgerProperties.

(** * The certificates, the statistics and the pages of the workers *)

Section RoutesFacts.

Import Backend Routes.
Local Open Scope string_scope.
Local Open Scope list_scope.

(** ** The ledger of the books *)

Lemma ledger_reachable_from b0 b :
  Routes.reachable_from b0 b -> Backend.reachable_from (ledger b0) (ledger b).
Proof.
  induction 1 as [|e r b Hreach IH Hfresh]; [constructor|].
  destruct r as [r | certHash req]; simpl.
  - now apply Backend.reach_step.
  - unfold post_api_supplychain_certify.
    destruct (r_brand req), (r_product req), (r_worker_ids req); try exact IH.
    destruct (_ || _); [exact IH|]. destruct (Qgt_bool _ _); exact IH.
Qed.

Lemma ledger_reachable b : Routes.reachable b -> Backend.reachable (ledger b).
Proof. apply ledger_reachable_from. Qed.

Lemma books_of_ledger d :
  Backend.reachable d ->
  Routes.reachable {| ledger := d; supply_chain_certs := [] |}.
Proof.
  induction 1 as [|e r d Hreach IH Hfresh]; [constructor|].
  exact (Routes.reach_step open_books e (OnLedger r)
           {| ledger := d; supply_chain_certs := [] |} IH Hfresh).
Qed.

(** ** The row of a worker along the requests *)

Lemma find_by_id_update (l : list worker) wid q f w :
  (forall x, w_id (f x) = w_id x) ->
  find (fun x => String.eqb (w_id x) wid) l = Some w ->
  find (fun x => String.eqb (w_id x) wid) (update_where q f l)
  = Some (if q w then f w else w).
Proof. apply (find_worker_update (with_workers empty_db l)). Qed.

Lemma find_worker_step e r d wid w :
  find_worker d wid = Some w ->
  exists w', find_worker (fst (Backend.handle e r d)) wid = Some w'
             /\ (total_days_worked w <= total_days_worked w')%Z.
Proof.
  intros Hfind.
  assert (Hstay : exists w', find_worker d wid = Some w'
                             /\ (total_days_worked w <= total_days_worked w')%Z)
    by (exists w; split; [assumption | lia]).
  assert (Hsame : forall d', workers d' = workers d ->
            exists w', find_worker d' wid = Some w'
                       /\ (total_days_worked w <= total_days_worked w')%Z)
    by (intros d' E; unfold find_worker in *; rewrite E; exact Hstay).
  destruct r as [n l s | auth req | auth req | auth | like region]; simpl.
  - destruct (is_failure (snd (post_api_workers_register e n l s d))) eqn:Hf;
      [now rewrite register_failure|].
    destruct (register_rows e n l s d _ _ (surjective_pairing _) Hf)
      as (w0 & Hw & _).
    exists w. split; [|lia]. unfold find_worker in *. rewrite Hw.
    now apply find_app_some.
  - destruct auth; simpl; try assumption. apply Hsame, submit_claim_workers.
  - destruct auth as [| | v]; simpl; try assumption.
    destruct (is_failure (snd (verify_claim e req v d))) eqn:Hf;
      [now rewrite verify_claim_failure|].
    destruct (verify_claim_success e req v d _ _ (surjective_pairing _) Hf)
      as (claim & _ & _ & _ & _ & [(_ & _ & _ & Hw) | (_ & _ & _ & Hw)]);
      unfold find_worker in *; rewrite Hw.
    + rewrite (find_by_id_update (workers d) wid
                 (fun x => String.eqb (w_id x) v)
                 (fun x => set_verification_depth x (verification_depth x + 1)%Z) w)
        by (reflexivity || assumption).
      eexists. split; [reflexivity|].
      destruct (String.eqb (w_id w) v); simpl; lia.
    + rewrite (find_by_id_update _ wid
                 (fun x => String.eqb (w_id x) (wc_worker_id claim))
                 (fun x => set_days_and_reputation x (total_days_worked x + 1)%Z
                             (Qmin 100 (reputation_score x + 0.5)))
                 (if String.eqb (w_id w) v
                  then set_verification_depth w (verification_depth w + 1)%Z
                  else w)).
      * eexists. split; [reflexivity|].
        destruct (String.eqb (w_id w) v); simpl;
          match goal with
          | |- context [if ?b then _ else _] => destruct b; simpl; lia
          end.
      * reflexivity.
      * now apply (find_by_id_update (workers d) wid
                     (fun x => String.eqb (w_id x) v)
                     (fun x => set_verification_depth x (verification_depth x + 1)%Z)
                     w).
  - destruct auth; simpl; try assumption. apply Hsame, credit_report_workers.
  - assumption.
Qed.

(** ** What a certification writes *)

Lemma certify_rows e certHash req b :
  fst (post_api_supplychain_certify e certHash req b) = b
  \/ exists brand product ids,
       r_worker_ids req = Some ids
       /\ fst (post_api_supplychain_certify e certHash req b)
          = with_supply_chain_certs b (supply_chain_certs b ++
              [{| sc_id := gen_id e; sc_brand := brand; sc_product := product;
                  sc_batch_weight_kg := or_null (r_batch_weight_kg req);
                  sc_worker_count :=
                    Z.of_nat (List.length (eligible (ledger b) ids));
                  sc_worker_ids := eligible (ledger b) ids;
                  sc_cert_hash := certHash;
                  sc_qr_data :=
                    {| qr_cert_id := gen_id e; qr_brand := brand;
                       qr_product := product;
                       qr_workers :=
                         Z.of_nat (List.length (eligible (ledger b) ids));
                       qr_cert_hash := certHash; qr_ipfs := gen_ipfs_hash e |};
                  sc_ipfs_hash := gen_ipfs_hash e; sc_issued_at := now e;
                  sc_status := "certified" |}]).
Proof.
  unfold post_api_supplychain_certify.
  destruct (r_brand req) as [brand|]; [|now left].
  destruct (r_product req) as [product|]; [|now left].
  destruct (r_worker_ids req) as [ids|]; [|now left].
  destruct (_ || _); [now left|]. destruct (Qgt_bool _ _); [now left|].
  right. exists brand, product, ids. split; reflexivity.
Qed.

Lemma certs_step e r b :
  exists more,
    supply_chain_certs (fst (Routes.handle e r b)) = supply_chain_certs b ++ more.
Proof.
  destruct r as [r | certHash req]; simpl.
  - exists []. now rewrite app_nil_r.
  - destruct (certify_rows e certHash req b) as [-> | (brand & product & ids & _ & ->)].
    + exists []. now rewrite app_nil_r.
    + eexists. reflexivity.
Qed.

Lemma find_cert_later b b' certHash cert :
  Routes.reachable_from b b' ->
  find_cert b certHash = Some cert -> find_cert b' certHash = Some cert.
Proof.
  induction 1 as [|e r b' Hreach IH Hfresh]; [auto|].
  intros Hfind. specialize (IH Hfind).
  destruct (certs_step e r b') as [more Hmore].
  unfold find_cert in *. rewrite Hmore. now apply find_app_some.
Qed.

(** ** The workers of the certificates *)

Lemma backed_reachable b c :
  Routes.reachable b -> In c (supply_chain_certs b) -> backed b c.
Proof.
  intros Hreach. revert c.
  induction Hreach as [|e r b Hreach IH Hfresh]; [intros c []|].
  destruct r as [r | certHash req]; simpl.
  - intros c Hc. destruct (IH c Hc) as (Hcount & Hstatus & Hworkers).
    split; [assumption|]. split; [assumption|].
    intros wid Hwid. destruct (Hworkers wid Hwid) as (w & Hfind & Hdays).
    destruct (find_worker_step e r (ledger b) wid w Hfind) as (w' & Hfind' & Hle).
    exists w'. split; [assumption | lia].
  - destruct (certify_rows e certHash req b) as [-> | (brand & product & ids & _ & ->)];
      [exact IH|].
    simpl. intros c Hc. apply in_app_or in Hc as [Hc | [<- | []]]; [now apply IH|].
    split; [reflexivity|]. split; [reflexivity|]. simpl.
    intros wid Hwid. unfold eligible in Hwid. apply filter_In in Hwid as [_ Hwid].
    destruct (find_worker (ledger b) wid) as [w|]; [|discriminate].
    exists w. split; [reflexivity | now apply Z.leb_le].
Qed.

(** ** The peers of a claim *)

Lemma verify_claim_new_peer e req w d d' r :
  verify_claim e req w d = (d', r) -> is_failure r = false ->
  find (fun v => String.eqb (v_claim_id v) (r_claim_id req)
                 && String.eqb (v_verifier_id v) w) (verifications d) = None.
Proof.
  unfold verify_claim.
  destruct (find_claim d (r_claim_id req)); [|intros [= <- <-]; discriminate].
  destruct (String.eqb _ w); [intros [= <- <-]; discriminate|].
  destruct (String.eqb _ "verified"); [intros [= <- <-]; discriminate|].
  destruct (find _ (verifications d)); [intros [= <- <-]; discriminate|].
  reflexivity.
Qed.

Lemma claim_by_id d c c' :
  NoDup (map wc_id (work_claims d)) ->
  In c (work_claims d) -> In c' (work_claims d) -> wc_id c = wc_id c' -> c = c'.
Proof.
  induction (work_claims d) as [|a l IH]; simpl; [intros _ []|].
  intros Hnd Hc Hc' E. inversion Hnd as [|? ? Ha Hl]; subst.
  destruct Hc as [-> | Hc], Hc' as [-> | Hc']; auto.
  - exfalso. apply Ha. rewrite E. now apply in_map.
  - exfalso. apply Ha. rewrite <- E. now apply in_map.
Qed.

Lemma peers_empty : attested_by_peers empty_db.
Proof. constructor; simpl; [intros ? ? [] | constructor]. Qed.

Lemma peers_same_records d d' :
  same_records d d' -> attested_by_peers d -> attested_by_peers d'.
Proof.
  intros [Hc Hv] P. constructor; unfold attestations; rewrite ?Hc, ?Hv; apply P.
Qed.

Lemma peers_step e r d :
  ledger_invariant d -> ledger_audit d -> Backend.fresh e d ->
  attested_by_peers d -> attested_by_peers (fst (Backend.handle e r d)).
Proof.
  intros Inv A Hfresh P.
  assert (Hquiet : forall d', work_claims d' = work_claims d ->
            verifications d' = verifications d -> attested_by_peers d')
    by (intros d' Hc Hv; now apply (peers_same_records d)).
  destruct r as [n l s | auth req | auth req | auth | like region]; simpl.
  - destruct (is_failure (snd (post_api_workers_register e n l s d))) eqn:Hf;
      [now rewrite register_failure|].
    destruct (register_rows e n l s d _ _ (surjective_pairing _) Hf)
      as (w0 & _ & _ & _ & Hc & Hv & _).
    now apply Hquiet.
  - destruct auth as [| | w]; simpl; try assumption.
    destruct (is_failure (snd (submit_claim e req w d))) eqn:Hf;
      [now rewrite submit_claim_failure|].
    destruct (submit_claim_rows e req w d _ _ (surjective_pairing _) Hf)
      as (c & Hc & Hid & _ & _ & _ & _ & _ & Hv & _).
    constructor; unfold attestations; rewrite ?Hc, ?Hv; [|apply P].
    intros v c' Hin Hc' E. apply in_app_or in Hc' as [Hc' | [<- | []]].
    + now apply (peers_others d P).
    + exfalso. apply (proj2 (fresh_ids e d Hfresh)).
      rewrite <- Hid, E. now apply (inv_refers d Inv).
  - destruct auth as [| | w]; simpl; try assumption.
    destruct (is_failure (snd (verify_claim e req w d))) eqn:Hf;
      [now rewrite verify_claim_failure|].
    pose proof (verify_claim_new_peer e req w d _ _ (surjective_pairing _) Hf)
      as Hnew.
    destruct (verify_claim_success e req w d _ _ (surjective_pairing _) Hf)
      as (claim & Hfind & Hother & _ & Hv & Hrows).
    destruct (find_claim_In _ _ _ Hfind) as [Hclaim Hid].
    assert (Hclaims : forall c', In c' (work_claims (fst (verify_claim e req w d))) ->
              exists c0, In c0 (work_claims d)
                         /\ wc_id c' = wc_id c0
                         /\ wc_worker_id c' = wc_worker_id c0).
    { destruct Hrows as [(_ & _ & Hc & _) | (_ & _ & Hc & _)]; rewrite Hc.
      - intros c' Hc'. now exists c'.
      - intros c' Hc'. apply In_update_where in Hc' as (c0 & Hc0 & ->).
        exists c0. split; [assumption|]. now destruct (String.eqb _ _). }
    constructor.
    + rewrite Hv. intros v c' Hin Hc' E.
      destruct (Hclaims c' Hc') as (c0 & Hc0 & Hid0 & ->).
      apply in_app_or in Hin as [Hin | [<- | []]].
      * apply (peers_others d P v c0 Hin Hc0). congruence.
      * simpl in *.
        rewrite (claim_by_id d c0 claim (audit_claim_ids d A) Hc0 Hclaim)
          by congruence.
        exact Hother.
    + intros claim_id. rewrite (attestations_recorded d _ _ claim_id Hv). simpl.
      destruct (String.eqb_spec (r_claim_id req) claim_id) as [<- | _];
        [|rewrite app_nil_r; apply P].
      rewrite map_app. simpl. apply NoDup_snoc; [apply P|].
      intros Hin. apply in_map_iff in Hin as (v & Hw & Hv0).
      unfold attestations in Hv0. apply filter_In in Hv0 as [Hv0 Hcid].
      apply (find_none _ _ Hnew) in Hv0. rewrite Hcid, Hw, String.eqb_refl in Hv0.
      discriminate.
  - destruct auth as [| | w]; simpl; try assumption.
    destruct (credit_report_rows e w d) as (_ & Hc & Hv & _). now apply Hquiet.
  - assumption.
Qed.

Lemma peers_reachable d : Backend.reachable d -> attested_by_peers d.
Proof.
  unfold Backend.reachable.
  induction 1 as [|e r d Hreach IH Hfresh]; [apply peers_empty|].
  apply peers_step; try assumption.
  - now apply invariant_reachable.
  - now apply audit_reachable.
Qed.

Lemma filter_by_key_once {A} (key : A -> string) (k : string) (l : list A) :
  NoDup (map key l) ->
  (List.length (filter (fun x => String.eqb k (key x)) l) <= 1)%nat.
Proof.
  induction l as [|a l IH]; simpl; intros H; [lia|].
  inversion H as [|? ? Ha Hl]; subst. specialize (IH Hl).
  destruct (String.eqb_spec k (key a)) as [-> | _]; [|lia].
  rewrite filter_none; [simpl; lia|].
  intros x Hx. apply String.eqb_neq. intros E. apply Ha. rewrite E. now apply in_map.
Qed.

Lemma joined_once {A B} (key : A -> string) (key' : B -> string)
    (g : A -> list B) (l : list A) :
  (forall a, (List.length (g a) <= 1)%nat) ->
  (forall a x, In x (g a) -> key' x = key a) ->
  NoDup (map key l) ->
  NoDup (map key' (flat_map g l))
  /\ (List.length (flat_map g l) <= List.length l)%nat
  /\ forall y, In y (map key' (flat_map g l)) -> In y (map key l).
Proof.
  intros Hone Hkey. induction l as [|a l IH]; simpl; intros H.
  - split; [constructor|]. split; [lia | auto].
  - inversion H as [|? ? Ha Hl]; subst. destruct (IH Hl) as (Hnd & Hlen & Hsub).
    specialize (Hone a). pose proof (Hkey a) as Hk.
    destruct (g a) as [|x [|x' rest]]; simpl in *; [| |lia].
    + split; [assumption|]. split; [lia | auto].
    + rewrite (Hk x (or_introl eq_refl)).
      split; [constructor; [intros Hin; apply Ha; now apply Hsub | assumption]|].
      split; [lia|]. intros y [<- | Hy]; auto.
Qed.

Lemma distinct_peers_of_a_claim d c :
  Backend.reachable d -> In c (work_claims d) ->
  NoDup (map v_verifier_id (attestations d (wc_id c)))
  /\ ~ In (wc_worker_id c) (map v_verifier_id (attestations d (wc_id c)))
  /\ (List.length (attestations d (wc_id c)) <= 3)%nat.
Proof.
  intros Hreach Hc.
  pose proof (invariant_reachable d Hreach) as Inv.
  pose proof (peers_reachable d Hreach) as P.
  split; [apply P|]. split.
  { intros Hin. apply in_map_iff in Hin as (v & Hv & Hin).
    unfold attestations in Hin. apply filter_In in Hin as [Hin Hid].
    apply String.eqb_eq in Hid.
    now apply (peers_others d P v c Hin Hc). }
  destruct (String.eqb_spec (wc_status c) "verified") as [Hst | Hst].
  - pose proof (inv_sealed d Inv c Hc Hst). lia.
  - destruct (inv_open d Inv c Hc Hst) as (_ & _ & Hlt). lia.
Qed.

End RoutesFacts.

Section RoutesProperties.

Import Backend Routes.
Local Open Scope string_scope.
Local Open Scope list_scope.




(** The certificates of the books, at any time: a certificate counts the
    workers it lists, each of them is a worker of the ledger who has a day
    worked and a sealed claim, and its status is 'certified' (no route
    changes or withdraws a certificate). *)
Theorem certificates_list_workers_with_sealed_claims b c :
  Routes.reachable b -> In c (supply_chain_certs b) ->
  sc_worker_count c = Z.of_nat (List.length (sc_worker_ids c))
  /\ sc_status c = "certified"
  /\ forall wid, In wid (sc_worker_ids c) ->
       exists w, find_worker (ledger b) wid = Some w
                 /\ (1 <= total_days_worked w)%Z
                 /\ sealed_claims (ledger b) wid <> [].
Proof.
  intros Hreach Hc.
  destruct (backed_reachable b c Hreach Hc) as (Hcount & Hstatus & Hworkers).
  pose proof (audit_reachable _ (ledger_reachable b Hreach)) as A.
  split; [assumption|]. split; [assumption|].
  intros wid Hwid. destruct (Hworkers wid Hwid) as (w & Hfind & Hdays).
  exists w. split; [assumption|]. split; [assumption|].
  destruct (find_worker_In _ _ _ Hfind) as [Hin Hid].
  pose proof (audit_days _ A w Hin) as Hsealed. rewrite Hid in Hsealed.
  intros E. rewrite E in Hsealed. simpl in Hsealed. lia.
Qed.

Lemma reachable_certified : Routes.reachable Scenario.certified.
Proof.
  apply (Routes.reach_step open_books (Scenario.env_of "k1")
           (PostSupplychainCertify "cert-1" (Scenario.batch ["P"]))
           Scenario.sealed_books (books_of_ledger _ reachable_sealed)).
  simpl. tauto.
Qed.

Lemma certificates_list_workers_with_sealed_claims_witness :
  exists w, find_worker (ledger Scenario.certified) "P" = Some w
            /\ (1 <= total_days_worked w)%Z.
Proof.
  destruct (certificates_list_workers_with_sealed_claims Scenario.certified
              {| sc_id := "k1"; sc_brand := "Brand"; sc_product := "Tea";
                 sc_batch_weight_kg := Some 120%Q; sc_worker_count := 1;
                 sc_worker_ids := ["P"]; sc_cert_hash := "cert-1";
                 sc_qr_data :=
                   {| qr_cert_id := "k1"; qr_brand := "Brand"; qr_product := "Tea";
                      qr_workers := 1; qr_cert_hash := "cert-1";
                      qr_ipfs := "Qmseal" |};
                 sc_ipfs_hash := "Qmseal"; sc_issued_at := "2026-01-15 10:00:07";
                 sc_status := "certified" |} reachable_certified)
    as (_ & _ & Hworkers).
  - vm_compute. left. reflexivity.
  - destruct (Hworkers "P") as (w & Hfind & Hdays & _); [now left|].
    exists w. split; assumption.
Defined.

(** A certificate that has been issued verifies for good: whatever is
    requested afterwards, GET /api/supplychain/verify/:certHash answers
    'valid' with the certificate as it was issued. *)
Theorem issued_certificate_verifies e certHash req b b1 b2
    id hash ipfs n payload :
  fresh e (PostSupplychainCertify certHash req) b ->
  post_api_supplychain_certify e certHash req b
  = (b1, Certified id hash ipfs n payload) ->
  Routes.reachable_from b1 b2 ->
  exists cert,
    get_api_supplychain_verify certHash b2 = CertificateValid cert
    /\ In cert (supply_chain_certs b1)
    /\ sc_id cert = id /\ sc_cert_hash cert = certHash /\ hash = certHash
    /\ sc_worker_count cert = n /\ sc_qr_data cert = payload
    /\ sc_ipfs_hash cert = ipfs.
Proof.
  intros [_ Hnew] Hrun Hlater.
  unfold post_api_supplychain_certify in Hrun.
  destruct (r_brand req) as [brand|]; [|discriminate].
  destruct (r_product req) as [product|]; [|discriminate].
  destruct (r_worker_ids req) as [ids|]; [|discriminate].
  destruct (_ || _); [discriminate|]. destruct (Qgt_bool _ _); [discriminate|].
  cbv zeta in Hrun. injection Hrun as <- <- <- <- <- <-.
  lazymatch type of Hlater with
  | context [supply_chain_certs b ++ [?c]] => exists c
  end.
  split; [|split; [simpl; apply in_or_app; right; left; reflexivity|]].
  - unfold get_api_supplychain_verify.
    erewrite (find_cert_later _ b2 certHash _ Hlater); [reflexivity|].
    unfold find_cert. simpl. rewrite find_app_none.
    + simpl. now rewrite String.eqb_refl.
    + destruct (find _ (supply_chain_certs b)) as [c|] eqn:Hfind; [|reflexivity].
      exfalso. apply Hnew. apply find_some in Hfind as [Hin Heq].
      apply String.eqb_eq in Heq. rewrite <- Heq. now apply in_map.
  - simpl. repeat split.
Qed.

Lemma issued_certificate_verifies_witness :
  exists cert,
    get_api_supplychain_verify "cert-1"
      (fst (Routes.handle (Scenario.env_of "c7")
              (OnLedger (PostClaims (Bearer "A") (Scenario.claim_body 7 "2026-01-16")))
              Scenario.certified))
    = CertificateValid cert
    /\ sc_worker_ids cert = ["P"].
Proof.
  destruct (issued_certificate_verifies (Scenario.env_of "k1") "cert-1"
              (Scenario.batch ["P"]) Scenario.sealed_books Scenario.certified
              (fst (Routes.handle (Scenario.env_of "c7")
                      (OnLedger (PostClaims (Bearer "A")
                                   (Scenario.claim_body 7 "2026-01-16")))
                      Scenario.certified))
              "k1" "cert-1" "Qmseal" 1
              {| qr_cert_id := "k1"; qr_brand := "Brand"; qr_product := "Tea";
                 qr_workers := 1; qr_cert_hash := "cert-1"; qr_ipfs := "Qmseal" |})
    as (cert & Hvalid & Hin & _).
  - simpl. tauto.
  - vm_compute. reflexivity.
  - apply Routes.reach_step; [apply Routes.reach_start|].
    vm_compute. intuition discriminate.
  - exists cert. split; [exact Hvalid|].
    vm_compute in Hin. destruct Hin as [<- | []]. reflexivity.
Defined.

(** ** The statistics *)

Lemma filter_or_disjoint {A} (p q : A -> bool) (l : list A) :
  (forall x, In x l -> p x = true -> q x = false) ->
  List.length (filter (fun x => p x || q x) l)
  = (List.length (filter p l) + List.length (filter q l))%nat.
Proof.
  induction l as [|a l IH]; intros H; simpl; [reflexivity|].
  specialize (IH (fun x Hx => H x (or_intror Hx))).
  destruct (p a) eqn:Hp; simpl.
  - rewrite (H a (or_introl eq_refl) Hp). simpl. lia.
  - destruct (q a); simpl; lia.
Qed.

Lemma attestations_by_claim (ks : list string) (vs : list verification) :
  NoDup ks ->
  list_sum (map (fun k => List.length
                   (filter (fun v => String.eqb (v_claim_id v) k) vs)) ks)
  = List.length (filter (fun v => existsb (String.eqb (v_claim_id v)) ks) vs).
Proof.
  induction 1 as [|k ks Hk Hks IH]; simpl.
  - rewrite filter_none; [reflexivity | reflexivity].
  - rewrite IH, <- filter_or_disjoint; [reflexivity|].
    intros v _ Hv. apply String.eqb_eq in Hv.
    destruct (existsb _ ks) eqn:E; [|reflexivity].
    apply existsb_exists in E as (k' & Hin & Heq). apply String.eqb_eq in Heq.
    congruence.
Qed.

Lemma list_sum_bound {A} (f : A -> nat) (n : nat) (l : list A) :
  (forall x, In x l -> (f x <= n)%nat) ->
  (list_sum (map f l) <= n * List.length l)%nat.
Proof.
  induction l as [|a l IH]; intros H; simpl; [lia|].
  specialize (IH (fun x Hx => H x (or_intror Hx))).
  specialize (H a (or_introl eq_refl)). lia.
Qed.

Lemma list_sum_constant {A} (f : A -> nat) (n : nat) (l : list A) :
  (forall x, In x l -> f x = n) ->
  list_sum (map f l) = (n * List.length l)%nat.
Proof.
  induction l as [|a l IH]; intros H; simpl; [lia|].
  rewrite IH by (intros x Hx; apply H; now right).
  rewrite (H a (or_introl eq_refl)). lia.
Qed.

(** GET /api/stats on the books produced by the routes: the sealed claims
    are claims, each of them stands for three verifications of its own, no
    claim has more than three, every flag is open (no route resolves one),
    and the 'block number' is 48291 plus the number of verifications. *)
Theorem statistics_are_consistent b :
  Routes.reachable b ->
  (0 <= verifiedClaims (get_api_stats b) <= totalClaims (get_api_stats b))%Z
  /\ (3 * verifiedClaims (get_api_stats b) <= totalVerifs (get_api_stats b))%Z
  /\ (totalVerifs (get_api_stats b) <= 3 * totalClaims (get_api_stats b))%Z
  /\ openFlags (get_api_stats b)
     = Z.of_nat (List.length (anomaly_flags (ledger b)))
  /\ blockNumber (get_api_stats b) = (48291 + totalVerifs (get_api_stats b))%Z.
Proof.
  intros Hreach. apply ledger_reachable in Hreach.
  pose proof (invariant_reachable _ Hreach) as Inv.
  pose proof (audit_reachable _ Hreach) as A.
  unfold get_api_stats. cbn [verifiedClaims totalClaims totalVerifs openFlags blockNumber].
  set (d := ledger b) in *. unfold count.
  set (sealed := filter (fun c => String.eqb (wc_status c) "verified") (work_claims d)).
  split.
  { pose proof (filter_length_le
                  (fun c => String.eqb (wc_status c) "verified") (work_claims d)).
    fold sealed in H. lia. }
  split.
  { pose proof (attestations_by_claim (map wc_id sealed) (verifications d)
                  (NoDup_map_filter _ _ _ (audit_claim_ids d A))) as Hsum.
    rewrite map_map in Hsum.
    rewrite (list_sum_constant _ 3) in Hsum.
    - pose proof (filter_length_le
                    (fun v => existsb (String.eqb (v_claim_id v)) (map wc_id sealed))
                    (verifications d)).
      lia.
    - intros c Hc. apply filter_In in Hc as [Hin Hst]. apply String.eqb_eq in Hst.
      exact (inv_sealed d Inv c Hin Hst). }
  split.
  { pose proof (attestations_by_claim (map wc_id (work_claims d)) (verifications d)
                  (audit_claim_ids d A)) as Hsum.
    rewrite map_map in Hsum.
    assert (Hall : filter (fun v => existsb (String.eqb (v_claim_id v))
                                      (map wc_id (work_claims d))) (verifications d)
                   = verifications d).
    { apply forallb_filter_id. apply forallb_forall. intros v Hv.
      apply existsb_exists. exists (v_claim_id v).
      split; [now apply (inv_refers d Inv) | apply String.eqb_refl]. }
    rewrite Hall in Hsum.
    pose proof (list_sum_bound
                  (fun c => List.length
                     (filter (fun v => String.eqb (v_claim_id v) (wc_id c))
                             (verifications d))) 3 (work_claims d)) as Hbound.
    rewrite Hsum in Hbound. 
    assert (List.length (verifications d) <= 3 * List.length (work_claims d))%nat;
      [|lia].
    apply Hbound. intros c Hc.
    destruct (String.eqb_spec (wc_status c) "verified") as [Hst | Hst].
    - pose proof (inv_sealed d Inv c Hc Hst) as H3. unfold attestations in H3. lia.
    - destruct (inv_open d Inv c Hc Hst) as (_ & _ & H3).
      unfold attestations in H3. lia. }
  split; [|reflexivity].
  f_equal. f_equal. apply forallb_filter_id. apply forallb_forall. intros f Hf.
  destruct (audit_flags d A f Hf) as (_ & _ & -> & _). reflexivity.
Qed.

Lemma statistics_are_consistent_witness :
  (3 * verifiedClaims (get_api_stats Scenario.certified)
   <= totalVerifs (get_api_stats Scenario.certified))%Z.
Proof.
  apply (statistics_are_consistent Scenario.certified reachable_certified).
Defined.

(** ** The pages of the workers *)

Lemma pages_bound (total limit : Z) :
  (0 <= total)%Z -> (0 < limit)%Z ->
  (0 <= Qceiling (inject_Z total / inject_Z limit))%Z
  /\ (total <= Qceiling (inject_Z total / inject_Z limit) * limit)%Z
  /\ ((Qceiling (inject_Z total / inject_Z limit) - 1) * limit < total)%Z.
Proof.
  intros Ht Hl. destruct limit as [|p|p]; try lia.
  unfold Qceiling, Qfloor, Qopp, Qdiv, Qmult, Qinv, inject_Z. cbn [Qnum Qden].
  rewrite Pos.mul_1_l, Z.mul_1_r.
  pose proof (Z.div_mod (- total) (Z.pos p) ltac:(lia)).
  pose proof (Z.mod_pos_bound (- total) (Z.pos p) ltac:(lia)).
  nia.
Qed.

Lemma firstn_add_skipn {A} (n m : nat) (l : list A) :
  firstn (n + m) l = firstn n l ++ firstn m (skipn n l).
Proof.
  revert l. induction n as [|n IH]; intros l; simpl; [reflexivity|].
  destruct l as [|a l]; simpl; [now rewrite firstn_nil|]. now rewrite IH.
Qed.

Lemma pages_concat {A} (rows : list A) (l n : nat) :
  flat_map (fun p => firstn l (skipn ((p - 1) * l) rows)) (seq 1 n)
  = firstn (n * l) rows.
Proof.
  induction n as [|n IH]; [reflexivity|].
  rewrite seq_S, flat_map_app, IH. simpl flat_map. rewrite app_nil_r.
  replace (n - 0)%nat with n by lia.
  replace (S n * l)%nat with (n * l + l)%nat by lia.
  now rewrite firstn_add_skipn.
Qed.

Lemma page_rows_spec p limit b :
  (1 <= p)%Z -> (0 < limit)%Z ->
  page_rows p limit b
  = firstn (Z.to_nat limit)
      (skipn ((Z.to_nat p - 1) * Z.to_nat limit) (map row_of (workers (ledger b)))).
Proof.
  intros Hp Hl. unfold page_rows, get_api_workers, truthy_or, sql_limit_offset.
  destruct (Z.eqb_spec p 0); [lia|]. destruct (Z.eqb_spec limit 0); [lia|].
  cbv zeta. destruct (Z.ltb_spec limit 0); [lia|].
  do 2 f_equal. nia.
Qed.

(** GET /api/workers by pages of [limit] rows: [pages] is the number of
    pages that hold a row; the pages 1 to [pages], one after the other, are
    the list of the workers, each worker once and in the order of
    registration; a page holds [limit] rows at most, and the pages after
    the last one are void. *)
Theorem workers_pages_cover limit b :
  (0 < limit)%Z ->
  exists pages,
    (0 <= pages)%Z
    /\ (forall p, (1 <= p)%Z ->
          get_api_workers (Some p) (Some limit) b
          = WorkerPage (page_rows p limit b)
              (Z.of_nat (List.length (workers (ledger b)))) p pages)
    /\ pages_up_to (Z.to_nat pages) limit b = map row_of (workers (ledger b))
    /\ (forall p, (1 <= p <= pages)%Z ->
          page_rows p limit b <> []
          /\ (Z.of_nat (List.length (page_rows p limit b)) <= limit)%Z)
    /\ (forall p, (pages < p)%Z -> page_rows p limit b = []).
Proof.
  intros Hl.
  set (rows := map row_of (workers (ledger b))).
  set (total := Z.of_nat (List.length (workers (ledger b)))).
  assert (Hrows : List.length rows = List.length (workers (ledger b)))
    by apply length_map.
  destruct (pages_bound total limit ltac:(lia) Hl) as (Hpos & Hup & Hlow).
  exists (Qceiling (inject_Z total / inject_Z limit)).
  set (pages := Qceiling (inject_Z total / inject_Z limit)) in *.
  split; [assumption|]. split.
  { intros p Hp. unfold page_rows, get_api_workers, truthy_or.
    destruct (Z.eqb_spec p 0); [lia|]. destruct (Z.eqb_spec limit 0); [lia|].
    reflexivity. }
  split.
  { unfold pages_up_to.
    rewrite (flat_map_ext _
               (fun p => firstn (Z.to_nat limit)
                           (skipn ((p - 1) * Z.to_nat limit) rows))).
    - rewrite pages_concat. apply firstn_all2. nia.
    - intros p. destruct p as [|p].
      + unfold page_rows, get_api_workers, truthy_or, sql_limit_offset. simpl Z.of_nat.
        cbn [Z.eqb]. destruct (Z.eqb_spec limit 0); [lia|]. cbv zeta.
        destruct (Z.ltb_spec limit 0); [lia|]. reflexivity.
      + rewrite page_rows_spec by lia. now rewrite Nat2Z.id. }
  split.
  { intros p Hp. rewrite page_rows_spec by lia. fold rows.
    assert (Hlen : List.length (firstn (Z.to_nat limit)
                                  (skipn ((Z.to_nat p - 1) * Z.to_nat limit) rows))
                   = Nat.min (Z.to_nat limit)
                       (List.length rows - (Z.to_nat p - 1) * Z.to_nat limit))
      by now rewrite length_firstn, length_skipn.
    split.
    - intros E. rewrite E in Hlen. simpl in Hlen. nia.
    - rewrite Hlen. lia. }
  intros p Hp. rewrite page_rows_spec by lia. fold rows.
  rewrite skipn_all2; [apply firstn_nil | nia].
Qed.

Lemma workers_pages_cover_witness :
  pages_up_to 2 3 Scenario.certified
  = map row_of (workers (ledger Scenario.certified))
  /\ page_rows 3 3 Scenario.certified = [].
Proof.
  destruct (workers_pages_cover 3 Scenario.certified ltac:(lia))
    as (pages & _ & Hpage & Hall & _ & Hvoid).
  assert (Hpages : pages = 2%Z).
  { specialize (Hpage 1%Z ltac:(lia)). vm_compute in Hpage. congruence. }
  subst pages. split; [exact Hall | apply Hvoid; lia].
Defined.

(** ** The peers of a claim *)

(** In a ledger produced by the routes the verifications of a claim come
    from verifiers that differ from each other and from the worker of the
    claim; there are three of them at most, and three exactly when the
    claim reads 'verified'. *)
Theorem claims_are_attested_by_distinct_peers d c :
  Backend.reachable d -> In c (work_claims d) ->
  NoDup (map v_verifier_id (attestations d (wc_id c)))
  /\ ~ In (wc_worker_id c) (map v_verifier_id (attestations d (wc_id c)))
  /\ (List.length (attestations d (wc_id c)) <= 3)%nat
  /\ (wc_status c = "verified"
      <-> List.length (attestations d (wc_id c)) = 3%nat).
Proof.
  intros Hreach Hc.
  pose proof (invariant_reachable d Hreach) as Inv.
  pose proof (peers_reachable d Hreach) as P.
  split; [apply P|]. split.
  { intros Hin. apply in_map_iff in Hin as (v & Hv & Hin).
    unfold attestations in Hin. apply filter_In in Hin as [Hin Hid].
    apply String.eqb_eq in Hid.
    now apply (peers_others d P v c Hin Hc). }
  destruct (String.eqb_spec (wc_status c) "verified") as [Hst | Hst].
  - pose proof (inv_sealed d Inv c Hc Hst). split; [lia | tauto].
  - destruct (inv_open d Inv c Hc Hst) as (_ & _ & Hlt).
    split; [lia|]. split; [contradiction | lia].
Qed.

Lemma claims_are_attested_by_distinct_peers_witness :
  NoDup (map v_verifier_id (attestations Scenario.sealed "c1")).
Proof.
  apply (claims_are_attested_by_distinct_peers Scenario.sealed
           {| wc_id := "c1"; wc_worker_id := "P"; wc_date := "2026-01-15"; wc_hours := 8;
              wc_task := "Tea harvesting Row 12"; wc_location_lat := None;
              wc_location_lng := None; wc_status := "verified";
              wc_ipfs_hash := Some "Qmseal"; wc_tx_hash := Some "0xseal";
              wc_block_number := Some 48291%Z; wc_anomaly_score := 0;
              wc_created_at := "2026-01-15 10:00:07" |} reachable_sealed).
  vm_compute. left. reflexivity.
Defined.

(** GET /api/claims/:id on the books produced by the routes: the claim of
    that identifier, with three verifications at most, each of them a
    verification of that claim by a registered worker whose name is shown,
    no verifier twice; an identifier that no claim has is answered 'Not
    found'. *)
Theorem claim_details_show_its_peers b c :
  Routes.reachable b -> In c (work_claims (ledger b)) ->
  exists vs,
    get_api_claims_id (wc_id c) b = ClaimDetails c vs
    /\ (List.length vs <= 3)%nat
    /\ NoDup (map (fun x => v_verifier_id (fst x)) vs)
    /\ forall x, In x vs ->
         In (fst x) (attestations (ledger b) (wc_id c))
         /\ v_verifier_id (fst x) <> wc_worker_id c
         /\ exists w, In w (workers (ledger b))
                      /\ w_id w = v_verifier_id (fst x) /\ snd x = w_name w.
Proof.
  intros Hreach Hc. apply ledger_reachable in Hreach.
  set (d := ledger b) in *.
  pose proof (audit_reachable d Hreach) as A.
  destruct (distinct_peers_of_a_claim d c Hreach Hc)
    as (Hdistinct & Hother & Hthree).
  assert (Hfind : find_claim d (wc_id c) = Some c).
  { destruct (find_claim_of_row d c Hc) as (c0 & Hfind). rewrite Hfind. f_equal.
    destruct (find_claim_In _ _ _ Hfind) as [Hc0 Hid].
    now apply (claim_by_id d c0 c (audit_claim_ids d A)). }
  exists (claim_verifications d (wc_id c)).
  unfold get_api_claims_id. fold d. rewrite Hfind.
  split; [reflexivity|].
  unfold claim_verifications. fold (attestations d (wc_id c)).
  destruct (joined_once v_verifier_id (fun x : verification * string => v_verifier_id (fst x))
              (fun v => map (fun w => (v, w_name w))
                          (filter (fun w => String.eqb (v_verifier_id v) (w_id w))
                                  (workers d)))
              (attestations d (wc_id c))) as (Hnd & Hlen & Hsub).
  - intros v. rewrite length_map.
    apply (filter_by_key_once w_id), (audit_worker_ids d A).
  - intros v x Hx. apply in_map_iff in Hx as (w & <- & _). reflexivity.
  - exact Hdistinct.
  - split; [lia|]. split; [exact Hnd|].
    intros x Hx. apply in_flat_map in Hx as (v & Hv & Hx).
    apply in_map_iff in Hx as (w & <- & Hw). apply filter_In in Hw as [Hw Hid].
    apply String.eqb_eq in Hid. simpl.
    split; [assumption|]. split.
    + intros E. apply Hother. rewrite <- E. now apply in_map.
    + exists w. auto.
Qed.

Lemma claim_details_show_its_peers_witness :
  exists vs,
    get_api_claims_id "c1" Scenario.certified
    = ClaimDetails
        {| wc_id := "c1"; wc_worker_id := "P"; wc_date := "2026-01-15"; wc_hours := 8;
           wc_task := "Tea harvesting Row 12"; wc_location_lat := None;
           wc_location_lng := None; wc_status := "verified";
           wc_ipfs_hash := Some "Qmseal"; wc_tx_hash := Some "0xseal";
           wc_block_number := Some 48291%Z; wc_anomaly_score := 0;
           wc_created_at := "2026-01-15 10:00:07" |} vs
    /\ (List.length vs <= 3)%nat.
Proof.
  destruct (claim_details_show_its_peers Scenario.certified
              {| wc_id := "c1"; wc_worker_id := "P"; wc_date := "2026-01-15"; wc_hours := 8;
                 wc_task := "Tea harvesting Row 12"; wc_location_lat := None;
                 wc_location_lng := None; wc_status := "verified";
                 wc_ipfs_hash := Some "Qmseal"; wc_tx_hash := Some "0xseal";
                 wc_block_number := Some 48291%Z; wc_anomaly_score := 0;
                 wc_created_at := "2026-01-15 10:00:07" |} reachable_certified)
    as (vs & Hget & Hlen & _).
  - vm_compute. left. reflexivity.
  - exists vs. split; assumption.
Defined.

End RoutesProperties.
